(** * AngReader: the TSL orientation-map reader of [tsl.hpp]

    A shallow embedding of the reader for EBSD scan files in the "ang" text
    format ([tsl::OrientationMap] and its helpers), followed by the theorems
    that settle the specification's claims about it.

    Conventions of the embedding
    - [size_t] and [uint64_t] values are integers in [Z]; every operation
      that can leave the range [0, 2^64) is written with [wrap64].
    - Text (file contents, lines, tokens) is [list ascii]; messages of
      exceptions and file names are [string].
    - A call either returns, throws [std::runtime_error] with a message, or
      has undefined behaviour (an element access outside a vector, array or
      mapped region): the three cases of [outcome].
    - [float] values are kept abstract ([FloatModel]): the reader never
      computes with them, it only converts text and stores the result. *)

From Stdlib Require Import ZArith String Ascii List Bool Lia DecimalString.
From stdpp Require Import base tactics option list.

Set Primitive Projections.
Set Default Proof Using "Type".
Local Open Scope Z_scope.

(** ** Text *)

Definition text := list ascii.

(** A string literal as text. *)
Definition txt (s : string) : text := list_ascii_of_string s.

Definition str (t : text) : string := string_of_list_ascii t.

Definition text_eqb (a b : text) : bool := String.eqb (str a) (str b).

Definition code (c : ascii) : Z := Z.of_N (N_of_ascii c).

(** [std::isspace] in the "C" locale: space, and the controls
    [\t \n \v \f \r]. *)
Definition isspace (c : ascii) : bool :=
  (code c =? 32) || ((9 <=? code c) && (code c <=? 13)).

Definition isdigit (c : ascii) : bool := (48 <=? code c) && (code c <=? 57).

Definition is_newline (c : ascii) : bool := code c =? 10.

Definition is_sign (c : ascii) : bool := (code c =? 43) || (code c =? 45).

Definition is_minus (c : ascii) : bool := code c =? 45.

Definition is_dot (c : ascii) : bool := code c =? 46.

Definition is_exp (c : ascii) : bool := (code c =? 101) || (code c =? 69).

Definition is_hash (c : ascii) : bool := code c =? 35.

(** [std::tolower] in the "C" locale. *)
Definition tolower (c : ascii) : ascii :=
  if (65 <=? code c) && (code c <=? 90)
  then ascii_of_N (Z.to_N (code c + 32)) else c.

(** The characters of a buffer as a C string: those before the first NUL. *)
Fixpoint c_str (buffer : text) : text :=
  match buffer with
  | [] => []
  | c :: rest => if code c =? 0 then [] else c :: c_str rest
  end.

(** ** Machine integers *)

Definition SIZE_MAX : Z := 2 ^ 64 - 1.

Definition wrap64 (z : Z) : Z := z mod 2 ^ 64.

Definition INT32_MAX : Z := 2 ^ 31 - 1.
Definition INT32_MIN : Z := - 2 ^ 31.
Definition UINT32_MAX : Z := 2 ^ 32 - 1.

(** [ss << n] for an unsigned integer: its decimal digits. *)
Definition dec (n : Z) : string := NilZero.string_of_uint (N.to_uint (Z.to_N n)).

(** ** Outcomes of a call *)

Inductive outcome (A : Type) : Type :=
| Return (a : A)
| Throw (what : string)
| Undefined.
Arguments Return {A} a.
Arguments Throw {A} what.
Arguments Undefined {A}.

Definition bind {A B : Type} (m : outcome A) (k : A -> outcome B) : outcome B :=
  match m with
  | Return a => k a
  | Throw what => Throw what
  | Undefined => Undefined
  end.

Declare Scope outcome_scope.
Delimit Scope outcome_scope with outcome.
Notation "x <- m ;; k" := (bind m (fun x => k))
  (at level 100, m at next level, right associativity) : outcome_scope.
Local Open Scope outcome_scope.

(** [if (!ok) throw std::runtime_error(what);] *)
Definition require (ok : bool) (what : string) : outcome unit :=
  if ok then Return tt else Throw what.

(** ** Scanning numbers in text *)

Fixpoint skip_space (s : text) : text :=
  match s with
  | c :: s' => if isspace c then skip_space s' else s
  | [] => []
  end.

Fixpoint span_digits (s : text) : text * text :=
  match s with
  | c :: s' =>
      if isdigit c then let '(d, r) := span_digits s' in (c :: d, r)
      else ([], s)
  | [] => ([], [])
  end.

Definition take_sign (s : text) : text * text :=
  match s with
  | c :: s' => if is_sign c then ([c], s') else ([], s)
  | [] => ([], [])
  end.

Definition digit_value (c : ascii) : Z := code c - 48.

Definition decimal_value (ds : text) : Z :=
  fold_left (fun acc c => 10 * acc + digit_value c) ds 0.

Definition is_nil {A : Type} (l : list A) : bool :=
  match l with [] => true | _ => false end.

(** The fraction of a decimal floating constant: a dot and the digits after
    it, or nothing. *)
Definition take_fraction (s : text) : text * text :=
  match s with
  | c :: t =>
      if is_dot c then let '(d, r) := span_digits t in (c :: d, r)
      else ([], s)
  | [] => ([], [])
  end.

(** The exponent part: [e] or [E], an optional sign and at least one digit;
    without a digit nothing is taken. *)
Definition take_exponent (s : text) : text * text :=
  match s with
  | c :: t =>
      if is_exp c then
        let '(sg, t1) := take_sign t in
        let '(d, t2) := span_digits t1 in
        if is_nil d then ([], s) else (c :: sg ++ d, t2)
      else ([], s)
  | [] => ([], [])
  end.

(** The longest prefix of [s] that is a decimal floating constant with an
    optional sign (the decimal subject sequence of [strtof] in ISO C), and
    what follows it; [None] when [s] does not start with one.  Hexadecimal
    constants and the words [inf] and [nan] are not recognised here. *)
Definition scan_float (s : text) : option (text * text) :=
  let '(sg, s1) := take_sign s in
  let '(ip, s2) := span_digits s1 in
  let '(fp, s3) := take_fraction s2 in
  if is_nil ip && is_nil (tail fp) then None
  else
    let '(ex, s4) := take_exponent s3 in
    Some (sg ++ ip ++ fp ++ ex, s4).

(** The longest prefix of [s] that is a decimal integer with an optional
    sign: whether it is negated, the value of its digits, and the rest. *)
Definition scan_integer (s : text) : option (bool * Z * text) :=
  let '(sg, s1) := take_sign s in
  let '(d, s2) := span_digits s1 in
  if is_nil d then None
  else Some (existsb is_minus sg, decimal_value d, s2).

(** ** Floating-point values *)

(** What the reader needs of [float]: the zero of value-initialisation and
    of failed conversions, and the conversion of a decimal constant to the
    nearest representable value. *)
Class FloatModel := {
  float : Type;
  float_zero : float;
  float_of_decimal : text -> float;
}.

Section Conversions.
Context `{FM : FloatModel}.

(** [strtof(s, &end)]: the value and [end].  Leading white space is
    skipped; when no conversion can be made the value is zero and [end] is
    [s] itself. *)
Definition strtof (s : text) : float * text :=
  match scan_float (skip_space s) with
  | Some (lexeme, rest) => (float_of_decimal lexeme, rest)
  | None => (float_zero, s)
  end.

(** [strtoul(s, &end, 10)]: a value beyond [ULONG_MAX] gives [ULONG_MAX],
    a minus sign negates in the unsigned type. *)
Definition strtoul (s : text) : Z * text :=
  match scan_integer (skip_space s) with
  | Some (neg, v, rest) =>
      (if SIZE_MAX <? v then SIZE_MAX else if neg then wrap64 (- v) else v,
       rest)
  | None => (0, s)
  end.

End Conversions.

(** ** Input streams

    [std::istream] over a fixed sequence of characters (an [ifstream] over
    a file's bytes, an [istringstream] over a line): the get position and
    the state bits [eofbit] and [failbit]. *)

Record istream := {
  content : text;
  gpos : nat;
  eofbit : bool;
  failbit : bool;
}.

Definition open_text (t : text) : istream :=
  {| content := t; gpos := 0; eofbit := false; failbit := false |}.

Definition good (ins : istream) : bool := negb (eofbit ins) && negb (failbit ins).

Definition remaining (ins : istream) : text := drop (gpos ins) (content ins).

Definition setstate_fail (ins : istream) : istream :=
  {| content := content ins; gpos := gpos ins; eofbit := eofbit ins;
     failbit := true |}.

(** [k] characters extracted, and the state bits the extraction raised. *)
Definition advance (k : nat) (eof fl : bool) (ins : istream) : istream :=
  {| content := content ins; gpos := (gpos ins + k)%nat;
     eofbit := eofbit ins || eof; failbit := failbit ins || fl |}.

(** [is.peek()]: [None] is [Traits::eof()]. *)
Definition peek (ins : istream) : option ascii * istream :=
  if good ins then
    match remaining ins with
    | c :: _ => (Some c, ins)
    | [] => (None, advance 0 true false ins)
    end
  else (None, setstate_fail ins).

Inductive getline_stop := HitEof | HitDelim | HitFull.

(** The extraction loop of [getline]: end of input is tested first, then
    the delimiter (extracted, not stored), then whether [room] characters
    have been stored.  The result is the stored characters, the number of
    characters extracted and the reason for stopping. *)
Fixpoint getline_scan (room : nat) (s : text) {struct s}
    : text * nat * getline_stop :=
  match s with
  | [] => ([], O, HitEof)
  | c :: s' =>
      if is_newline c then ([], 1%nat, HitDelim)
      else match room with
           | O => ([], O, HitFull)
           | S room' =>
               let '(l, k, stop) := getline_scan room' s' in (c :: l, S k, stop)
           end
  end.

(** [is.getline(line, count)]: the characters stored in [line] and the
    stream afterwards.  [failbit] is raised when the buffer fills before a
    delimiter or when nothing at all is extracted. *)
Definition getline (count : nat) (ins : istream) : text * istream :=
  if good ins then
    let '(l, k, stop) := getline_scan (count - 1) (remaining ins) in
    (l, advance k
          (match stop with HitEof => true | _ => false end)
          (match stop with HitFull => true | _ => Nat.eqb k 0 end) ins)
  else ([], setstate_fail ins).

(** [is.tellg()]: [-1] when the stream is not good. *)
Definition tellg (ins : istream) : Z * istream :=
  if good ins then (Z.of_nat (gpos ins), ins) else (-1, setstate_fail ins).

(** [is.seekg(pos)]: clears [eofbit] first and moves only when the stream
    has not failed. *)
Definition seekg (pos : Z) (ins : istream) : istream :=
  if failbit ins then
    {| content := content ins; gpos := gpos ins; eofbit := false;
       failbit := true |}
  else if (0 <=? pos) && (pos <=? Z.of_nat (length (content ins))) then
    {| content := content ins; gpos := Z.to_nat pos; eofbit := false;
       failbit := false |}
  else
    {| content := content ins; gpos := gpos ins; eofbit := false;
       failbit := true |}.

(** The sentry of a formatted extraction: it fails on a stream that is not
    good, skips white space, and fails when that reaches the end. *)
Definition sentry (ins : istream) : bool * istream :=
  if good ins then
    let r := skip_space (remaining ins) in
    let k := (length (remaining ins) - length r)%nat in
    if is_nil r then (false, advance k true true ins)
    else (true, advance k false false ins)
  else (false, setstate_fail ins).

Fixpoint span_word (s : text) : text * text :=
  match s with
  | c :: s' =>
      if isspace c then ([], s)
      else let '(w, r) := span_word s' in (c :: w, r)
  | [] => ([], [])
  end.

(** [is >> word] for a [std::string]: [None] when the sentry fails (the
    string is then left as it was). *)
Definition extract_word (ins : istream) : option text * istream :=
  let '(ok, is1) := sentry ins in
  if ok then
    let '(w, r) := span_word (remaining is1) in
    (Some w, advance (length w) (is_nil r) false is1)
  else (None, is1).

(** [is >> s] into a string variable holding [old]. *)
Definition extract_string (old : text) (ins : istream) : text * istream :=
  let '(w, is1) := extract_word ins in (default old w, is1).

(** [is >> n] for an integer variable holding [old], with the stored value
    of [num_get]: zero when there is no number, the nearest bound and
    [failbit] when it is out of range.  [wide] is the value of the digits
    with their sign, as [strtoull] or [strtoll] read it when it is in
    their range. *)
Definition extract_integer (lo hi : Z) (wide : bool -> Z -> Z)
    (old : Z) (ins : istream) : Z * istream :=
  let '(ok, is1) := sentry ins in
  if ok then
    match scan_integer (remaining is1) with
    | Some (neg, v, r) =>
        let k := (length (remaining is1) - length r)%nat in
        let w := wide neg v in
        if w <? lo then (lo, advance k (is_nil r) true is1)
        else if hi <? w then (hi, advance k (is_nil r) true is1)
        else (w, advance k (is_nil r) false is1)
    | None => (0, setstate_fail is1)
    end
  else (old, is1).

Definition as_strtoull (neg : bool) (v : Z) : Z :=
  if SIZE_MAX <? v then v else if neg then wrap64 (- v) else v.

Definition as_strtoll (neg : bool) (v : Z) : Z := if neg then - v else v.

(** [is >> n] for [size_t], [uint32_t] and [int32_t]. *)
Definition extract_size_t := extract_integer 0 SIZE_MAX as_strtoull.
Definition extract_uint32 := extract_integer 0 UINT32_MAX as_strtoull.
Definition extract_int32 := extract_integer INT32_MIN INT32_MAX as_strtoll.

(** A file system: the bytes of the files that exist. *)
Definition files := string -> option text.

(** ** Grid and file types *)

Module GridType.
Inductive t := Unknown | Square | Hexagonal.
End GridType.

Module FileType.
Inductive t := Unknown | Ang | Osc | Hdf.
End FileType.

(** [fileName.find_last_of(".")] *)
Fixpoint find_last_of (c : ascii) (s : text) : option nat :=
  match s with
  | [] => None
  | a :: s' =>
      match find_last_of c s' with
      | Some p => Some (S p)
      | None => if Ascii.eqb a c then Some O else None
      end
  end.

Definition getFileType (fileName : string) : FileType.t :=
  match find_last_of "."%char (txt fileName) with
  | None => FileType.Unknown
  | Some pos =>
      let ext := map tolower (drop (S pos) (txt fileName)) in
      if text_eqb ext (txt "ang") then FileType.Ang
      else if text_eqb ext (txt "osc") then FileType.Osc
      else if text_eqb ext (txt "hdf") then FileType.Hdf
      else if text_eqb ext (txt "hdf5") then FileType.Hdf
      else if text_eqb ext (txt "h5") then FileType.Hdf
      else FileType.Unknown
  end.

(** [operator>>(std::istream&, GridType&)] *)
Definition extract_GridType (ins : istream) : GridType.t * istream :=
  let '(name, is1) := extract_string [] ins in
  (if text_eqb name (txt "SqrGrid") then GridType.Square
   else if text_eqb name (txt "HexGrid") then GridType.Hexagonal
   else GridType.Unknown, is1).

(** [operator<<(std::ostream&, const GridType&)]; [os] holds the
    characters written to the stream so far. *)
Definition insert_GridType (os : text) (grid : GridType.t) : outcome text :=
  match grid with
  | GridType.Square => Return (os ++ txt "SqrGrid")
  | GridType.Hexagonal => Return (os ++ txt "HexGrid")
  | GridType.Unknown => Throw "unknown grid type"
  end.

(** The text that [memorymap::detail::getErrorMessage()] gives for the
    last error of the operating system. *)
Class SystemError := getErrorMessage : string.

(** ** The data model *)

Record HKLFamily := {
  hkl : Z * Z * Z;
  useIdx : Z;
  intensity : Z;
  showBands : Z;
}.

Definition blank_family : HKLFamily :=
  {| hkl := (0, 0, 0); useIdx := 0; intensity := 0; showBands := 0 |}.

Section Reader.
Context `{FM : FloatModel}.

Record Phase := {
  num : Z;
  name : text;
  form : text;
  info : text;
  sym : Z;
  lat : list float;
  hklFam : list HKLFamily;
  el : list float;
  cats : list Z;
}.

(** A value-initialised [Phase], as [phaseList.resize] appends it. *)
Definition blank_phase : Phase :=
  {| num := 0; name := []; form := []; info := []; sym := 0;
     lat := replicate 6 float_zero; hklFam := [];
     el := replicate 36 float_zero; cats := [] |}.

(** The header members of [OrientationMap]. *)
Record ScanHeader := {
  pixPerUm : float;
  xStar : float;
  yStar : float;
  zStar : float;
  workingDistance : float;
  xStep : float;
  yStep : float;
  nColsOdd : Z;
  nColsEven : Z;
  nRows : Z;
  operatorName : text;
  sampleId : text;
  scanId : text;
  gridType : GridType.t;
  phaseList : list Phase;
}.

(** The scan data members of [OrientationMap]. *)
Record ScanData := {
  eu : list float;
  x : list float;
  y : list float;
  iq : list float;
  ci : list float;
  sem : list float;
  fit : list float;
  phase : list Z;
}.

(** [tsl::OrientationMap]: its members in two groups. *)
Record OrientationMap := {
  header : ScanHeader;
  scan : ScanData;
}.

(** The map left by the default constructor.  The numbers among the
    header members have no initialiser in the class and are given zero
    here; [read] does not use them before the header has set them. *)
Definition empty_map : OrientationMap :=
  {| header :=
       {| pixPerUm := float_zero; xStar := float_zero; yStar := float_zero;
          zStar := float_zero; workingDistance := float_zero;
          xStep := float_zero; yStep := float_zero;
          nColsOdd := 0; nColsEven := 0; nRows := 0;
          operatorName := []; sampleId := []; scanId := [];
          gridType := GridType.Unknown; phaseList := [] |};
     scan :=
       {| eu := []; x := []; y := []; iq := []; ci := []; sem := [];
          fit := []; phase := [] |} |}.

(** The flags of [readAngHeader] for the top-level keys. *)
Record HeaderSeen := {
  readPixPerUm : bool;
  readXStar : bool;
  readYStar : bool;
  readZStar : bool;
  readWorkingDistance : bool;
  readXStep : bool;
  readYStep : bool;
  readColsOdd : bool;
  readColsEven : bool;
  readRows : bool;
  readOperatorName : bool;
  readSampleId : bool;
  readScanId : bool;
  readGridType : bool;
}.

(** The flags and counters of [readAngHeader] for the current phase. *)
Record PhaseSeen := {
  readPhaseSymmetry : bool;
  targetFamilies : Z;
  readPhaseMaterial : bool;
  readPhaseFormula : bool;
  readPhaseInfo : bool;
  readPhaseLattice : bool;
  readPhaseHkl : bool;
  phaseElasticCount : Z;
  readPhaseCategories : bool;
}.

(** Their initial values: nothing seen at top level; the phase flags start
    as if a complete phase had been read, for a header that lists none. *)
Definition nothing_seen : HeaderSeen :=
  {| readPixPerUm := false; readXStar := false; readYStar := false;
     readZStar := false; readWorkingDistance := false; readXStep := false;
     readYStep := false; readColsOdd := false; readColsEven := false;
     readRows := false; readOperatorName := false; readSampleId := false;
     readScanId := false; readGridType := false |}.

Definition no_phase_yet : PhaseSeen :=
  {| readPhaseSymmetry := true; targetFamilies := 0;
     readPhaseMaterial := true; readPhaseFormula := true;
     readPhaseInfo := true; readPhaseLattice := true; readPhaseHkl := true;
     phaseElasticCount := 6; readPhaseCategories := true |}.

(** The reset at a [Phase] key. *)
Definition phase_started : PhaseSeen :=
  {| readPhaseSymmetry := false; targetFamilies := 0;
     readPhaseMaterial := false; readPhaseFormula := false;
     readPhaseInfo := false; readPhaseLattice := false;
     readPhaseHkl := false; phaseElasticCount := 0;
     readPhaseCategories := false |}.

(** *** Member updates *)

Definition set_readPixPerUm (v : bool) (r : HeaderSeen) : HeaderSeen :=
  {| readPixPerUm := v; readXStar := readXStar r; readYStar := readYStar r;
     readZStar := readZStar r; readWorkingDistance := readWorkingDistance r;
     readXStep := readXStep r; readYStep := readYStep r;
     readColsOdd := readColsOdd r; readColsEven := readColsEven r;
     readRows := readRows r; readOperatorName := readOperatorName r;
     readSampleId := readSampleId r; readScanId := readScanId r;
     readGridType := readGridType r |}.

Definition set_readXStar (v : bool) (r : HeaderSeen) : HeaderSeen :=
  {| readPixPerUm := readPixPerUm r; readXStar := v;
     readYStar := readYStar r; readZStar := readZStar r;
     readWorkingDistance := readWorkingDistance r; readXStep := readXStep r;
     readYStep := readYStep r; readColsOdd := readColsOdd r;
     readColsEven := readColsEven r; readRows := readRows r;
     readOperatorName := readOperatorName r; readSampleId := readSampleId r;
     readScanId := readScanId r; readGridType := readGridType r |}.

Definition set_readYStar (v : bool) (r : HeaderSeen) : HeaderSeen :=
  {| readPixPerUm := readPixPerUm r; readXStar := readXStar r;
     readYStar := v; readZStar := readZStar r;
     readWorkingDistance := readWorkingDistance r; readXStep := readXStep r;
     readYStep := readYStep r; readColsOdd := readColsOdd r;
     readColsEven := readColsEven r; readRows := readRows r;
     readOperatorName := readOperatorName r; readSampleId := readSampleId r;
     readScanId := readScanId r; readGridType := readGridType r |}.

Definition set_readZStar (v : bool) (r : HeaderSeen) : HeaderSeen :=
  {| readPixPerUm := readPixPerUm r; readXStar := readXStar r;
     readYStar := readYStar r; readZStar := v;
     readWorkingDistance := readWorkingDistance r; readXStep := readXStep r;
     readYStep := readYStep r; readColsOdd := readColsOdd r;
     readColsEven := readColsEven r; readRows := readRows r;
     readOperatorName := readOperatorName r; readSampleId := readSampleId r;
     readScanId := readScanId r; readGridType := readGridType r |}.

Definition set_readWorkingDistance (v : bool) (r : HeaderSeen) : HeaderSeen :=
  {| readPixPerUm := readPixPerUm r; readXStar := readXStar r;
     readYStar := readYStar r; readZStar := readZStar r;
     readWorkingDistance := v; readXStep := readXStep r;
     readYStep := readYStep r; readColsOdd := readColsOdd r;
     readColsEven := readColsEven r; readRows := readRows r;
     readOperatorName := readOperatorName r; readSampleId := readSampleId r;
     readScanId := readScanId r; readGridType := readGridType r |}.

Definition set_readXStep (v : bool) (r : HeaderSeen) : HeaderSeen :=
  {| readPixPerUm := readPixPerUm r; readXStar := readXStar r;
     readYStar := readYStar r; readZStar := readZStar r;
     readWorkingDistance := readWorkingDistance r; readXStep := v;
     readYStep := readYStep r; readColsOdd := readColsOdd r;
     readColsEven := readColsEven r; readRows := readRows r;
     readOperatorName := readOperatorName r; readSampleId := readSampleId r;
     readScanId := readScanId r; readGridType := readGridType r |}.

Definition set_readYStep (v : bool) (r : HeaderSeen) : HeaderSeen :=
  {| readPixPerUm := readPixPerUm r; readXStar := readXStar r;
     readYStar := readYStar r; readZStar := readZStar r;
     readWorkingDistance := readWorkingDistance r; readXStep := readXStep r;
     readYStep := v; readColsOdd := readColsOdd r;
     readColsEven := readColsEven r; readRows := readRows r;
     readOperatorName := readOperatorName r; readSampleId := readSampleId r;
     readScanId := readScanId r; readGridType := readGridType r |}.

Definition set_readColsOdd (v : bool) (r : HeaderSeen) : HeaderSeen :=
  {| readPixPerUm := readPixPerUm r; readXStar := readXStar r;
     readYStar := readYStar r; readZStar := readZStar r;
     readWorkingDistance := readWorkingDistance r; readXStep := readXStep r;
     readYStep := readYStep r; readColsOdd := v;
     readColsEven := readColsEven r; readRows := readRows r;
     readOperatorName := readOperatorName r; readSampleId := readSampleId r;
     readScanId := readScanId r; readGridType := readGridType r |}.

Definition set_readColsEven (v : bool) (r : HeaderSeen) : HeaderSeen :=
  {| readPixPerUm := readPixPerUm r; readXStar := readXStar r;
     readYStar := readYStar r; readZStar := readZStar r;
     readWorkingDistance := readWorkingDistance r; readXStep := readXStep r;
     readYStep := readYStep r; readColsOdd := readColsOdd r;
     readColsEven := v; readRows := readRows r;
     readOperatorName := readOperatorName r; readSampleId := readSampleId r;
     readScanId := readScanId r; readGridType := readGridType r |}.

Definition set_readRows (v : bool) (r : HeaderSeen) : HeaderSeen :=
  {| readPixPerUm := readPixPerUm r; readXStar := readXStar r;
     readYStar := readYStar r; readZStar := readZStar r;
     readWorkingDistance := readWorkingDistance r; readXStep := readXStep r;
     readYStep := readYStep r; readColsOdd := readColsOdd r;
     readColsEven := readColsEven r; readRows := v;
     readOperatorName := readOperatorName r; readSampleId := readSampleId r;
     readScanId := readScanId r; readGridType := readGridType r |}.

Definition set_readOperatorName (v : bool) (r : HeaderSeen) : HeaderSeen :=
  {| readPixPerUm := readPixPerUm r; readXStar := readXStar r;
     readYStar := readYStar r; readZStar := readZStar r;
     readWorkingDistance := readWorkingDistance r; readXStep := readXStep r;
     readYStep := readYStep r; readColsOdd := readColsOdd r;
     readColsEven := readColsEven r; readRows := readRows r;
     readOperatorName := v; readSampleId := readSampleId r;
     readScanId := readScanId r; readGridType := readGridType r |}.

Definition set_readSampleId (v : bool) (r : HeaderSeen) : HeaderSeen :=
  {| readPixPerUm := readPixPerUm r; readXStar := readXStar r;
     readYStar := readYStar r; readZStar := readZStar r;
     readWorkingDistance := readWorkingDistance r; readXStep := readXStep r;
     readYStep := readYStep r; readColsOdd := readColsOdd r;
     readColsEven := readColsEven r; readRows := readRows r;
     readOperatorName := readOperatorName r; readSampleId := v;
     readScanId := readScanId r; readGridType := readGridType r |}.

Definition set_readScanId (v : bool) (r : HeaderSeen) : HeaderSeen :=
  {| readPixPerUm := readPixPerUm r; readXStar := readXStar r;
     readYStar := readYStar r; readZStar := readZStar r;
     readWorkingDistance := readWorkingDistance r; readXStep := readXStep r;
     readYStep := readYStep r; readColsOdd := readColsOdd r;
     readColsEven := readColsEven r; readRows := readRows r;
     readOperatorName := readOperatorName r; readSampleId := readSampleId r;
     readScanId := v; readGridType := readGridType r |}.

Definition set_readGridType (v : bool) (r : HeaderSeen) : HeaderSeen :=
  {| readPixPerUm := readPixPerUm r; readXStar := readXStar r;
     readYStar := readYStar r; readZStar := readZStar r;
     readWorkingDistance := readWorkingDistance r; readXStep := readXStep r;
     readYStep := readYStep r; readColsOdd := readColsOdd r;
     readColsEven := readColsEven r; readRows := readRows r;
     readOperatorName := readOperatorName r; readSampleId := readSampleId r;
     readScanId := readScanId r; readGridType := v |}.

Definition set_readPhaseSymmetry (v : bool) (r : PhaseSeen) : PhaseSeen :=
  {| readPhaseSymmetry := v; targetFamilies := targetFamilies r;
     readPhaseMaterial := readPhaseMaterial r;
     readPhaseFormula := readPhaseFormula r;
     readPhaseInfo := readPhaseInfo r;
     readPhaseLattice := readPhaseLattice r; readPhaseHkl := readPhaseHkl r;
     phaseElasticCount := phaseElasticCount r;
     readPhaseCategories := readPhaseCategories r |}.

Definition set_targetFamilies (v : Z) (r : PhaseSeen) : PhaseSeen :=
  {| readPhaseSymmetry := readPhaseSymmetry r; targetFamilies := v;
     readPhaseMaterial := readPhaseMaterial r;
     readPhaseFormula := readPhaseFormula r;
     readPhaseInfo := readPhaseInfo r;
     readPhaseLattice := readPhaseLattice r; readPhaseHkl := readPhaseHkl r;
     phaseElasticCount := phaseElasticCount r;
     readPhaseCategories := readPhaseCategories r |}.

Definition set_readPhaseMaterial (v : bool) (r : PhaseSeen) : PhaseSeen :=
  {| readPhaseSymmetry := readPhaseSymmetry r;
     targetFamilies := targetFamilies r; readPhaseMaterial := v;
     readPhaseFormula := readPhaseFormula r;
     readPhaseInfo := readPhaseInfo r;
     readPhaseLattice := readPhaseLattice r; readPhaseHkl := readPhaseHkl r;
     phaseElasticCount := phaseElasticCount r;
     readPhaseCategories := readPhaseCategories r |}.

Definition set_readPhaseFormula (v : bool) (r : PhaseSeen) : PhaseSeen :=
  {| readPhaseSymmetry := readPhaseSymmetry r;
     targetFamilies := targetFamilies r;
     readPhaseMaterial := readPhaseMaterial r; readPhaseFormula := v;
     readPhaseInfo := readPhaseInfo r;
     readPhaseLattice := readPhaseLattice r; readPhaseHkl := readPhaseHkl r;
     phaseElasticCount := phaseElasticCount r;
     readPhaseCategories := readPhaseCategories r |}.

Definition set_readPhaseInfo (v : bool) (r : PhaseSeen) : PhaseSeen :=
  {| readPhaseSymmetry := readPhaseSymmetry r;
     targetFamilies := targetFamilies r;
     readPhaseMaterial := readPhaseMaterial r;
     readPhaseFormula := readPhaseFormula r; readPhaseInfo := v;
     readPhaseLattice := readPhaseLattice r; readPhaseHkl := readPhaseHkl r;
     phaseElasticCount := phaseElasticCount r;
     readPhaseCategories := readPhaseCategories r |}.

Definition set_readPhaseLattice (v : bool) (r : PhaseSeen) : PhaseSeen :=
  {| readPhaseSymmetry := readPhaseSymmetry r;
     targetFamilies := targetFamilies r;
     readPhaseMaterial := readPhaseMaterial r;
     readPhaseFormula := readPhaseFormula r;
     readPhaseInfo := readPhaseInfo r; readPhaseLattice := v;
     readPhaseHkl := readPhaseHkl r;
     phaseElasticCount := phaseElasticCount r;
     readPhaseCategories := readPhaseCategories r |}.

Definition set_readPhaseHkl (v : bool) (r : PhaseSeen) : PhaseSeen :=
  {| readPhaseSymmetry := readPhaseSymmetry r;
     targetFamilies := targetFamilies r;
     readPhaseMaterial := readPhaseMaterial r;
     readPhaseFormula := readPhaseFormula r;
     readPhaseInfo := readPhaseInfo r;
     readPhaseLattice := readPhaseLattice r; readPhaseHkl := v;
     phaseElasticCount := phaseElasticCount r;
     readPhaseCategories := readPhaseCategories r |}.

Definition set_phaseElasticCount (v : Z) (r : PhaseSeen) : PhaseSeen :=
  {| readPhaseSymmetry := readPhaseSymmetry r;
     targetFamilies := targetFamilies r;
     readPhaseMaterial := readPhaseMaterial r;
     readPhaseFormula := readPhaseFormula r;
     readPhaseInfo := readPhaseInfo r;
     readPhaseLattice := readPhaseLattice r; readPhaseHkl := readPhaseHkl r;
     phaseElasticCount := v; readPhaseCategories := readPhaseCategories r |}.

Definition set_readPhaseCategories (v : bool) (r : PhaseSeen) : PhaseSeen :=
  {| readPhaseSymmetry := readPhaseSymmetry r;
     targetFamilies := targetFamilies r;
     readPhaseMaterial := readPhaseMaterial r;
     readPhaseFormula := readPhaseFormula r;
     readPhaseInfo := readPhaseInfo r;
     readPhaseLattice := readPhaseLattice r; readPhaseHkl := readPhaseHkl r;
     phaseElasticCount := phaseElasticCount r; readPhaseCategories := v |}.

Definition set_pixPerUm (v : float) (r : ScanHeader) : ScanHeader :=
  {| pixPerUm := v; xStar := xStar r; yStar := yStar r; zStar := zStar r;
     workingDistance := workingDistance r; xStep := xStep r;
     yStep := yStep r; nColsOdd := nColsOdd r; nColsEven := nColsEven r;
     nRows := nRows r; operatorName := operatorName r;
     sampleId := sampleId r; scanId := scanId r; gridType := gridType r;
     phaseList := phaseList r |}.

Definition set_xStar (v : float) (r : ScanHeader) : ScanHeader :=
  {| pixPerUm := pixPerUm r; xStar := v; yStar := yStar r; zStar := zStar r;
     workingDistance := workingDistance r; xStep := xStep r;
     yStep := yStep r; nColsOdd := nColsOdd r; nColsEven := nColsEven r;
     nRows := nRows r; operatorName := operatorName r;
     sampleId := sampleId r; scanId := scanId r; gridType := gridType r;
     phaseList := phaseList r |}.

Definition set_yStar (v : float) (r : ScanHeader) : ScanHeader :=
  {| pixPerUm := pixPerUm r; xStar := xStar r; yStar := v; zStar := zStar r;
     workingDistance := workingDistance r; xStep := xStep r;
     yStep := yStep r; nColsOdd := nColsOdd r; nColsEven := nColsEven r;
     nRows := nRows r; operatorName := operatorName r;
     sampleId := sampleId r; scanId := scanId r; gridType := gridType r;
     phaseList := phaseList r |}.

Definition set_zStar (v : float) (r : ScanHeader) : ScanHeader :=
  {| pixPerUm := pixPerUm r; xStar := xStar r; yStar := yStar r; zStar := v;
     workingDistance := workingDistance r; xStep := xStep r;
     yStep := yStep r; nColsOdd := nColsOdd r; nColsEven := nColsEven r;
     nRows := nRows r; operatorName := operatorName r;
     sampleId := sampleId r; scanId := scanId r; gridType := gridType r;
     phaseList := phaseList r |}.

Definition set_workingDistance (v : float) (r : ScanHeader) : ScanHeader :=
  {| pixPerUm := pixPerUm r; xStar := xStar r; yStar := yStar r;
     zStar := zStar r; workingDistance := v; xStep := xStep r;
     yStep := yStep r; nColsOdd := nColsOdd r; nColsEven := nColsEven r;
     nRows := nRows r; operatorName := operatorName r;
     sampleId := sampleId r; scanId := scanId r; gridType := gridType r;
     phaseList := phaseList r |}.

Definition set_xStep (v : float) (r : ScanHeader) : ScanHeader :=
  {| pixPerUm := pixPerUm r; xStar := xStar r; yStar := yStar r;
     zStar := zStar r; workingDistance := workingDistance r; xStep := v;
     yStep := yStep r; nColsOdd := nColsOdd r; nColsEven := nColsEven r;
     nRows := nRows r; operatorName := operatorName r;
     sampleId := sampleId r; scanId := scanId r; gridType := gridType r;
     phaseList := phaseList r |}.

Definition set_yStep (v : float) (r : ScanHeader) : ScanHeader :=
  {| pixPerUm := pixPerUm r; xStar := xStar r; yStar := yStar r;
     zStar := zStar r; workingDistance := workingDistance r;
     xStep := xStep r; yStep := v; nColsOdd := nColsOdd r;
     nColsEven := nColsEven r; nRows := nRows r;
     operatorName := operatorName r; sampleId := sampleId r;
     scanId := scanId r; gridType := gridType r; phaseList := phaseList r |}.

Definition set_nColsOdd (v : Z) (r : ScanHeader) : ScanHeader :=
  {| pixPerUm := pixPerUm r; xStar := xStar r; yStar := yStar r;
     zStar := zStar r; workingDistance := workingDistance r;
     xStep := xStep r; yStep := yStep r; nColsOdd := v;
     nColsEven := nColsEven r; nRows := nRows r;
     operatorName := operatorName r; sampleId := sampleId r;
     scanId := scanId r; gridType := gridType r; phaseList := phaseList r |}.

Definition set_nColsEven (v : Z) (r : ScanHeader) : ScanHeader :=
  {| pixPerUm := pixPerUm r; xStar := xStar r; yStar := yStar r;
     zStar := zStar r; workingDistance := workingDistance r;
     xStep := xStep r; yStep := yStep r; nColsOdd := nColsOdd r;
     nColsEven := v; nRows := nRows r; operatorName := operatorName r;
     sampleId := sampleId r; scanId := scanId r; gridType := gridType r;
     phaseList := phaseList r |}.

Definition set_nRows (v : Z) (r : ScanHeader) : ScanHeader :=
  {| pixPerUm := pixPerUm r; xStar := xStar r; yStar := yStar r;
     zStar := zStar r; workingDistance := workingDistance r;
     xStep := xStep r; yStep := yStep r; nColsOdd := nColsOdd r;
     nColsEven := nColsEven r; nRows := v; operatorName := operatorName r;
     sampleId := sampleId r; scanId := scanId r; gridType := gridType r;
     phaseList := phaseList r |}.

Definition set_operatorName (v : text) (r : ScanHeader) : ScanHeader :=
  {| pixPerUm := pixPerUm r; xStar := xStar r; yStar := yStar r;
     zStar := zStar r; workingDistance := workingDistance r;
     xStep := xStep r; yStep := yStep r; nColsOdd := nColsOdd r;
     nColsEven := nColsEven r; nRows := nRows r; operatorName := v;
     sampleId := sampleId r; scanId := scanId r; gridType := gridType r;
     phaseList := phaseList r |}.

Definition set_sampleId (v : text) (r : ScanHeader) : ScanHeader :=
  {| pixPerUm := pixPerUm r; xStar := xStar r; yStar := yStar r;
     zStar := zStar r; workingDistance := workingDistance r;
     xStep := xStep r; yStep := yStep r; nColsOdd := nColsOdd r;
     nColsEven := nColsEven r; nRows := nRows r;
     operatorName := operatorName r; sampleId := v; scanId := scanId r;
     gridType := gridType r; phaseList := phaseList r |}.

Definition set_scanId (v : text) (r : ScanHeader) : ScanHeader :=
  {| pixPerUm := pixPerUm r; xStar := xStar r; yStar := yStar r;
     zStar := zStar r; workingDistance := workingDistance r;
     xStep := xStep r; yStep := yStep r; nColsOdd := nColsOdd r;
     nColsEven := nColsEven r; nRows := nRows r;
     operatorName := operatorName r; sampleId := sampleId r; scanId := v;
     gridType := gridType r; phaseList := phaseList r |}.

Definition set_gridType (v : GridType.t) (r : ScanHeader) : ScanHeader :=
  {| pixPerUm := pixPerUm r; xStar := xStar r; yStar := yStar r;
     zStar := zStar r; workingDistance := workingDistance r;
     xStep := xStep r; yStep := yStep r; nColsOdd := nColsOdd r;
     nColsEven := nColsEven r; nRows := nRows r;
     operatorName := operatorName r; sampleId := sampleId r;
     scanId := scanId r; gridType := v; phaseList := phaseList r |}.

Definition set_phaseList (v : list Phase) (r : ScanHeader) : ScanHeader :=
  {| pixPerUm := pixPerUm r; xStar := xStar r; yStar := yStar r;
     zStar := zStar r; workingDistance := workingDistance r;
     xStep := xStep r; yStep := yStep r; nColsOdd := nColsOdd r;
     nColsEven := nColsEven r; nRows := nRows r;
     operatorName := operatorName r; sampleId := sampleId r;
     scanId := scanId r; gridType := gridType r; phaseList := v |}.

Definition set_num (v : Z) (r : Phase) : Phase :=
  {| num := v; name := name r; form := form r; info := info r; sym := sym r;
     lat := lat r; hklFam := hklFam r; el := el r; cats := cats r |}.

Definition set_name (v : text) (r : Phase) : Phase :=
  {| num := num r; name := v; form := form r; info := info r; sym := sym r;
     lat := lat r; hklFam := hklFam r; el := el r; cats := cats r |}.

Definition set_form (v : text) (r : Phase) : Phase :=
  {| num := num r; name := name r; form := v; info := info r; sym := sym r;
     lat := lat r; hklFam := hklFam r; el := el r; cats := cats r |}.

Definition set_info (v : text) (r : Phase) : Phase :=
  {| num := num r; name := name r; form := form r; info := v; sym := sym r;
     lat := lat r; hklFam := hklFam r; el := el r; cats := cats r |}.

Definition set_sym (v : Z) (r : Phase) : Phase :=
  {| num := num r; name := name r; form := form r; info := info r; sym := v;
     lat := lat r; hklFam := hklFam r; el := el r; cats := cats r |}.

Definition set_lat (v : list float) (r : Phase) : Phase :=
  {| num := num r; name := name r; form := form r; info := info r;
     sym := sym r; lat := v; hklFam := hklFam r; el := el r;
     cats := cats r |}.

Definition set_hklFam (v : list HKLFamily) (r : Phase) : Phase :=
  {| num := num r; name := name r; form := form r; info := info r;
     sym := sym r; lat := lat r; hklFam := v; el := el r; cats := cats r |}.

Definition set_el (v : list float) (r : Phase) : Phase :=
  {| num := num r; name := name r; form := form r; info := info r;
     sym := sym r; lat := lat r; hklFam := hklFam r; el := v;
     cats := cats r |}.

Definition set_cats (v : list Z) (r : Phase) : Phase :=
  {| num := num r; name := name r; form := form r; info := info r;
     sym := sym r; lat := lat r; hklFam := hklFam r; el := el r;
     cats := v |}.

(** [p.back().member = ...]: the last phase of the list is replaced;
    [back()] of an empty vector is undefined. *)
Definition update_back (f : Phase -> Phase) (h : ScanHeader)
    : outcome ScanHeader :=
  match last (phaseList h) with
  | Some p => Return (set_phaseList (removelast (phaseList h) ++ [f p]) h)
  | None => Undefined
  end.

(** ** Vectors *)

Definition size {A : Type} (v : list A) : Z := Z.of_nat (length v).

(** [v.resize(n)]: the first [n] elements are kept and new ones are
    value-initialised.  Exhaustion of storage is not modelled. *)
Definition resize {A : Type} (n : Z) (zero : A) (v : list A) : list A :=
  take (Z.to_nat n) v ++ replicate (Z.to_nat n - length v)%nat zero.

(** [v[i] = a]: undefined outside the vector. *)
Definition store {A : Type} (v : list A) (i : Z) (a : A) : outcome (list A) :=
  if (0 <=? i) && (i <? size v) then Return (<[Z.to_nat i := a]> v)
  else Undefined.

(** ** Allocation *)

(** The local [totalPoints] of [allocate], in [size_t] arithmetic. *)
Definition totalPoints (grid : GridType.t) (nColsOdd nColsEven nRows : Z)
    : outcome Z :=
  match grid with
  | GridType.Square => Return (wrap64 (Z.max nColsOdd nColsEven * nRows))
  | GridType.Hexagonal =>
      let total := wrap64 (nRows / 2 * wrap64 (nColsOdd + nColsEven)) in
      Return (if nRows mod 2 =? 1 then wrap64 (total + nColsOdd) else total)
  | GridType.Unknown =>
      Throw "only Square and Hexagonal grid types are supported"
  end.

Definition allocate (tokenCount : Z) (om : OrientationMap)
    : outcome OrientationMap :=
  let h := header om in
  let d := scan om in
  total <- totalPoints (gridType h) (nColsOdd h) (nColsEven h) (nRows h) ;;
  Return
    {| header := h;
       scan :=
         {| eu := resize (wrap64 (3 * total)) float_zero (eu d);
            x := resize total float_zero (x d);
            y := resize total float_zero (y d);
            iq := resize total float_zero (iq d);
            ci := resize total float_zero (ci d);
            sem := if 8 <? tokenCount then resize total float_zero (sem d)
                   else sem d;
            fit := if 9 <? tokenCount then resize total float_zero (fit d)
                   else fit d;
            phase := resize total 0 (phase d) |} |}.

(** ** The header *)

(** [is >> f] for a [float] variable holding [old]; the conversion is that
    of [strtof]. *)
Definition extract_float (old : float) (ins : istream) : float * istream :=
  let '(ok, is1) := sentry ins in
  if ok then
    match scan_float (remaining is1) with
    | Some (lexeme, r) =>
        (float_of_decimal lexeme,
         advance (length (remaining is1) - length r)%nat (is_nil r) false is1)
    | None => (float_zero, setstate_fail is1)
    end
  else (old, is1).

(** [is >> a[0] >> a[1] >> ...] into consecutive elements holding [olds]. *)
Fixpoint extract_floats (olds : list float) (ins : istream)
    : list float * istream :=
  match olds with
  | [] => ([], ins)
  | o :: os =>
      let '(v, is1) := extract_float o ins in
      let '(vs, is2) := extract_floats os is1 in
      (v :: vs, is2)
  end.

(** [std::copy] from [istream_iterator<size_t>]: the values read until an
    extraction fails.  Every value read takes at least one character, so
    [fuel] beyond the length of the content changes nothing. *)
Fixpoint extract_all_size_t (fuel : nat) (ins : istream) : list Z :=
  match fuel with
  | O => []
  | S fuel' =>
      let '(v, is1) := extract_size_t 0 ins in
      if failbit is1 then [] else v :: extract_all_size_t fuel' is1
  end.

(** [while(iss >> token) tokenCount++;] with the same bound. *)
Fixpoint count_tokens (fuel : nat) (iss : istream) (tokenCount : Z) : Z :=
  match fuel with
  | O => tokenCount
  | S fuel' =>
      let '(w, is1) := extract_word iss in
      match w with
      | Some _ => count_tokens fuel' is1 (tokenCount + 1)
      | None => tokenCount
      end
  end.

(** The state of [readAngHeader] between two lines: its flags and the
    header members of the map. *)
Record HeaderState := {
  seen : HeaderSeen;
  current : PhaseSeen;
  parsed : ScanHeader;
}.

Definition with_seen (f : HeaderSeen -> HeaderSeen) (st : HeaderState) :=
  {| seen := f (seen st); current := current st; parsed := parsed st |}.

Definition with_current (f : PhaseSeen -> PhaseSeen) (st : HeaderState) :=
  {| seen := seen st; current := f (current st); parsed := parsed st |}.

Definition with_parsed (f : ScanHeader -> ScanHeader) (st : HeaderState) :=
  {| seen := seen st; current := current st; parsed := f (parsed st) |}.

Definition with_back (f : Phase -> Phase) (st : HeaderState)
    : outcome HeaderState :=
  h <- update_back f (parsed st) ;;
  Return {| seen := seen st; current := current st; parsed := h |}.

Definition is_key (token : text) (key : string) : bool :=
  text_eqb token (txt key).

Definition phases_so_far (st : HeaderState) : string :=
  dec (size (phaseList (parsed st))).

(** The number of families read for the last phase exceeds the number
    announced: the test guarding "ang missing some hkl families". *)
Definition families_exceed (st : HeaderState) : bool :=
  match last (phaseList (parsed st)) with
  | Some p => targetFamilies (current st) <? size (hklFam p)
  | None => false
  end.

(** The checks made at a [Phase] key on the phase read before it. *)
Definition check_previous_phase (st : HeaderState) : outcome unit :=
  let c := current st in
  let n := phases_so_far st in
  _ <- require (readPhaseMaterial c)
         ("ang missing material name for phase " ++ n) ;;
  _ <- require (readPhaseFormula c) ("ang missing formula for phase " ++ n) ;;
  _ <- require (readPhaseInfo c) ("ang missing info for phase " ++ n) ;;
  _ <- require (readPhaseSymmetry c)
         ("ang missing symmetry for phase " ++ n) ;;
  _ <- require (readPhaseLattice c)
         ("ang missing lattice constants for phase " ++ n) ;;
  _ <- require (readPhaseHkl c)
         ("ang missing hkl families for phase " ++ n) ;;
  _ <- require (phaseElasticCount c =? 6)
         ("ang missing elastic constants for phase " ++ n) ;;
  _ <- require (readPhaseCategories c)
         ("ang missing categories for phase " ++ n) ;;
  require (negb (families_exceed st))
    ("ang missing some hkl families for phase " ++ n).

(** The checks made on the last phase when the header ends; the tests of
    the elastic constants and of the categories are commented out in the
    source. *)
Definition check_final_phase (st : HeaderState) : outcome unit :=
  let c := current st in
  let n := phases_so_far st in
  _ <- require (readPhaseMaterial c)
         ("ang missing material name for phase " ++ n) ;;
  _ <- require (readPhaseFormula c) ("ang missing formula for phase " ++ n) ;;
  _ <- require (readPhaseInfo c) ("ang missing info for phase " ++ n) ;;
  _ <- require (readPhaseSymmetry c)
         ("ang missing symmetry for phase " ++ n) ;;
  _ <- require (readPhaseLattice c)
         ("ang missing lattice constants for phase " ++ n) ;;
  _ <- require (readPhaseHkl c)
         ("ang missing hkl families for phase " ++ n) ;;
  require (negb (families_exceed st))
    ("ang missing some hkl families for phase " ++ n).

(** "make sure all header values were read" *)
Definition check_header_values (s : HeaderSeen) : outcome unit :=
  _ <- require (readPixPerUm s) "missing ang header value TEM_PIXperUM" ;;
  _ <- require (readXStar s) "missing ang header value x-star" ;;
  _ <- require (readYStar s) "missing ang header value y-star" ;;
  _ <- require (readZStar s) "missing ang header value z-star" ;;
  _ <- require (readWorkingDistance s)
         "missing ang header value WorkingDistance" ;;
  _ <- require (readGridType s) "missing ang header value GRID" ;;
  _ <- require (readXStep s) "missing ang header value XSTEP" ;;
  _ <- require (readYStep s) "missing ang header value YSTEP" ;;
  _ <- require (readColsOdd s) "missing ang header value NCOLS_ODD" ;;
  _ <- require (readColsEven s) "missing ang header value NCOLS_EVEN" ;;
  _ <- require (readRows s) "missing ang header value NROWS" ;;
  _ <- require (readOperatorName s) "missing ang header value OPERATOR" ;;
  _ <- require (readSampleId s) "missing ang header value SAMPLEID" ;;
  require (readScanId s) "missing ang header value SCANID".

(** [iss >> hkl[0] >> hkl[1] >> hkl[2] >> useIdx >> intensity >> showBands]
    into the family [f]. *)
Definition extract_family (f : HKLFamily) (iss : istream) : HKLFamily :=
  let '(h, k, l) := hkl f in
  let '(h', is1) := extract_int32 h iss in
  let '(k', is2) := extract_int32 k is1 in
  let '(l', is3) := extract_int32 l is2 in
  let '(u, is4) := extract_int32 (useIdx f) is3 in
  let '(i, is5) := extract_int32 (intensity f) is4 in
  let '(b, _) := extract_int32 (showBands f) is5 in
  {| hkl := (h', k', l'); useIdx := u; intensity := i; showBands := b |}.

(** The value of the last element of a vector after [resize(size() + 1)]
    and an update of [back()]. *)
Definition push_family (iss : istream) (p : Phase) : Phase :=
  set_hklFam (hklFam p ++ [extract_family blank_family iss]) p.

(** One row of six elastic constants read into [el] from index [6 * row]. *)
Definition extract_elastic_row (row : Z) (iss : istream) (p : Phase) : Phase :=
  let at_row := Z.to_nat (6 * row) in
  set_el (take at_row (el p)
          ++ fst (extract_floats (take 6 (drop at_row (el p))) iss)
          ++ drop (at_row + 6)%nat (el p)) p.

(** The [Categories] key: the stream is moved back to the character after
    the ten letters of the key, inside the token just read, and every
    number that follows is appended. *)
Definition extract_categories (token : text) (iss : istream) (p : Phase)
    : Phase :=
  let '(pos, is1) := tellg iss in
  let is2 := seekg (wrap64 (wrap64 pos + 10 - size token)) is1 in
  set_cats (cats p ++ extract_all_size_t (S (length (content is2))) is2) p.

(** The body of the header loop for one line, after [getline]: [line] is
    the buffer, whose first character (the [#]) is skipped. *)
Definition parse_header_line (line : text) (st : HeaderState)
    : outcome HeaderState :=
  let h := parsed st in
  match extract_word (open_text (c_str (drop 1 line))) with
  | (None, _) => Return st
  | (Some token, iss) =>
      if is_key token "TEM_PIXperUM" then
        Return (with_seen (set_readPixPerUm true)
                 (with_parsed
                    (set_pixPerUm (fst (extract_float (pixPerUm h) iss))) st))
      else if is_key token "x-star" then
        Return (with_seen (set_readXStar true)
                 (with_parsed
                    (set_xStar (fst (extract_float (xStar h) iss))) st))
      else if is_key token "y-star" then
        Return (with_seen (set_readYStar true)
                 (with_parsed
                    (set_yStar (fst (extract_float (yStar h) iss))) st))
      else if is_key token "z-star" then
        Return (with_seen (set_readZStar true)
                 (with_parsed
                    (set_zStar (fst (extract_float (zStar h) iss))) st))
      else if is_key token "WorkingDistance" then
        Return (with_seen (set_readWorkingDistance true)
                 (with_parsed
                    (set_workingDistance
                       (fst (extract_float (workingDistance h) iss))) st))
      else if is_key token "GRID:" then
        Return (with_seen (set_readGridType true)
                 (with_parsed (set_gridType (fst (extract_GridType iss))) st))
      else if is_key token "XSTEP:" then
        Return (with_seen (set_readXStep true)
                 (with_parsed
                    (set_xStep (fst (extract_float (xStep h) iss))) st))
      else if is_key token "YSTEP:" then
        Return (with_seen (set_readYStep true)
                 (with_parsed
                    (set_yStep (fst (extract_float (yStep h) iss))) st))
      else if is_key token "NCOLS_ODD:" then
        Return (with_seen (set_readColsOdd true)
                 (with_parsed
                    (set_nColsOdd (fst (extract_size_t (nColsOdd h) iss))) st))
      else if is_key token "NCOLS_EVEN:" then
        Return (with_seen (set_readColsEven true)
                 (with_parsed
                    (set_nColsEven (fst (extract_size_t (nColsEven h) iss)))
                    st))
      else if is_key token "NROWS:" then
        Return (with_seen (set_readRows true)
                 (with_parsed
                    (set_nRows (fst (extract_size_t (nRows h) iss))) st))
      else if is_key token "OPERATOR:" then
        Return (with_seen (set_readOperatorName true)
                 (with_parsed
                    (set_operatorName
                       (fst (extract_string (operatorName h) iss))) st))
      else if is_key token "SAMPLEID:" then
        Return (with_seen (set_readSampleId true)
                 (with_parsed
                    (set_sampleId (fst (extract_string (sampleId h) iss))) st))
      else if is_key token "SCANID:" then
        Return (with_seen (set_readScanId true)
                 (with_parsed
                    (set_scanId (fst (extract_string (scanId h) iss))) st))
      else if is_key token "Phase" then
        _ <- check_previous_phase st ;;
        Return
          {| seen := seen st;
             current := phase_started;
             parsed :=
               set_phaseList
                 (phaseList h
                  ++ [set_num (fst (extract_size_t 0 iss)) blank_phase]) h |}
      else if is_key token "MaterialName" then
        st1 <- with_back
                 (fun p => set_name (fst (extract_string (name p) iss)) p) st ;;
        Return (with_current (set_readPhaseMaterial true) st1)
      else if is_key token "Formula" then
        st1 <- with_back
                 (fun p => set_form (fst (extract_string (form p) iss)) p) st ;;
        Return (with_current (set_readPhaseFormula true) st1)
      else if is_key token "Info" then
        st1 <- with_back
                 (fun p => set_info (fst (extract_string (info p) iss)) p) st ;;
        Return (with_current (set_readPhaseInfo true) st1)
      else if is_key token "Symmetry" then
        st1 <- with_back
                 (fun p => set_sym (fst (extract_uint32 (sym p) iss)) p) st ;;
        Return (with_current (set_readPhaseSymmetry true) st1)
      else if is_key token "NumberFamilies" then
        st1 <- with_back (fun p => p) st ;;
        Return (with_current
                  (fun c =>
                     set_readPhaseHkl true
                       (set_targetFamilies
                          (fst (extract_size_t (targetFamilies c) iss)) c))
                  st1)
      else if is_key token "LatticeConstants" then
        st1 <- with_back
                 (fun p => set_lat (fst (extract_floats (lat p) iss)) p) st ;;
        Return (with_current (set_readPhaseLattice true) st1)
      else if is_key token "hklFamilies" then
        with_back (push_family iss) st
      else if is_key token "ElasticConstants" then
        let row := phaseElasticCount (current st) in
        if row <? 6 then
          st1 <- with_back (extract_elastic_row row iss) st ;;
          Return (with_current (set_phaseElasticCount (wrap64 (row + 1))) st1)
        else Undefined
      else if text_eqb (take 10 token) (txt "Categories") then
        st1 <- with_back (extract_categories token iss) st ;;
        Return (with_current (set_readPhaseCategories true) st1)
      else
        Throw ("unknown ang header keyword '" ++ str token ++ "'")
  end.

(** [while('#' == is.peek()) { is.getline(line, sizeof(line)); ... }].
    Every turn extracts at least the [#] it has seen, so the loop ends
    within as many turns as characters remain; [fuel] counts them, and the
    turn that finds none left is never reached ([header_loop_fuel]). *)
Fixpoint header_loop (fuel : nat) (ins : istream) (st : HeaderState)
    : outcome (istream * HeaderState) :=
  let '(c, is1) := peek ins in
  if from_option is_hash false c then
    match fuel with
    | O => Undefined
    | S fuel' =>
        let '(line, is2) := getline 512 is1 in
        st1 <- parse_header_line line st ;;
        header_loop fuel' is2 st1
    end
  else Return (is1, st).

(** The end of [readAngHeader]: the first line of data is read without
    advancing the stream and its tokens are counted. *)
Definition count_columns (ins : istream) : outcome (Z * istream) :=
  let '(start, is1) := tellg ins in
  let '(line, is2) := getline 512 is1 in
  let is3 := seekg start is2 in
  let tokenCount :=
    count_tokens (S (length line)) (open_text (c_str line)) 0 in
  _ <- require (negb (tokenCount <? 8))
         ("unexpected number of ang values per point (got " ++ dec tokenCount
          ++ ", expected at least 8)") ;;
  Return (tokenCount, is3).

(** [readAngHeader(is)]: the number of columns, with the stream and the
    header members as the call leaves them. *)
Definition readAngHeader (ins : istream) (h : ScanHeader)
    : outcome (Z * istream * ScanHeader) :=
  r <- header_loop (length (remaining ins)) ins
         {| seen := nothing_seen; current := no_phase_yet; parsed := h |} ;;
  let '(is1, st) := r in
  _ <- check_final_phase st ;;
  _ <- check_header_values (seen st) ;;
  c <- count_columns is1 ;;
  let '(tokenCount, is2) := c in
  Return (tokenCount, is2, parsed st).

(** ** The traversal of the grid

    The three locals that both decoders carry from one point to the next. *)

Record Traversal := {
  evenRow : bool;
  completeRowPoints : Z;
  currentCol : Z;
}.

Definition row_width (h : ScanHeader) (even : bool) : Z :=
  if even then nColsEven h else nColsOdd h.

Definition traversal_start (h : ScanHeader) : Traversal :=
  {| evenRow := true; completeRowPoints := 0;
     currentCol := wrap64 (nColsEven h - 1) |}.

(** [const size_t i = completeRowPoints + currentCol;] *)
Definition point_index (t : Traversal) : Z :=
  wrap64 (completeRowPoints t + currentCol t).

(** [if(0 == currentCol--) { ... }] *)
Definition next_point (h : ScanHeader) (t : Traversal) : Traversal :=
  if currentCol t =? 0 then
    {| evenRow := negb (evenRow t);
       completeRowPoints :=
         wrap64 (completeRowPoints t + row_width h (evenRow t));
       currentCol := wrap64 (row_width h (negb (evenRow t)) - 1) |}
  else
    {| evenRow := evenRow t;
       completeRowPoints := completeRowPoints t;
       currentCol := currentCol t - 1 |}.

(** ** The point decoders *)

(** The fields of one point, as converted from its text. *)
Record Point := {
  euler : float * float * float;
  px : float;
  py : float;
  quality : float;
  confidence : float;
  phaseId : Z;
  signal : option float;
  fitness : option float;
}.

(** The conversions both decoders make for one point, in order, each from
    where the previous one stopped: the point and the final position. *)
Definition parse_point (readSem readFit : bool) (data : text) : Point * text :=
  let '(e0, d1) := strtof data in
  let '(e1, d2) := strtof d1 in
  let '(e2, d3) := strtof d2 in
  let '(vx, d4) := strtof d3 in
  let '(vy, d5) := strtof d4 in
  let '(vq, d6) := strtof d5 in
  let '(vc, d7) := strtof d6 in
  let '(vp, d8) := strtoul d7 in
  let '(vs, d9) := if readSem then let '(v, d) := strtof d8 in (Some v, d)
                   else (None, d8) in
  let '(vf, d10) := if readSem && readFit
                    then let '(v, d) := strtof d9 in (Some v, d)
                    else (None, d9) in
  ({| euler := (e0, e1, e2); px := vx; py := vy; quality := vq;
      confidence := vc; phaseId := vp; signal := vs; fitness := vf |}, d10).

Definition store_optional (v : list float) (i : Z) (a : option float)
    : outcome (list float) :=
  match a with
  | Some f => store v i f
  | None => Return v
  end.

(** The assignments of one point at index [i]. *)
Definition store_point (i : Z) (p : Point) (d : ScanData) : outcome ScanData :=
  let '(e0, e1, e2) := euler p in
  eu1 <- store (eu d) (wrap64 (3 * i)) e0 ;;
  eu2 <- store eu1 (wrap64 (3 * i + 1)) e1 ;;
  eu3 <- store eu2 (wrap64 (3 * i + 2)) e2 ;;
  x1 <- store (x d) i (px p) ;;
  y1 <- store (y d) i (py p) ;;
  iq1 <- store (iq d) i (quality p) ;;
  ci1 <- store (ci d) i (confidence p) ;;
  phase1 <- store (phase d) i (phaseId p) ;;
  sem1 <- store_optional (sem d) i (signal p) ;;
  fit1 <- store_optional (fit d) i (fitness p) ;;
  Return {| eu := eu3; x := x1; y := y1; iq := iq1; ci := ci1; sem := sem1;
            fit := fit1; phase := phase1 |}.

(** The loop of [readAngData]; [todo] is [totalPoints - pointsRead], which
    the loop condition compares with zero.  The conversions are made over
    the characters that [getline] stored: no conversion goes past a NUL,
    which ends the buffer as a C string. *)
Fixpoint readAngData_loop (h : ScanHeader) (readSem readFit : bool)
    (todo : nat) (ins : istream) (t : Traversal) (pointsRead : Z)
    (d : ScanData) : outcome (Z * ScanData) :=
  match todo with
  | O => Return (pointsRead, d)
  | S todo' =>
      let '(line, is1) := getline 512 ins in
      if failbit is1 then Return (pointsRead, d)
      else
        d1 <- store_point (point_index t)
                (fst (parse_point readSem readFit line)) d ;;
        readAngData_loop h readSem readFit todo' is1 (next_point h t)
          (pointsRead + 1) d1
  end.

(** [readAngData(is, tokens)]: the number of points parsed and the map. *)
Definition readAngData (ins : istream) (tokens : Z) (om : OrientationMap)
    : outcome (Z * OrientationMap) :=
  let total := size (iq (scan om)) in
  r <- readAngData_loop (header om) (8 <? tokens) (9 <? tokens)
         (Z.to_nat total) ins (traversal_start (header om)) 0 (scan om) ;;
  Return (fst r, {| header := header om; scan := snd r |}).

(** [while('\n' != *data) ++data;] inside the mapped region; running off
    its end is undefined. *)
Fixpoint skip_to_newline (data : text) : outcome text :=
  match data with
  | [] => Undefined
  | c :: data' => if is_newline c then Return data else skip_to_newline data'
  end.

(** The loop of [readAngDataMemMap]; [data] is the mapped region from the
    cursor to its end.  A conversion that reaches the end of the region
    stops there, as at a terminator. *)
Fixpoint readAngDataMemMap_loop (h : ScanHeader)
    (readSem readFit extraTok : bool) (fileBytes : Z) (todo : nat)
    (data : text) (t : Traversal) (pointsRead bytesRead : Z) (d : ScanData)
    : outcome (Z * ScanData) :=
  match todo with
  | O => Return (pointsRead, d)
  | S todo' =>
      if bytesRead <? fileBytes then
        let '(p, data1) := parse_point readSem readFit data in
        d1 <- store_point (point_index t) p d ;;
        data2 <- (if readSem && readFit && extraTok
                  then skip_to_newline data1 else Return data1) ;;
        readAngDataMemMap_loop h readSem readFit extraTok fileBytes todo'
          data2 (next_point h t) (pointsRead + 1)
          (wrap64 (bytesRead + (size data - size data2))) d1
      else Return (pointsRead, d)
  end.

Context `{OS : SystemError}.

(** [memorymap::File mapped(fileName, Hint::Sequential)]: the bytes of the
    file; a file that is absent or empty cannot be mapped. *)
Definition memorymap_File (fs : files) (fileName : string) : outcome text :=
  match fs fileName with
  | Some (c :: bytes) => Return (c :: bytes)
  | _ => Throw (fileName ++ " couldn't be memory mapped: " ++ getErrorMessage)
  end.

(** [readAngDataMemMap(fileName, offset, tokens)].  The cursor starts at
    [offset] in the region; when that lies outside the region the first
    conversion is undefined. *)
Definition readAngDataMemMap (fs : files) (fileName : string) (offset : Z)
    (tokens : Z) (om : OrientationMap) : outcome (Z * OrientationMap) :=
  mapped <- memorymap_File fs fileName ;;
  let fileBytes := size mapped in
  let total := size (iq (scan om)) in
  let bytesRead := wrap64 (offset + 1) in
  r <- (if (0 <=? offset) && (offset <=? fileBytes) then
          readAngDataMemMap_loop (header om) (8 <? tokens) (9 <? tokens)
            (10 <? tokens) fileBytes (Z.to_nat total)
            (drop (Z.to_nat offset) mapped) (traversal_start (header om)) 0
            bytesRead (scan om)
        else if (0 <? total) && (bytesRead <? fileBytes) then Undefined
        else Return (0, scan om)) ;;
  Return (fst r, {| header := header om; scan := snd r |}).

(** ** Reading a file *)

Definition UseMemMap : bool := true.

Definition readAng (fs : files) (fileName : string) (om : OrientationMap)
    : outcome (Z * OrientationMap) :=
  match fs fileName with
  | None => Throw ("ang file " ++ fileName ++ " doesn't exist")
  | Some bytes =>
      r <- readAngHeader (open_text bytes) (header om) ;;
      let '(tokenCount, ins, h) := r in
      om1 <- allocate tokenCount {| header := h; scan := scan om |} ;;
      if UseMemMap then
        readAngDataMemMap fs fileName (fst (tellg ins)) tokenCount om1
      else readAngData ins tokenCount om1
  end.

(** The message of the final check of [read]. *)
Definition file_ended (pointsRead total : Z) : string :=
  "file ended after reading " ++ dec pointsRead ++ " of " ++ dec total
  ++ " data points".

(** [OrientationMap::read(fileName)].  In the [switch] the case of [Ang]
    has no [break], and the statement under [default] constructs a
    [std::runtime_error] that is not thrown: control reaches the check of
    the number of points for every file type, with [pointsRead] at zero
    unless [readAng] ran. *)
Definition read (fs : files) (fileName : string) (om : OrientationMap)
    : outcome OrientationMap :=
  r <- match getFileType fileName with
       | FileType.Ang => readAng fs fileName om
       | _ => Return (0, om)
       end ;;
  let '(pointsRead, om1) := r in
  if pointsRead <? size (iq (scan om1))
  then Throw (file_ended pointsRead (size (iq (scan om1))))
  else Return om1.

(** [CanRead(fileName)] *)
Definition CanRead (fileName : string) : bool :=
  match getFileType fileName with
  | FileType.Ang => true
  | _ => false
  end.

End Reader.

(** ** Sample inputs *)

(** A model of [float] in which a value is named by the decimal constant
    it was converted from. *)
Definition lexeme_floats : FloatModel :=
  {| float := text; float_zero := txt "0"; float_of_decimal := fun l => l |}.

Definition nl : ascii := "010"%char.

(** The bytes of a file made of the given lines. *)
Definition unlines (ls : list string) : text :=
  concat (map (fun l => txt l ++ [nl]) ls).

Definition no_detail : SystemError := EmptyString.

(** A file system holding one file. *)
Definition one_file (fileName : string) (bytes : text) : files :=
  fun n => if String.eqb n fileName then Some bytes else None.

(** The lines of a phase with two families, six rows of elastic constants
    and categories. *)
Definition sample_phase : list string :=
  [ "# Phase 1";
    "# MaterialName  	Nickel";
    "# Formula     	Ni";
    "# Info 		";
    "# Symmetry              43";
    "# LatticeConstants      3.520 3.520 3.520  90.000  90.000  90.000";
    "# NumberFamilies        2";
    "# hklFamilies   	 1  1  1 1 0.000000 1";
    "# hklFamilies   	 2  0  0 1 0.000000 1";
    "# ElasticConstants 	1.0 0.0 0.0 0.0 0.0 0.0";
    "# ElasticConstants 	0.0 1.0 0.0 0.0 0.0 0.0";
    "# ElasticConstants 	0.0 0.0 1.0 0.0 0.0 0.0";
    "# ElasticConstants 	0.0 0.0 0.0 1.0 0.0 0.0";
    "# ElasticConstants 	0.0 0.0 0.0 0.0 1.0 0.0";
    "# ElasticConstants 	0.0 0.0 0.0 0.0 0.0 1.0";
    "# Categories0 0 0 0 0 " ]%string.

(** A header around the given phase lines, for a grid of the given type
    and dimensions. *)
Definition sample_header (phases : list string) (grid odd even rows : string)
    : list string :=
  [ "# TEM_PIXperUM          1.000000";
    "# x-star                0.5";
    "# y-star                0.5";
    "# z-star                0.5";
    "# WorkingDistance       15.0";
    "#" ]%string
  ++ phases
  ++ [ "# GRID: " ++ grid;
       "# XSTEP: 0.5";
       "# YSTEP: 0.5";
       "# NCOLS_ODD: " ++ odd;
       "# NCOLS_EVEN: " ++ even;
       "# NROWS: " ++ rows;
       "#";
       "# OPERATOR: 	me";
       "# SAMPLEID: 	sample";
       "# SCANID: 	1";
       "#" ]%string.

Definition sample_points : list string :=
  [ "  1.0 2.0 3.0 0.0 0.0 10.5 0.9 1";
    "  1.1 2.1 3.1 0.5 0.0 11.5 0.8 1";
    "  1.2 2.2 3.2 0.0 0.5 12.5 0.7 1";
    "  1.3 2.3 3.3 0.5 0.5 13.5 0.6 1" ]%string.

(** A square scan of two rows of two points. *)
Definition sample_scan : text :=
  unlines (sample_header sample_phase "SqrGrid" "2" "2" "2" ++ sample_points).

(** A map whose header gives the grid type and dimensions. *)
Definition map_of_grid `{FM : FloatModel} (grid : GridType.t)
    (odd even rows : Z) : OrientationMap :=
  {| header :=
       set_gridType grid
         (set_nColsOdd odd
            (set_nColsEven even (set_nRows rows (header empty_map))));
     scan := scan empty_map |}.

(** A hexagonal scan of one row, with three columns in odd rows and two
    in even rows, and three points of data. *)
Definition hexagonal_scan : text :=
  unlines (sample_header sample_phase "HexGrid" "3" "2" "1"
           ++ take 3 sample_points).

(** The square scan with its last point missing. *)
Definition truncated_scan : text :=
  unlines (sample_header sample_phase "SqrGrid" "2" "2" "2"
           ++ take 3 sample_points).

(** ** The row traversal in closed form

    Rows are numbered from zero; row [r] has the even width when [r] is
    even.  [row_start h r] is the number of points of the rows before
    row [r]. *)

Fixpoint row_start `{FM : FloatModel} (h : ScanHeader) (r : nat) : Z :=
  match r with
  | O => 0
  | S r' => row_start h r' + row_width h (Nat.even r')
  end.

(** The state of the traversal before the point that has [n] points of
    row [r] ahead of it in that row. *)
Definition traversal_at `{FM : FloatModel} (h : ScanHeader) (r : nat) (n : Z)
    : Traversal :=
  {| evenRow := Nat.even r;
     completeRowPoints := wrap64 (row_start h r);
     currentCol := row_width h (Nat.even r) - 1 - n |}.

(** ** Headers as lists of lines *)

(** The bytes of a header made of the given lines, followed by [rest]. *)
Definition header_text (lines : list text) (rest : text) : text :=
  concat (map (fun l => l ++ [nl]) lines) ++ rest.

(** A line of the header: it starts with [#], holds no newline and fits
    the buffer of [getline] with its terminator. *)
Definition is_header_line (l : text) : bool :=
  match l with
  | c :: _ => is_hash c
  | [] => false
  end
  && forallb (fun c => negb (is_newline c)) l
  && (length l <=? 511)%nat.

(** What follows the header does not start with [#]. *)
Definition is_data_start (rest : text) : bool :=
  match rest with
  | c :: _ => negb (is_hash c)
  | [] => true
  end.

(** The mandatory top-level keys. *)
Inductive ScalarKey :=
| TEM_PIXperUM | x_star | y_star | z_star | WorkingDistance | GRID | XSTEP
| YSTEP | NCOLS_ODD | NCOLS_EVEN | NROWS | OPERATOR | SAMPLEID | SCANID.

(** The key as it is written in the file. *)
Definition key_text (k : ScalarKey) : string :=
  match k with
  | TEM_PIXperUM => "TEM_PIXperUM"
  | x_star => "x-star"
  | y_star => "y-star"
  | z_star => "z-star"
  | WorkingDistance => "WorkingDistance"
  | GRID => "GRID:"
  | XSTEP => "XSTEP:"
  | YSTEP => "YSTEP:"
  | NCOLS_ODD => "NCOLS_ODD:"
  | NCOLS_EVEN => "NCOLS_EVEN:"
  | NROWS => "NROWS:"
  | OPERATOR => "OPERATOR:"
  | SAMPLEID => "SAMPLEID:"
  | SCANID => "SCANID:"
  end.

(** The key as the message for its absence names it: without the colon. *)
Definition key_name (k : ScalarKey) : string :=
  match k with
  | TEM_PIXperUM => "TEM_PIXperUM"
  | x_star => "x-star"
  | y_star => "y-star"
  | z_star => "z-star"
  | WorkingDistance => "WorkingDistance"
  | GRID => "GRID"
  | XSTEP => "XSTEP"
  | YSTEP => "YSTEP"
  | NCOLS_ODD => "NCOLS_ODD"
  | NCOLS_EVEN => "NCOLS_EVEN"
  | NROWS => "NROWS"
  | OPERATOR => "OPERATOR"
  | SAMPLEID => "SAMPLEID"
  | SCANID => "SCANID"
  end.

(** The line, as [getline] stores it, has the key [k]. *)
Definition has_key (k : ScalarKey) (line : text) : bool :=
  match extract_word (open_text (c_str (drop 1 line))) with
  | (Some token, _) => is_key token (key_text k)
  | (None, _) => false
  end.

(** The header without the lines of key [k]. *)
Definition omit_key (k : ScalarKey) (lines : list text) : list text :=
  filter (fun l => has_key k l = false) lines.

Section HeaderLines.
Context `{FM : FloatModel}.

(** The body of the header loop over the lines in turn. *)
Fixpoint parse_header_lines (lines : list text) (st : HeaderState)
    : outcome HeaderState :=
  match lines with
  | [] => Return st
  | l :: ls => st1 <- parse_header_line l st ;; parse_header_lines ls st1
  end.

Definition seen_flag (k : ScalarKey) (s : HeaderSeen) : bool :=
  match k with
  | TEM_PIXperUM => readPixPerUm s
  | x_star => readXStar s
  | y_star => readYStar s
  | z_star => readZStar s
  | WorkingDistance => readWorkingDistance s
  | GRID => readGridType s
  | XSTEP => readXStep s
  | YSTEP => readYStep s
  | NCOLS_ODD => readColsOdd s
  | NCOLS_EVEN => readColsEven s
  | NROWS => readRows s
  | OPERATOR => readOperatorName s
  | SAMPLEID => readSampleId s
  | SCANID => readScanId s
  end.

(** The state with the flag of key [k] lowered and its member cleared:
    what a state holds besides the effect of the lines of key [k]. *)
Definition forget (k : ScalarKey) (st : HeaderState) : HeaderState :=
  match k with
  | TEM_PIXperUM =>
      with_seen (set_readPixPerUm false)
        (with_parsed (set_pixPerUm float_zero) st)
  | x_star =>
      with_seen (set_readXStar false) (with_parsed (set_xStar float_zero) st)
  | y_star =>
      with_seen (set_readYStar false) (with_parsed (set_yStar float_zero) st)
  | z_star =>
      with_seen (set_readZStar false) (with_parsed (set_zStar float_zero) st)
  | WorkingDistance =>
      with_seen (set_readWorkingDistance false)
        (with_parsed (set_workingDistance float_zero) st)
  | GRID =>
      with_seen (set_readGridType false)
        (with_parsed (set_gridType GridType.Unknown) st)
  | XSTEP =>
      with_seen (set_readXStep false) (with_parsed (set_xStep float_zero) st)
  | YSTEP =>
      with_seen (set_readYStep false) (with_parsed (set_yStep float_zero) st)
  | NCOLS_ODD =>
      with_seen (set_readColsOdd false) (with_parsed (set_nColsOdd 0) st)
  | NCOLS_EVEN =>
      with_seen (set_readColsEven false) (with_parsed (set_nColsEven 0) st)
  | NROWS => with_seen (set_readRows false) (with_parsed (set_nRows 0) st)
  | OPERATOR =>
      with_seen (set_readOperatorName false)
        (with_parsed (set_operatorName []) st)
  | SAMPLEID =>
      with_seen (set_readSampleId false) (with_parsed (set_sampleId []) st)
  | SCANID =>
      with_seen (set_readScanId false) (with_parsed (set_scanId []) st)
  end.

(** The state at the start of [readAngHeader]. *)
Definition header_start (h : ScanHeader) : HeaderState :=
  {| seen := nothing_seen; current := no_phase_yet; parsed := h |}.

End HeaderLines.

Definition outcome_map {A B : Type} (f : A -> B) (m : outcome A) : outcome B :=
  match m with
  | Return a => Return (f a)
  | Throw what => Throw what
  | Undefined => Undefined
  end.

(** ** The checks of a phase, by their first failure *)

Section PhaseChecks.
Context `{FM : FloatModel}.

(** The first of the six things that the end of the header requires of the
    last phase and that has not been read, as the message names it. *)
Definition first_missing_at_end (c : PhaseSeen) : option string :=
  if negb (readPhaseMaterial c) then Some "material name"%string
  else if negb (readPhaseFormula c) then Some "formula"%string
  else if negb (readPhaseInfo c) then Some "info"%string
  else if negb (readPhaseSymmetry c) then Some "symmetry"%string
  else if negb (readPhaseLattice c) then Some "lattice constants"%string
  else if negb (readPhaseHkl c) then Some "hkl families"%string
  else None.

(** The state with six rows of elastic constants counted and the
    categories flagged as read. *)
Definition elastic_and_categories_granted (st : HeaderState) : HeaderState :=
  with_current
    (fun c => set_phaseElasticCount 6 (set_readPhaseCategories true c)) st.

End PhaseChecks.

(** Variants of the sample phase: without its symmetry; without elastic
    constants and categories; with one family less than the two it
    announces; with one family more. *)
Definition phase_without_symmetry : list string :=
  take 4 sample_phase ++ drop 5 sample_phase.

Definition phase_without_elastic : list string := take 9 sample_phase.

Definition phase_short_of_families : list string :=
  take 8 sample_phase ++ drop 9 sample_phase.

Definition phase_with_surplus : list string :=
  take 9 sample_phase
  ++ [ "# hklFamilies   	 2  2  0 1 0.000000 1" ]%string
  ++ drop 9 sample_phase.

(** A second phase, to follow another one. *)
Definition second_phase : list string :=
  [ "# Phase 2" ]%string ++ drop 1 sample_phase.

Definition scan_of_phases (phases : list string) : text :=
  unlines (sample_header phases "SqrGrid" "2" "2" "2" ++ sample_points).

(** ** Data sections as lists of lines *)

Definition all_space (w : text) : bool := forallb isspace w.

(** White space inside a line. *)
Definition is_blank (c : ascii) : bool := isspace c && negb (is_newline c).

Definition all_blank (b : text) : bool := forallb is_blank b.

Definition no_newline (s : text) : bool :=
  forallb (fun c => negb (is_newline c)) s.

(** What a conversion of a number stops at: the end of the text, or white
    space. *)
Definition stops (r : text) : bool :=
  match r with
  | [] => true
  | c :: _ => isspace c
  end.

(** A field that [strtof] converts as a whole, and one that [strtoul]
    does. *)
Definition float_token (t : text) : bool :=
  match scan_float t with
  | Some (lexeme, []) => text_eqb lexeme t
  | _ => false
  end.

Definition integer_token (t : text) : bool :=
  match scan_integer t with
  | Some (_, _, []) => true
  | _ => false
  end.

Inductive FieldKind := FloatField | IntegerField.

Definition token_ok (k : FieldKind) (t : text) : bool :=
  match k with
  | FloatField => float_token t
  | IntegerField => integer_token t
  end.

(** The fields that the decoders convert for one point: seven numbers, the
    phase, and the two optional numbers. *)
Definition field_kinds (readSem readFit : bool) : list FieldKind :=
  replicate 7 FloatField ++ [IntegerField]
  ++ (if readSem then [FloatField] else [])
  ++ (if readSem && readFit then [FloatField] else []).

(** A line of the data section: its fields, each with the blanks before
    it, and what follows the last field. *)
Record PointLine := {
  fields : list (text * text);
  trailer : text;
}.

Definition render_fields (fs : list (text * text)) (r : text) : text :=
  foldr (fun f acc => fst f ++ snd f ++ acc) r fs.

Definition render_line (pl : PointLine) : text :=
  render_fields (fields pl) (trailer pl).

(** The bytes of the lines, each ended by a newline, and of what follows
    them. *)
Definition render_lines (ls : list PointLine) (junk : text) : text :=
  foldr (fun pl acc => render_line pl ++ nl :: acc) junk ls.

Fixpoint fields_ok (kinds : list FieldKind) (fs : list (text * text)) : bool :=
  match kinds, fs with
  | [], [] => true
  | k :: ks, f :: fs' => all_blank (fst f) && token_ok k (snd f) && fields_ok ks fs'
  | _, _ => false
  end.

(** Every field but the first has a blank before it. *)
Definition separated (fs : list (text * text)) : bool :=
  forallb (fun f => negb (is_nil (fst f))) (tail fs).

(** A line that holds exactly the fields converted for the given token
    count and fits the buffer of the stream decoder.  After the last field
    come blanks only, unless the memory-mapped decoder skips to the end of
    the line (more than ten tokens): then anything that starts with a
    blank. *)
Definition point_line_ok (readSem readFit extraTok : bool) (pl : PointLine)
    : bool :=
  fields_ok (field_kinds readSem readFit) (fields pl)
  && separated (fields pl)
  && (if readSem && readFit && extraTok then stops (trailer pl)
      else all_blank (trailer pl))
  && no_newline (render_line pl)
  && (length (render_line pl) <=? 511)%nat.

(** A good stream over [bytes] at position [pos]. *)
Definition stream_at (bytes : text) (pos : nat) : istream :=
  {| content := bytes; gpos := pos; eofbit := false; failbit := false |}.

(** A line with single spaces between its fields. *)
Definition spaced_line (fs : list string) (trailer : string) : PointLine :=
  {| fields := map (fun f => (txt " ", txt f)) fs; trailer := txt trailer |}.

Definition sample_point_lines : list PointLine :=
  [ spaced_line [ "1.0"; "2.0"; "3.0"; "0.0"; "0.0"; "10.5"; "0.9"; "1" ]
      EmptyString;
    spaced_line [ "1.1"; "2.1"; "3.1"; "0.5"; "0.0"; "11.5"; "0.8"; "1" ] " ";
    spaced_line [ "-1.2"; "2.2e0"; ".32E1"; "0."; "0.5"; "+12.5"; "0.7"; "2" ]
      EmptyString;
    spaced_line [ "1.3"; "2.3"; "3.3"; "0.5"; "0.5"; "13.5"; "0.6"; "1" ]
      EmptyString ]%string.

(** A data section whose second and third lines, taken together, hold the
    eight fields of one point. *)
Definition split_points : list string :=
  [ "  1.0 2.0 3.0 0.0 0.0 10.5 0.9 1";
    "  1.1 2.1 3.1 0.5";
    "  0.0 11.5 0.8 1" ]%string.

Definition split_scan : text :=
  unlines (sample_header sample_phase "SqrGrid" "3" "3" "1" ++ split_points).

(** ** The point of a line *)

Section PointValues.
Context `{FM : FloatModel}.

(** The conversions of [parse_point] as a list: one per kind of field, each
    from where the previous one stopped. *)
Fixpoint convert_fields (kinds : list FieldKind) (data : text)
    : list (float + Z) * text :=
  match kinds with
  | [] => ([], data)
  | FloatField :: ks =>
      let '(v, d) := strtof data in
      let '(vs, d') := convert_fields ks d in
      (inl v :: vs, d')
  | IntegerField :: ks =>
      let '(v, d) := strtoul data in
      let '(vs, d') := convert_fields ks d in
      (inr v :: vs, d')
  end.

Definition float_at (vs : list (float + Z)) (i : nat) : float :=
  match vs !! i with
  | Some (inl v) => v
  | _ => float_zero
  end.

Definition integer_at (vs : list (float + Z)) (i : nat) : Z :=
  match vs !! i with
  | Some (inr v) => v
  | _ => 0
  end.

Definition point_of_values (readSem readFit : bool) (vs : list (float + Z))
    : Point :=
  {| euler := (float_at vs 0, float_at vs 1, float_at vs 2);
     px := float_at vs 3;
     py := float_at vs 4;
     quality := float_at vs 5;
     confidence := float_at vs 6;
     phaseId := integer_at vs 7;
     signal := if readSem then Some (float_at vs 8) else None;
     fitness := if readSem && readFit then Some (float_at vs 9) else None |}.

(** The values of the fields of a line. *)
Fixpoint values_of (kinds : list FieldKind) (fs : list (text * text))
    : list (float + Z) :=
  match kinds, fs with
  | FloatField :: ks, f :: fs' =>
      inl (float_of_decimal (snd f)) :: values_of ks fs'
  | IntegerField :: ks, f :: fs' =>
      inr (fst (strtoul (snd f))) :: values_of ks fs'
  | _, _ => []
  end.

Definition point_of_line (readSem readFit : bool) (pl : PointLine) : Point :=
  point_of_values readSem readFit
    (values_of (field_kinds readSem readFit) (fields pl)).

End PointValues.

(** The map that [allocate] makes of [om], or [om] itself when it throws. *)
Definition allocated `{FM : FloatModel} (tokenCount : Z) (om : OrientationMap)
    : OrientationMap :=
  match allocate tokenCount om with
  | Return om' => om'
  | _ => om
  end.

(** * Further inputs and notions *)

(** ** Words of a line *)

(** The number of maximal runs of characters that are not white space;
    [inside] tells that the text continues such a run. *)
Fixpoint count_words_from (inside : bool) (s : text) : Z :=
  match s with
  | [] => 0
  | c :: s' =>
      if isspace c then count_words_from false s'
      else (if inside then 0 else 1) + count_words_from true s'
  end.

Definition count_words (s : text) : Z := count_words_from false s.

(** The message of [readAngHeader] for a first line of data with [n]
    columns. *)
Definition too_few_columns (n : Z) : string :=
  "unexpected number of ang values per point (got " ++ dec n
  ++ ", expected at least 8)".

(** ** Keywords of the header *)

(** The first word of a header line after its [#]. *)
Definition first_word (line : text) : option text :=
  fst (extract_word (open_text (c_str (drop 1 line)))).

(** The line has the keyword [key]. *)
Definition has_word (key : string) (line : text) : bool :=
  match first_word line with
  | Some token => is_key token key
  | None => false
  end.

(** The keywords that the header loop compares whole tokens with. *)
Definition header_keys : list string :=
  [ "TEM_PIXperUM"; "x-star"; "y-star"; "z-star"; "WorkingDistance"; "GRID:";
    "XSTEP:"; "YSTEP:"; "NCOLS_ODD:"; "NCOLS_EVEN:"; "NROWS:"; "OPERATOR:";
    "SAMPLEID:"; "SCANID:"; "Phase"; "MaterialName"; "Formula"; "Info";
    "Symmetry"; "NumberFamilies"; "LatticeConstants"; "hklFamilies";
    "ElasticConstants" ]%string.

(** The token is one of the keywords, or starts with [Categories]. *)
Definition known_key (token : text) : bool :=
  existsb (is_key token) header_keys
  || text_eqb (take 10 token) (txt "Categories").

(** The lines of the sample header for a square grid of two rows of two
    points. *)
Definition sample_lines : list text :=
  map txt (sample_header sample_phase "SqrGrid" "2" "2" "2").

(** A first line of data with seven columns. *)
Definition seven_columns : text := txt "  1.0 2.0 3.0 0.0 0.0 10.5 0.9".

(** The call returns: it neither throws nor is undefined. *)
Definition returns {A : Type} (m : outcome A) : bool :=
  match m with
  | Return _ => true
  | _ => false
  end.

(** A header line of 600 bytes. *)
Definition long_line : text := txt "# " ++ replicate 598 "x"%char.

(** The number that a [Phase] line gives its phase: what [iss >> num]
    stores into the new, blank phase. *)
Definition phase_number (line : text) : option Z :=
  match extract_word (open_text (c_str (drop 1 line))) with
  | (Some token, iss) =>
      if is_key token "Phase" then Some (fst (extract_size_t 0 iss)) else None
  | (None, _) => None
  end.

(** The keywords that update the last phase of the list. *)
Definition phase_keys : list string :=
  [ "MaterialName"; "Formula"; "Info"; "Symmetry"; "NumberFamilies";
    "LatticeConstants"; "hklFamilies"; "ElasticConstants" ]%string.

Definition phase_key (token : text) : bool :=
  existsb (is_key token) phase_keys
  || text_eqb (take 10 token) (txt "Categories").

(** A header line with nothing but white space after its [#]. *)
Definition blank_line (line : text) : bool := all_space (c_str (drop 1 line)).

(** The number of lines with the keyword [key]. *)
Definition count_key (key : string) (lines : list text) : nat :=
  length (filter (fun l => has_word key l = true) lines).

(** The sample header with two phases. *)
Definition two_phase_lines : list text :=
  map txt (sample_header (sample_phase ++ second_phase) "SqrGrid" "2" "2" "2").

(** The lines of the sample phase after its [Phase] line, up to its six
    rows of elastic constants, and a seventh row. *)
Definition seven_rows : list text :=
  map txt (take 14 (drop 1 sample_phase)
           ++ [ "# ElasticConstants 	0.0 0.0 0.0 0.0 0.0 0.0" ]%string).

(** The sample header with a grid type that is neither of the two. *)
Definition unknown_grid_scan : text :=
  unlines (sample_header sample_phase "TriGrid" "2" "2" "2" ++ sample_points).

(** A map as an earlier reading of a file of ten columns leaves it: with
    one point, its signal and its fit. *)
Definition map_with_signal : @OrientationMap lexeme_floats :=
  {| header := header empty_map;
     scan :=
       @Build_ScanData lexeme_floats [txt "0"; txt "0"; txt "0"] [txt "0"]
         [txt "0"] [txt "0"] [txt "0"] [txt "7"] [txt "8"] [0] |}.

(** A first line of data of 600 bytes. *)
Definition long_data_line : text :=
  txt "  1.0 2.0 3.0 0.0 0.0 10.5 0.9 1 " ++ replicate 567 "0"%char.

(** ** Grids whose rows fit the arrays *)

(** The index at which the decoders store point [k] of the data, counting
    from zero. *)
Definition point_slot `{FM : FloatModel} (h : ScanHeader) (k : nat) : Z :=
  point_index (Nat.iter k (next_point h) (traversal_start h)).

(** The rows as the decoders traverse them, the first with the even width,
    hold as many points as [allocate] counts: a square grid with equal
    column counts, or a hexagonal grid with an even number of rows or
    equal column counts. *)
Definition rows_fit `{FM : FloatModel} (h : ScanHeader) : bool :=
  match gridType h with
  | GridType.Square => nColsOdd h =? nColsEven h
  | GridType.Hexagonal => (nRows h mod 2 =? 0) || (nColsOdd h =? nColsEven h)
  | GridType.Unknown => false
  end.

(** The points of a grid with rows that fit: those of its [nRows] rows. *)
Definition grid_points `{FM : FloatModel} (h : ScanHeader) : Z :=
  row_start h (Z.to_nat (nRows h)).

(** The arrays have the sizes that [allocate] gives them for [total]
    points and the columns that are read. *)
Definition arrays_hold `{FM : FloatModel} (readSem readFit : bool) (total : Z)
    (d : ScanData) : Prop :=
  size (eu d) = 3 * total /\
  size (x d) = total /\
  size (y d) = total /\
  size (iq d) = total /\
  size (ci d) = total /\
  size (phase d) = total /\
  (readSem = true -> size (sem d) = total) /\
  (readSem && readFit = true -> size (fit d) = total).

(** The arrays hold the fields of the point [p] at index [i]. *)
Definition holds `{FM : FloatModel} (d : ScanData) (i : Z) (p : Point) : Prop :=
  eu d !! Z.to_nat (3 * i) = Some (fst (fst (euler p))) /\
  eu d !! Z.to_nat (3 * i + 1) = Some (snd (fst (euler p))) /\
  eu d !! Z.to_nat (3 * i + 2) = Some (snd (euler p)) /\
  x d !! Z.to_nat i = Some (px p) /\
  y d !! Z.to_nat i = Some (py p) /\
  iq d !! Z.to_nat i = Some (quality p) /\
  ci d !! Z.to_nat i = Some (confidence p) /\
  phase d !! Z.to_nat i = Some (phaseId p) /\
  (forall v, signal p = Some v -> sem d !! Z.to_nat i = Some v) /\
  (forall v, fitness p = Some v -> fit d !! Z.to_nat i = Some v).

(** The sample scan with its data given by lines of fields. *)
Definition sample_file : text :=
  header_text sample_lines (render_lines sample_point_lines []).

(** The sizes of the eight arrays. *)
Definition array_sizes `{FM : FloatModel} (d : ScanData) : list Z :=
  [ size (eu d); size (x d); size (y d); size (iq d); size (ci d);
    size (sem d); size (fit d); size (phase d) ].

(** The point that the conversions give when none of them finds a number. *)
Definition zero_point `{FM : FloatModel} (readSem readFit : bool) : Point :=
  {| euler := (float_zero, float_zero, float_zero);
     px := float_zero;
     py := float_zero;
     quality := float_zero;
     confidence := float_zero;
     phaseId := 0;
     signal := if readSem then Some float_zero else None;
     fitness := if readSem && readFit then Some float_zero else None |}.

(** A character that starts no number, no white space and none of the
    words [inf] and [nan]. *)
Definition starts_no_number (c : ascii) : bool :=
  negb (isspace c || isdigit c || is_sign c || is_dot c
        || Ascii.eqb (tolower c) "i" || Ascii.eqb (tolower c) "n").

(** A map sized for a square grid of two rows of two points and eight
    columns. *)
Definition sample_map : @OrientationMap lexeme_floats :=
  allocated 8 (map_of_grid GridType.Square 2 2 2).

(** The sample header followed by lines of words. *)
Definition words_file : text :=
  header_text sample_lines
    (unlines [ "a b c d e f g h"; "more words" ]%string).

(** A map sized for a hexagonal grid of one row, with two columns in odd
    rows and none in even rows. *)
Definition zero_width_map : @OrientationMap lexeme_floats :=
  allocated 8 (map_of_grid GridType.Hexagonal 2 0 1).

(** * Properties *)

(** ** Arithmetic of [size_t] *)

Lemma wrap64_small z : 0 <= z < 2 ^ 64 -> wrap64 z = z.
Proof. intros Hz. unfold wrap64. now apply Z.mod_small. Qed.

Lemma wrap64_range z : 0 <= wrap64 z < 2 ^ 64.
Proof. unfold wrap64. apply Z.mod_pos_bound. lia. Qed.

Lemma size_nonneg {A : Type} (v : list A) : 0 <= size v.
Proof. unfold size. lia. Qed.

Lemma size_resize {A : Type} (n : Z) (zero : A) (v : list A) :
  0 <= n -> size (resize n zero v) = n.
Proof.
  intros Hn. unfold size, resize.
  rewrite length_app, length_take, length_replicate. lia.
Qed.

Lemma size_store {A : Type} (v v' : list A) (i : Z) (a : A) :
  store v i a = Return v' -> size v' = size v.
Proof.
  unfold store. destruct (_ && _); [|discriminate].
  intros [= <-]. unfold size. now rewrite length_insert.
Qed.

(** ** Allocation *)

Section Allocation.
Context `{FM : FloatModel}.

(** The sizes [allocate] gives the arrays that every file has, in terms of
    the [totalPoints] it computed. *)
Lemma allocate_sizes tokenCount om total :
  totalPoints (gridType (header om)) (nColsOdd (header om))
    (nColsEven (header om)) (nRows (header om)) = Return total ->
  0 <= total ->
  exists om',
    allocate tokenCount om = Return om' /\
    header om' = header om /\
    size (eu (scan om')) = wrap64 (3 * total) /\
    size (x (scan om')) = total /\
    size (y (scan om')) = total /\
    size (iq (scan om')) = total /\
    size (ci (scan om')) = total /\
    size (phase (scan om')) = total.
Proof.
  intros Htot Hpos. unfold allocate. rewrite Htot. cbn [bind].
  eexists. split; [reflexivity|]. cbn.
  pose proof (wrap64_range (3 * total)).
  rewrite !size_resize by lia. repeat split; reflexivity.
Qed.

Lemma totalPoints_nonneg grid odd even rows total :
  totalPoints grid odd even rows = Return total -> 0 <= total.
Proof.
  destruct grid; cbn; [discriminate| |].
  - intros [= <-]. apply wrap64_range.
  - intros [= <-]. destruct (_ =? 1); apply wrap64_range.
Qed.

(** C7 (as amended).  For odd and even column counts and a row count
    whose product [max odd even * rows], taken three times, stays in the
    range of [size_t], allocation for the square grid computes
    [totalPoints = max odd even * rows]; and whenever [allocate] returns,
    which supposes that no [resize] has failed for want of storage, the
    arrays that every file has hold that many elements and the orientation
    array three times as many. *)
Theorem allocate_square_sizes tokenCount om :
  gridType (header om) = GridType.Square ->
  0 <= nColsOdd (header om) ->
  0 <= nColsEven (header om) ->
  0 <= nRows (header om) ->
  3 * (Z.max (nColsOdd (header om)) (nColsEven (header om))
       * nRows (header om)) < 2 ^ 64 ->
  let total :=
    Z.max (nColsOdd (header om)) (nColsEven (header om)) * nRows (header om)
  in
  totalPoints GridType.Square (nColsOdd (header om)) (nColsEven (header om))
    (nRows (header om)) = Return total /\
  forall om',
    allocate tokenCount om = Return om' ->
    size (eu (scan om')) = 3 * total /\
    size (x (scan om')) = total /\
    size (y (scan om')) = total /\
    size (iq (scan om')) = total /\
    size (ci (scan om')) = total /\
    size (phase (scan om')) = total.
Proof.
  intros Hgrid Hodd Heven Hrows Hfit total.
  assert (Htotal : 0 <= total) by (unfold total; nia).
  assert (Hcomputed :
            totalPoints GridType.Square (nColsOdd (header om))
              (nColsEven (header om)) (nRows (header om)) = Return total).
  { cbn. f_equal. apply wrap64_small. fold total. lia. }
  split; [exact Hcomputed|].
  rewrite <- Hgrid in Hcomputed.
  destruct (allocate_sizes tokenCount om total Hcomputed Htotal)
    as (om1 & Halloc & _ & Heu & Hrest).
  intros om' Hreturn. rewrite Halloc in Hreturn. injection Hreturn as <-.
  split; [|exact Hrest].
  rewrite Heu. apply wrap64_small. fold total in Hfit. lia.
Qed.

(** C8 (as amended).  For odd and even column counts and a row count for
    which [rows / 2 * (odd + even)], plus [odd] when [rows] is odd, stays
    in the range of [size_t], allocation for the hexagonal grid computes
    exactly that number as [totalPoints], the size of the arrays that every
    file has. *)
Theorem allocate_hexagonal_total tokenCount om :
  gridType (header om) = GridType.Hexagonal ->
  0 <= nColsOdd (header om) ->
  0 <= nColsEven (header om) ->
  0 <= nRows (header om) ->
  let total :=
    nRows (header om) / 2 * (nColsOdd (header om) + nColsEven (header om))
    + (if nRows (header om) mod 2 =? 1 then nColsOdd (header om) else 0)
  in
  total < 2 ^ 64 ->
  totalPoints GridType.Hexagonal (nColsOdd (header om))
    (nColsEven (header om)) (nRows (header om)) = Return total /\
  exists om',
    allocate tokenCount om = Return om' /\ size (iq (scan om')) = total.
Proof.
  intros Hgrid Hodd Heven Hrows total Hfit.
  set (odd := nColsOdd (header om)) in *.
  set (even := nColsEven (header om)) in *.
  set (rows := nRows (header om)) in *.
  assert (Hhalf : 0 <= rows / 2) by (apply Z.div_pos; lia).
  assert (Hprod : 0 <= rows / 2 * (odd + even)) by nia.
  assert (Hcomputed :
            totalPoints GridType.Hexagonal odd even rows = Return total).
  { cbn. f_equal. unfold total in *.
    destruct (Z.eq_dec (rows / 2) 0) as [Hzero|Hnz].
    - rewrite Hzero in *. rewrite !Z.mul_0_l.
      destruct (rows mod 2 =? 1); cbn; [|reflexivity].
      change (wrap64 0) with 0. apply wrap64_small. lia.
    - assert (Hsum : odd + even < 2 ^ 64).
      { destruct (rows mod 2 =? 1); nia. }
      rewrite (wrap64_small (odd + even)) by lia.
      destruct (rows mod 2 =? 1).
      + rewrite (wrap64_small (rows / 2 * (odd + even))) by lia.
        apply wrap64_small. lia.
      + rewrite Z.add_0_r. apply wrap64_small. lia. }
  split; [exact Hcomputed|].
  assert (Htotal : 0 <= total).
  { unfold total. destruct (rows mod 2 =? 1); lia. }
  unfold odd, even, rows in Hcomputed. rewrite <- Hgrid in Hcomputed.
  destruct (allocate_sizes tokenCount om total Hcomputed Htotal)
    as (om' & Halloc & _ & _ & _ & _ & Hiq & _).
  exists om'. split; [exact Halloc|exact Hiq].
Qed.

End Allocation.

(** The two allocation theorems at a scan of two rows of two points. *)
Lemma allocate_square_sizes_witness :
  let om := map_of_grid (FM := lexeme_floats) GridType.Square 2 2 2 in
  totalPoints GridType.Square 2 2 2 = Return 4 /\
  exists om',
    allocate 8 om = Return om' /\
    size (eu (scan om')) = 12 /\
    size (x (scan om')) = 4 /\
    size (y (scan om')) = 4 /\
    size (iq (scan om')) = 4 /\
    size (ci (scan om')) = 4 /\
    size (phase (scan om')) = 4.
Proof.
  intros om.
  destruct (allocate_square_sizes (FM := lexeme_floats) 8 om)
    as [Hnumber Hsizes];
    [reflexivity|subst om; vm_compute; congruence..|].
  split; [exact Hnumber|].
  eexists. split; [reflexivity|]. apply Hsizes. reflexivity.
Defined.

Lemma allocate_hexagonal_total_witness :
  let om := map_of_grid (FM := lexeme_floats) GridType.Hexagonal 3 2 3 in
  totalPoints GridType.Hexagonal 3 2 3 = Return 8 /\
  exists om', allocate 8 om = Return om' /\ size (iq (scan om')) = 8.
Proof.
  intros om.
  apply (allocate_hexagonal_total (FM := lexeme_floats) 8 om);
    [reflexivity|subst om; vm_compute; congruence..].
Defined.

(** C7 as stated fails where the product leaves the range of [size_t]:
    with [2^32] columns and [2^32] rows the square grid gets no point at
    all, and [allocate] returns empty arrays. *)
Lemma allocate_square_overflow :
  let n := 2 ^ 32 in
  totalPoints GridType.Square n n n = Return 0 /\
  exists om',
    allocate (FM := lexeme_floats) 8 (map_of_grid GridType.Square n n n)
    = Return om' /\
    size (iq (scan om')) = 0 /\
    size (iq (scan om')) <> Z.max n n * n.
Proof.
  cbv zeta. split; [reflexivity|].
  eexists. split; [reflexivity|]. split; [reflexivity|]. discriminate.
Qed.

(** C8 as stated fails in the same way: two rows of [2^63] and [2^63]
    columns give a hexagonal grid of no point. *)
Lemma allocate_hexagonal_overflow :
  let n := 2 ^ 63 in
  totalPoints GridType.Hexagonal n n 2 = Return 0 /\
  exists om',
    allocate (FM := lexeme_floats) 8 (map_of_grid GridType.Hexagonal n n 2)
    = Return om' /\
    size (iq (scan om')) = 0 /\
    size (iq (scan om')) <> 2 / 2 * (n + n) + 0.
Proof.
  cbv zeta. split; [reflexivity|].
  eexists. split; [reflexivity|]. split; [reflexivity|]. discriminate.
Qed.

(** ** Outcomes *)

Lemma bind_Return {A B : Type} (m : outcome A) (k : A -> outcome B) (b : B) :
  bind m k = Return b -> exists a, m = Return a /\ k a = Return b.
Proof. destruct m; cbn; [eauto|discriminate..]. Qed.

Lemma require_Return ok what u : require ok what = Return u -> ok = true.
Proof. destruct ok; [reflexivity|discriminate]. Qed.

Ltac bind_inv H :=
  let a := fresh "a" in
  let Ha := fresh "H" a in
  apply bind_Return in H; destruct H as (a & Ha & H).

(** ** Reading a file *)

Section Reading.
Context `{FM : FloatModel} `{OS : SystemError}.

(** A file whose type is not [Ang] is not read, and [read] goes on to the
    check of the number of points with no point read. *)
Lemma read_not_ang fs fileName om :
  getFileType fileName <> FileType.Ang ->
  read fs fileName om =
    if 0 <? size (iq (scan om))
    then Throw (file_ended 0 (size (iq (scan om))))
    else Return om.
Proof.
  intros Htype. unfold read.
  destruct (getFileType fileName); [reflexivity|congruence|reflexivity..].
Qed.

(** C1 (the code at inputs on which the claim fails).  On a map that is
    empty, as the constructors leave it, [read] returns normally for the
    extensions of the formats that are not implemented and for unknown
    ones: no exception is thrown. *)
Theorem read_unsupported_returns fs :
  read fs "scan.osc" empty_map = Return empty_map /\
  read fs "scan.hdf" empty_map = Return empty_map /\
  read fs "scan.hdf5" empty_map = Return empty_map /\
  read fs "scan.h5" empty_map = Return empty_map /\
  read fs "scan.txt" empty_map = Return empty_map /\
  read fs "scan" empty_map = Return empty_map.
Proof. repeat split; now rewrite read_not_ang. Qed.

(** [store_point] and the loop of the memory-mapped decoder leave the
    number of elements of [iq] as it is. *)
Lemma store_point_size_iq i p d d' :
  store_point i p d = Return d' -> size (iq d') = size (iq d).
Proof.
  unfold store_point. destruct (euler p) as [[e0 e1] e2]. intros H.
  repeat bind_inv H. injection H as <-. cbn.
  eauto using size_store.
Qed.

Lemma readAngDataMemMap_loop_size_iq h readSem readFit extraTok fileBytes
    todo data t pointsRead bytesRead d n d' :
  readAngDataMemMap_loop h readSem readFit extraTok fileBytes todo data t
    pointsRead bytesRead d = Return (n, d') ->
  size (iq d') = size (iq d).
Proof.
  revert data t pointsRead bytesRead d.
  induction todo as [|todo IH]; intros data t pointsRead bytesRead d; cbn.
  - now intros [= _ <-].
  - destruct (bytesRead <? fileBytes); [|now intros [= _ <-]].
    destruct (parse_point readSem readFit data) as [p data1]. intros H.
    bind_inv H. bind_inv H. apply IH in H. rewrite H.
    eauto using store_point_size_iq.
Qed.

Lemma readAngDataMemMap_size_iq fs fileName offset tokens om n om' :
  readAngDataMemMap fs fileName offset tokens om = Return (n, om') ->
  size (iq (scan om')) = size (iq (scan om)).
Proof.
  unfold readAngDataMemMap. intros H. bind_inv H. bind_inv H.
  injection H as <- <-. cbn. destruct a0 as [n d']. cbn.
  destruct (_ && _).
  - eauto using readAngDataMemMap_loop_size_iq.
  - destruct (_ && _); [discriminate|]. now injection Ha0 as _ <-.
Qed.


End Reading.


(** ** The row traversal *)

Section RowTraversal.
Context `{FM : FloatModel} (h : ScanHeader).
Hypothesis even_width : 1 <= nColsEven h < 2 ^ 64.
Hypothesis odd_width : 1 <= nColsOdd h < 2 ^ 64.

Lemma row_width_range even : 1 <= row_width h even < 2 ^ 64.
Proof using even_width odd_width. destruct even; assumption. Qed.

Lemma traversal_start_at : traversal_start h = traversal_at h 0 0.
Proof using even_width.
  unfold traversal_start, traversal_at. cbn.
  rewrite wrap64_small by lia. f_equal. lia.
Qed.

(** Inside a row the column counter goes down by one. *)
Lemma next_point_in_row r n :
  0 <= n -> n + 1 < row_width h (Nat.even r) ->
  next_point h (traversal_at h r n) = traversal_at h r (n + 1).
Proof.
  intros Hn Hlt. unfold next_point, traversal_at. cbn.
  destruct (Z.eqb_spec (row_width h (Nat.even r) - 1 - n) 0); [lia|].
  f_equal. lia.
Qed.

(** After the last point of a row the accumulator takes the width of the
    row and the counter restarts for the next row. *)
Lemma next_point_row_end r :
  next_point h (traversal_at h r (row_width h (Nat.even r) - 1))
  = traversal_at h (S r) 0.
Proof using even_width odd_width.
  unfold next_point, traversal_at. cbn [currentCol evenRow completeRowPoints].
  replace (row_width h (Nat.even r) - 1 - (row_width h (Nat.even r) - 1))
    with 0 by lia.
  cbn [Z.eqb]. rewrite Nat.even_succ, <- Nat.negb_even.
  pose proof (row_width_range (negb (Nat.even r))).
  f_equal.
  - cbn [row_start]. unfold wrap64. now rewrite Zplus_mod_idemp_l.
  - rewrite wrap64_small by lia. lia.
Qed.

Lemma traversal_in_row r (n : nat) :
  Z.of_nat n < row_width h (Nat.even r) ->
  Nat.iter n (next_point h) (traversal_at h r 0)
  = traversal_at h r (Z.of_nat n).
Proof.
  induction n as [|n IH]; intros Hlt; [reflexivity|].
  rewrite Nat.iter_succ, IH by lia.
  rewrite next_point_in_row by lia. f_equal. lia.
Qed.

Lemma row_start_nonneg r : 0 <= row_start h r.
Proof using even_width odd_width.
  induction r as [|r IH]; cbn; [lia|].
  pose proof (row_width_range (Nat.even r)). lia.
Qed.

Lemma traversal_at_row r :
  Nat.iter (Z.to_nat (row_start h r)) (next_point h) (traversal_start h)
  = traversal_at h r 0.
Proof using even_width odd_width.
  induction r as [|r IH]; [apply traversal_start_at|].
  pose proof (row_width_range (Nat.even r)) as Hw.
  pose proof (row_start_nonneg r) as Hs.
  cbn [row_start].
  replace (Z.to_nat (row_start h r + row_width h (Nat.even r)))
    with (S (Z.to_nat (row_width h (Nat.even r) - 1))
          + Z.to_nat (row_start h r))%nat by lia.
  rewrite Nat.iter_add, IH, Nat.iter_succ.
  rewrite traversal_in_row by lia.
  rewrite Z2Nat.id by lia. apply next_point_row_end.
Qed.

(** The state of the traversal in closed form: before the point that
    follows the points of the rows before [r] and [n] points of row [r],
    and the step from it. *)
Lemma traversal_state_at r n :
  0 <= n < row_width h (Nat.even r) ->
  let t := Nat.iter (Z.to_nat (row_start h r + n)) (next_point h)
             (traversal_start h) in
  t = traversal_at h r n /\
  point_index t
  = wrap64 (row_start h r + (row_width h (Nat.even r) - 1 - n)) /\
  next_point h t
  = (if n =? row_width h (Nat.even r) - 1
     then traversal_at h (S r) 0 else traversal_at h r (n + 1)) /\
  completeRowPoints (traversal_at h (S r) 0)
  = wrap64 (row_start h r + row_width h (Nat.even r)).
Proof using even_width odd_width.
  intros Hn t.
  pose proof (row_start_nonneg r) as Hs.
  assert (Ht : t = traversal_at h r n).
  { unfold t.
    replace (Z.to_nat (row_start h r + n))
      with (Z.to_nat n + Z.to_nat (row_start h r))%nat by lia.
    rewrite Nat.iter_add, traversal_at_row, traversal_in_row by lia.
    f_equal. lia. }
  split; [exact Ht|]. rewrite Ht. split; [|split].
  - unfold point_index, traversal_at. cbn. unfold wrap64.
    now rewrite Zplus_mod_idemp_l.
  - destruct (Z.eqb_spec n (row_width h (Nat.even r) - 1)) as [->|Hne].
    + apply next_point_row_end.
    + apply next_point_in_row; lia.
  - reflexivity.
Qed.

End RowTraversal.

(** ** Indices outside the arrays *)

(** One turn of each decoder: the point is stored at [point_index t] and
    the loop goes on from [next_point h t]. *)
Lemma readAngData_loop_turn `{FM : FloatModel} h readSem readFit todo ins t
    pointsRead d line is1 :
  getline 512 ins = (line, is1) ->
  failbit is1 = false ->
  readAngData_loop h readSem readFit (S todo) ins t pointsRead d
  = (d1 <- store_point (point_index t)
             (fst (parse_point readSem readFit line)) d ;;
     readAngData_loop h readSem readFit todo is1 (next_point h t)
       (pointsRead + 1) d1).
Proof. intros Hline Hok. cbn. now rewrite Hline, Hok. Qed.

Lemma readAngDataMemMap_loop_turn `{FM : FloatModel} h readSem readFit
    extraTok fileBytes todo data t pointsRead bytesRead d p data1 :
  bytesRead < fileBytes ->
  parse_point readSem readFit data = (p, data1) ->
  readAngDataMemMap_loop h readSem readFit extraTok fileBytes (S todo) data t
    pointsRead bytesRead d
  = (d1 <- store_point (point_index t) p d ;;
     data2 <- (if readSem && readFit && extraTok
               then skip_to_newline data1 else Return data1) ;;
     readAngDataMemMap_loop h readSem readFit extraTok fileBytes todo data2
       (next_point h t) (pointsRead + 1)
       (wrap64 (bytesRead + (size data - size data2))) d1).
Proof.
  intros Hlt Hparse. cbn.
  destruct (Z.ltb_spec bytesRead fileBytes); [|lia]. now rewrite Hparse.
Qed.

(** C10 (the code at inputs on which the claim fails).  For a hexagonal
    grid of one row with three columns in odd rows and two in even rows,
    [allocate] makes arrays of three elements; the traversal takes the row
    to be two points wide and starts a second row for the third point,
    whose index is four: the assignment of either decoder is outside the
    arrays, and so is that of [read].  Likewise for a square grid of one
    row with three columns in odd rows and one in even rows: the arrays
    have three elements and the second point has index three. *)
Theorem decoders_write_out_of_bounds :
  let fs := one_file "scan.ang" hexagonal_scan in
  (exists tokens ins h om,
     readAngHeader (FM := lexeme_floats) (open_text hexagonal_scan)
       (header empty_map) = Return (tokens, ins, h) /\
     allocate tokens {| header := h; scan := scan empty_map |} = Return om /\
     size (iq (scan om)) = 3 /\
     point_index (Nat.iter 2 (next_point h) (traversal_start h)) = 4 /\
     readAngData ins tokens om = Undefined /\
     readAngDataMemMap (OS := no_detail) fs "scan.ang" (fst (tellg ins))
       tokens om = Undefined /\
     read (FM := lexeme_floats) (OS := no_detail) fs "scan.ang" empty_map
     = Undefined) /\
  (let h := header (map_of_grid (FM := lexeme_floats) GridType.Square 3 1 1)
   in
   totalPoints GridType.Square 3 1 1 = Return 3 /\
   point_index (Nat.iter 1 (next_point h) (traversal_start h)) = 3).
Proof.
  intros fs. split; [|split; reflexivity].
  do 4 eexists.
  split; [vm_compute; reflexivity|].
  split; [vm_compute; reflexivity|].
  repeat split; vm_compute; reflexivity.
Qed.

Lemma text_eqb_eq a b : text_eqb a b = true <-> a = b.
Proof.
  unfold text_eqb, str. rewrite String.eqb_eq. split; [|now intros ->].
  intros H. apply (f_equal list_ascii_of_string) in H.
  now rewrite !list_ascii_of_string_of_list_ascii in H.
Qed.

(** ** The header, line by line *)

Section HeaderKeys.
Context `{FM : FloatModel}.

Ltac key_chain :=
  repeat match goal with
    | |- context [if is_key ?t ?s then _ else _] =>
        let E := fresh "E" in
        destruct (is_key t s) eqn:E; [try congruence; try reflexivity|]
    end.

Lemma check_previous_phase_forget k st :
  check_previous_phase (forget k st) = check_previous_phase st.
Proof. destruct k; reflexivity. Qed.

Lemma with_back_forget k f st :
  with_back f (forget k st) = outcome_map (forget k) (with_back f st).
Proof.
  destruct k; unfold with_back, update_back; cbn;
    destruct (last (phaseList (parsed st))); reflexivity.
Qed.

Lemma forget_idem k st : forget k (forget k st) = forget k st.
Proof. destruct k; reflexivity. Qed.

Lemma forget_current k st : current (forget k st) = current st.
Proof. destruct k; reflexivity. Qed.

Lemma forget_with_current k f st :
  forget k (with_current f st) = with_current f (forget k st).
Proof. destruct k; reflexivity. Qed.

Lemma parse_header_line_forget k line st :
  has_key k line = false ->
  outcome_map (forget k) (parse_header_line line st)
  = outcome_map (forget k) (parse_header_line line (forget k st)).
Proof.
  unfold has_key, parse_header_line.
  destruct (extract_word (open_text (c_str (drop 1 line)))) as [[token|] iss];
    [|cbn [outcome_map]; now rewrite forget_idem].
  intros Hk.
  destruct (is_key token "Phase") eqn:Ephase.
  { destruct k; cbn [key_text] in Hk; key_chain;
    rewrite check_previous_phase_forget;
    destruct (check_previous_phase st); reflexivity. }
  rewrite !with_back_forget, !forget_current.
  destruct k; cbn [key_text] in Hk; key_chain;
    repeat match goal with
      | |- context [with_back ?f ?s] => destruct (with_back f s)
      | |- context [if ?b then _ else _] => destruct b
      end; reflexivity.
Qed.

Lemma parse_header_line_key k line st :
  has_key k line = true ->
  exists st',
    parse_header_line line st = Return st' /\
    forget k st' = forget k st.
Proof.
  unfold has_key, parse_header_line.
  destruct (extract_word (open_text (c_str (drop 1 line)))) as [[token|] iss];
    [|discriminate].
  intros Hk. apply text_eqb_eq in Hk. subst token.
  destruct k; cbn [key_text]; (eexists; split; [reflexivity|reflexivity]).
Qed.

Lemma with_back_seen f st st' :
  with_back f st = Return st' -> seen st' = seen st.
Proof.
  unfold with_back. intros H. apply bind_Return in H.
  destruct H as (h & _ & [= <-]). reflexivity.
Qed.

Lemma parse_header_line_flag k line st st' :
  has_key k line = false ->
  parse_header_line line st = Return st' ->
  seen_flag k (seen st') = seen_flag k (seen st).
Proof.
  unfold has_key, parse_header_line.
  destruct (extract_word (open_text (c_str (drop 1 line)))) as [[token|] iss];
    [|now intros _ [= <-]].
  intros Hk.
  destruct k; cbn [key_text] in Hk; key_chain;
    try (intros [= <-]; reflexivity);
    repeat match goal with
      | |- context [if ?b then _ else _] => destruct b
      end;
    try discriminate;
    intros H;
    repeat (let a := fresh "a" in let Ha := fresh "Ha" in
            apply bind_Return in H; destruct H as (a & Ha & H));
    try (injection H as <-);
    repeat match goal with
      | Hb : with_back _ _ = Return _ |- _ =>
          apply with_back_seen in Hb
      end;
    cbn in *; congruence.
Qed.

Lemma check_header_values_Return s :
  check_header_values s = Return tt -> forall k, seen_flag k s = true.
Proof.
  unfold check_header_values. intros H.
  repeat (let a := fresh "a" in let Ha := fresh "Ha" in
          apply bind_Return in H; destruct H as (a & Ha & H);
          apply require_Return in Ha).
  apply require_Return in H.
  intros k; destruct k; assumption.
Qed.

Lemma check_header_values_missing k s :
  seen_flag k s = false ->
  (forall k', k' <> k -> seen_flag k' s = true) ->
  check_header_values s = Throw ("missing ang header value " ++ key_name k).
Proof.
  intros Hk Hother. unfold check_header_values.
  destruct k; cbn [seen_flag] in Hk;
  repeat match goal with
    | |- context [require (?f s)] =>
        first [ rewrite Hk
              | let E := fresh in
                assert (E : f s = true)
                  by (first [apply (Hother TEM_PIXperUM)|apply (Hother x_star)
                   |apply (Hother y_star)|apply (Hother z_star)
                   |apply (Hother WorkingDistance)|apply (Hother GRID)
                   |apply (Hother XSTEP)|apply (Hother YSTEP)
                   |apply (Hother NCOLS_ODD)|apply (Hother NCOLS_EVEN)
                   |apply (Hother NROWS)|apply (Hother OPERATOR)
                   |apply (Hother SAMPLEID)|apply (Hother SCANID)];
                      discriminate);
                rewrite E ]; cbn [require bind]
    end; reflexivity.
Qed.


Lemma seen_flag_forget_other k k' st :
  k' <> k -> seen_flag k' (seen (forget k st)) = seen_flag k' (seen st).
Proof. intros Hne. destruct k, k'; try reflexivity; congruence. Qed.

Lemma check_final_phase_forget k st :
  check_final_phase (forget k st) = check_final_phase st.
Proof. destruct k; reflexivity. Qed.

Lemma outcome_map_Return {A B : Type} (f : A -> B) m b :
  outcome_map f m = Return b -> exists a, m = Return a /\ f a = b.
Proof. destruct m; cbn; [intros [= <-]; eauto|discriminate..]. Qed.

Lemma parse_header_lines_omit k lines a b b' :
  forget k a = forget k b ->
  parse_header_lines lines b = Return b' ->
  exists a',
    parse_header_lines (omit_key k lines) a = Return a' /\
    forget k a' = forget k b' /\
    seen_flag k (seen a') = seen_flag k (seen a).
Proof.
  revert a b. induction lines as [|l ls IH]; intros a b Hab;
    cbn [parse_header_lines].
  - intros [= <-]. exists a. cbn. eauto.
  - intros H. apply bind_Return in H. destruct H as (b1 & Hl & Hls).
    unfold omit_key. rewrite filter_cons.
    destruct (has_key k l) eqn:Hk.
    + destruct (parse_header_line_key k l b Hk) as (b1' & Hl' & Hb1).
      rewrite Hl in Hl'. injection Hl' as <-.
      rewrite decide_False by discriminate.
      apply (IH a b1); [congruence|exact Hls].
    + rewrite decide_True by reflexivity. cbn [parse_header_lines].
      assert (Ha : outcome_map (forget k) (parse_header_line l a)
                   = Return (forget k b1)).
      { rewrite parse_header_line_forget, Hab,
          <- parse_header_line_forget, Hl by assumption. reflexivity. }
      apply outcome_map_Return in Ha. destruct Ha as (a1 & Ha1 & Hab1).
      rewrite Ha1. cbn [bind].
      destruct (IH a1 b1 Hab1 Hls) as (a' & Hparse & Hforget & Hflag).
      exists a'. split; [exact Hparse|]. split; [exact Hforget|].
      rewrite Hflag. eapply parse_header_line_flag; eassumption.
Qed.

(** Streams over a header given by its lines. *)

Lemma getline_scan_line l room tail :
  forallb (fun c => negb (is_newline c)) l = true ->
  (length l <= room)%nat ->
  getline_scan room (l ++ nl :: tail) = (l, S (length l), HitDelim).
Proof.
  revert room. induction l as [|c l IH]; intros room Hl Hroom; cbn.
  - reflexivity.
  - cbn in Hl. apply andb_prop in Hl. destruct Hl as [Hc Hl].
    apply negb_true_iff in Hc. rewrite Hc.
    destruct room as [|room]; [cbn in Hroom; lia|].
    rewrite IH; [reflexivity|assumption|cbn in Hroom; lia].
Qed.

Lemma remaining_advance k e f ins :
  remaining (advance k e f ins) = drop k (remaining ins).
Proof. unfold remaining, advance. cbn. now rewrite drop_drop. Qed.

Lemma good_advance k ins :
  good ins = true -> good (advance k false false ins) = true.
Proof.
  unfold good, advance. cbn. now rewrite !orb_false_r.
Qed.

Lemma getline_line ins l tail :
  good ins = true ->
  remaining ins = l ++ nl :: tail ->
  forallb (fun c => negb (is_newline c)) l = true ->
  (length l <= 511)%nat ->
  exists is1,
    getline 512 ins = (l, is1) /\ good is1 = true /\ remaining is1 = tail /\
    failbit is1 = false.
Proof.
  intros Hgood Hrem Hl Hlen. unfold getline. rewrite Hgood, Hrem.
  change (512 - 1)%nat with 511%nat.
  rewrite getline_scan_line by assumption.
  eexists. split; [reflexivity|]. split; [now apply good_advance|].
  split.
  - rewrite remaining_advance, Hrem.
    change (l ++ nl :: tail) with (l ++ [nl] ++ tail).
    rewrite app_assoc.
    replace (S (length l)) with (length (l ++ [nl]))
      by (rewrite length_app; cbn; lia).
    apply drop_app_length.
  - unfold good in Hgood. apply andb_prop in Hgood. destruct Hgood as [_ Hf].
    apply negb_true_iff in Hf. cbn. now rewrite Hf.
Qed.

Lemma header_text_cons l ls rest :
  header_text (l :: ls) rest = l ++ nl :: header_text ls rest.
Proof. unfold header_text. cbn. now rewrite <- !app_assoc. Qed.

Lemma is_header_line_inv l :
  is_header_line l = true ->
  (exists c l', l = c :: l' /\ is_hash c = true) /\
  forallb (fun c => negb (is_newline c)) l = true /\
  (length l <= 511)%nat.
Proof.
  unfold is_header_line. intros H.
  apply andb_prop in H. destruct H as [H Hlen].
  apply andb_prop in H. destruct H as [Hhash Hnl].
  apply Nat.leb_le in Hlen.
  destruct l as [|c l']; [discriminate|]. eauto 6.
Qed.

Lemma header_loop_lines lines rest :
  Forall (fun l => is_header_line l = true) lines ->
  is_data_start rest = true ->
  forall ins fuel,
    good ins = true ->
    remaining ins = header_text lines rest ->
    (length lines <= fuel)%nat ->
    exists is1,
      forall st,
        header_loop fuel ins st
        = (st' <- parse_header_lines lines st ;; Return (is1, st'))%outcome.
Proof.
  intros Hlines Hrest.
  induction Hlines as [|l ls Hl Hls IH]; intros ins fuel Hgood Hrem Hfuel.
  - exists (snd (peek ins)). intros st.
    assert (Hpeek : from_option is_hash false (fst (peek ins)) = false).
    { unfold peek. rewrite Hgood, Hrem. unfold header_text. cbn.
      destruct rest as [|c rest]; [reflexivity|].
      cbn in *. now apply negb_true_iff. }
    destruct fuel; cbn [header_loop parse_header_lines bind];
      destruct (peek ins) as [c is1]; cbn in *; now rewrite Hpeek.
  - rewrite header_text_cons in Hrem.
    destruct (is_header_line_inv l Hl) as ((c & l' & -> & Hc) & Hnl & Hlen).
    destruct fuel as [|fuel]; [cbn in Hfuel; lia|].
    destruct (getline_line ins _ _ Hgood Hrem Hnl Hlen)
      as (is1 & Hline & Hgood1 & Hrem1 & _).
    destruct (IH is1 fuel Hgood1 Hrem1 ltac:(cbn in Hfuel; lia))
      as (is2 & Hloop).
    exists is2. intros st. cbn [header_loop parse_header_lines].
    unfold peek. rewrite Hgood, Hrem. cbn [from_option app]. rewrite Hc, Hline.
    destruct (parse_header_line (c :: l') st); cbn [bind];
      [apply Hloop|reflexivity..].
Qed.

Lemma length_header_text lines rest :
  (length lines <= length (header_text lines rest))%nat.
Proof.
  induction lines as [|l ls IH]; [cbn; lia|].
  rewrite header_text_cons, length_app. cbn. lia.
Qed.

Lemma readAngHeader_lines lines rest h :
  Forall (fun l => is_header_line l = true) lines ->
  is_data_start rest = true ->
  exists is1,
    readAngHeader (open_text (header_text lines rest)) h
    = (st <- parse_header_lines lines (header_start h) ;;
       _ <- check_final_phase st ;;
       _ <- check_header_values (seen st) ;;
       c <- count_columns is1 ;;
       Return (fst c, snd c, parsed st))%outcome.
Proof.
  intros Hlines Hrest.
  destruct (header_loop_lines lines rest Hlines Hrest
              (open_text (header_text lines rest))
              (length (header_text lines rest)) eq_refl eq_refl
              (length_header_text lines rest)) as (is1 & Hloop).
  exists is1. unfold readAngHeader.
  change (remaining (open_text (header_text lines rest)))
    with (header_text lines rest).
  fold (header_start h). rewrite Hloop.
  destruct (parse_header_lines lines (header_start h)); cbn [bind];
    [|reflexivity..].
  destruct (check_final_phase a); cbn [bind]; [|reflexivity..].
  destruct (check_header_values (seen a)); cbn [bind]; [|reflexivity..].
  destruct (count_columns is1) as [[tokenCount is2]| |]; reflexivity.
Qed.

(** C6.  Take a header that [readAngHeader] accepts, given by its lines,
    and omit the lines of one mandatory top-level key.  Parsing then fails
    with the message that names the key (without the colon that some keys
    end with), and the lines that remain are parsed with the same effect:
    the state at the end of the header differs from that of the full header
    only in the flag and the member of the omitted key. *)
Theorem omitted_key_is_named lines rest h k r :
  Forall (fun l => is_header_line l = true) lines ->
  is_data_start rest = true ->
  readAngHeader (open_text (header_text lines rest)) h = Return r ->
  readAngHeader (open_text (header_text (omit_key k lines) rest)) h
  = Throw ("missing ang header value " ++ key_name k) /\
  exists st st',
    parse_header_lines lines (header_start h) = Return st /\
    parse_header_lines (omit_key k lines) (header_start h) = Return st' /\
    forget k st' = forget k st /\
    seen_flag k (seen st') = false.
Proof.
  intros Hlines Hrest Hall.
  destruct (readAngHeader_lines lines rest h Hlines Hrest) as (is1 & Heq).
  rewrite Heq in Hall. clear Heq.
  apply bind_Return in Hall. destruct Hall as (b' & Hparse & Hall).
  apply bind_Return in Hall. destruct Hall as (u & Hphase & Hall).
  apply bind_Return in Hall. destruct Hall as (u' & Hvalues & _).
  destruct u, u'.
  assert (Hlines' : Forall (fun l => is_header_line l = true)
                      (omit_key k lines)).
  { unfold omit_key. apply Forall_forall. intros l Hin.
    apply list_elem_of_filter in Hin. destruct Hin as [_ Hin].
    rewrite Forall_forall in Hlines. auto. }
  destruct (readAngHeader_lines (omit_key k lines) rest h Hlines' Hrest)
    as (is2 & ->).
  destruct (parse_header_lines_omit k lines (header_start h) (header_start h)
              b' eq_refl Hparse) as (a' & Hparse' & Hforget & Hflag).
  assert (Hunseen : seen_flag k (seen a') = false).
  { rewrite Hflag. destruct k; reflexivity. }
  split; [|exists b', a'; auto].
  rewrite Hparse'. cbn [bind].
  rewrite <- check_final_phase_forget with (k := k), Hforget,
    check_final_phase_forget, Hphase. cbn [bind].
  rewrite (check_header_values_missing k); [reflexivity|exact Hunseen|].
  intros k' Hne.
  rewrite <- (seen_flag_forget_other k k') by assumption.
  rewrite Hforget, seen_flag_forget_other by assumption.
  now apply check_header_values_Return.
Qed.


End HeaderKeys.

(** ** The header of the sample scans *)

(** The sample header without its [GRID:] line. *)
Lemma omitted_key_is_named_witness :
  let lines := map txt (sample_header sample_phase "SqrGrid" "2" "2" "2") in
  let rest := unlines sample_points in
  readAngHeader (FM := lexeme_floats)
    (open_text (header_text (omit_key GRID lines) rest)) (header empty_map)
  = Throw "missing ang header value GRID".
Proof.
  intros lines rest.
  eapply proj1.
  eapply (omitted_key_is_named (FM := lexeme_floats) lines rest
            (header empty_map) GRID).
  - repeat constructor.
  - reflexivity.
  - vm_compute. reflexivity.
Defined.



(** C4 (the code at inputs on which the claim fails).  A phase that
    announces two families and gives one is accepted, at the end of the
    header and before a second phase alike; only a phase that gives more
    families than it announces is rejected, with the message that speaks
    of missing families. *)
Theorem fewer_families_accepted :
  (exists r st,
     readAngHeader (FM := lexeme_floats)
       (open_text (scan_of_phases phase_short_of_families))
       (header empty_map) = Return r /\
     parse_header_lines (FM := lexeme_floats)
       (map txt (sample_header phase_short_of_families "SqrGrid" "2" "2" "2"))
       (header_start (header empty_map)) = Return st /\
     targetFamilies (current st) = 2 /\
     map (fun p => size (hklFam p)) (phaseList (parsed st)) = [1]) /\
  (exists r,
     readAngHeader (FM := lexeme_floats)
       (open_text (scan_of_phases (phase_short_of_families ++ second_phase)))
       (header empty_map) = Return r /\
     map (fun p => size (hklFam p)) (phaseList (snd r)) = [1; 2]) /\
  readAngHeader (FM := lexeme_floats)
    (open_text (scan_of_phases phase_with_surplus)) (header empty_map)
  = Throw "ang missing some hkl families for phase 1".
Proof.
  split; [|split].
  - do 2 eexists.
    split; [vm_compute; reflexivity|].
    split; [vm_compute; reflexivity|].
    split; reflexivity.
  - eexists. split; [vm_compute; reflexivity|reflexivity].
  - vm_compute. reflexivity.
Qed.

(** ** The decoders over well-formed lines *)

Ltac char_classes :=
  unfold isspace, isdigit, is_sign, is_dot, is_exp, is_newline, is_blank in *;
  repeat match goal with
    | H : context [?a =? ?b] |- _ => destruct (Z.eqb_spec a b)
    | H : context [?a <=? ?b] |- _ => destruct (Z.leb_spec a b)
    | |- context [?a =? ?b] => destruct (Z.eqb_spec a b)
    | |- context [?a <=? ?b] => destruct (Z.leb_spec a b)
    end;
  cbn in *; try congruence; try lia.

Lemma space_not_digit c : isspace c = true -> isdigit c = false.
Proof. intros H. char_classes. Qed.

Lemma space_not_sign c : isspace c = true -> is_sign c = false.
Proof. intros H. char_classes. Qed.

Lemma space_not_dot c : isspace c = true -> is_dot c = false.
Proof. intros H. char_classes. Qed.

Lemma space_not_exp c : isspace c = true -> is_exp c = false.
Proof. intros H. char_classes. Qed.

Lemma blank_is_space c : is_blank c = true -> isspace c = true.
Proof. unfold is_blank. intros H. now apply andb_prop in H. Qed.

Lemma all_blank_all_space b : all_blank b = true -> all_space b = true.
Proof.
  unfold all_blank, all_space. rewrite !forallb_forall.
  intros H c Hc. apply blank_is_space. now apply H.
Qed.

Lemma all_space_app w b :
  all_space w = true -> all_space b = true -> all_space (w ++ b) = true.
Proof. unfold all_space. rewrite forallb_app. now intros -> ->. Qed.

(** A stage of the scan takes the same characters when the text goes on
    with something a conversion stops at. *)
Lemma take_sign_stops s r :
  stops r = true ->
  take_sign (s ++ r) = (fst (take_sign s), snd (take_sign s) ++ r).
Proof.
  intros Hr. destruct s as [|c s]; cbn [app take_sign fst snd].
  - destruct r as [|c r]; [reflexivity|]. cbn [stops] in Hr.
    cbn [take_sign]. now rewrite (space_not_sign c Hr).
  - now destruct (is_sign c).
Qed.

Lemma span_digits_stops s r :
  stops r = true ->
  span_digits (s ++ r) = (fst (span_digits s), snd (span_digits s) ++ r).
Proof.
  intros Hr. induction s as [|c s IH]; cbn [app span_digits fst snd].
  - destruct r as [|c r]; [reflexivity|]. cbn [stops] in Hr.
    cbn [span_digits]. now rewrite (space_not_digit c Hr).
  - destruct (isdigit c); [|reflexivity].
    rewrite IH. now destruct (span_digits s).
Qed.

Lemma take_fraction_stops s r :
  stops r = true ->
  take_fraction (s ++ r) = (fst (take_fraction s), snd (take_fraction s) ++ r).
Proof.
  intros Hr. destruct s as [|c s]; cbn [app take_fraction fst snd].
  - destruct r as [|c r]; [reflexivity|]. cbn [stops] in Hr.
    cbn [take_fraction]. now rewrite (space_not_dot c Hr).
  - destruct (is_dot c); [|reflexivity].
    rewrite (span_digits_stops s r Hr). now destruct (span_digits s).
Qed.

Lemma take_exponent_stops s r :
  stops r = true ->
  take_exponent (s ++ r)
  = (fst (take_exponent s), snd (take_exponent s) ++ r).
Proof.
  intros Hr. destruct s as [|c s]; cbn [app take_exponent fst snd].
  - destruct r as [|c r]; [reflexivity|]. cbn [stops] in Hr.
    cbn [take_exponent]. now rewrite (space_not_exp c Hr).
  - destruct (is_exp c); [|reflexivity].
    rewrite (take_sign_stops s r Hr). destruct (take_sign s) as [sg t1].
    cbn [fst snd]. rewrite (span_digits_stops t1 r Hr).
    destruct (span_digits t1) as [d t2]. cbn [fst snd].
    now destruct (is_nil d).
Qed.

Lemma scan_float_stops s r :
  stops r = true ->
  scan_float (s ++ r)
  = option_map (fun lr => (fst lr, snd lr ++ r)) (scan_float s).
Proof.
  intros Hr. unfold scan_float.
  rewrite (take_sign_stops s r Hr). destruct (take_sign s) as [sg s1].
  cbn [fst snd]. rewrite (span_digits_stops s1 r Hr).
  destruct (span_digits s1) as [ip s2]. cbn [fst snd].
  rewrite (take_fraction_stops s2 r Hr).
  destruct (take_fraction s2) as [fp s3]. cbn [fst snd].
  destruct (is_nil ip && is_nil (tail fp)); [reflexivity|].
  rewrite (take_exponent_stops s3 r Hr).
  now destruct (take_exponent s3).
Qed.

Lemma scan_integer_stops s r :
  stops r = true ->
  scan_integer (s ++ r)
  = option_map (fun nvr => (fst nvr, snd nvr ++ r)) (scan_integer s).
Proof.
  intros Hr. unfold scan_integer.
  rewrite (take_sign_stops s r Hr). destruct (take_sign s) as [sg s1].
  cbn [fst snd]. rewrite (span_digits_stops s1 r Hr).
  destruct (span_digits s1) as [d s2]. cbn [fst snd].
  now destruct (is_nil d).
Qed.

Lemma scan_float_space c s : isspace c = true -> scan_float (c :: s) = None.
Proof.
  intros Hc. unfold scan_float.
  cbn [take_sign]. rewrite (space_not_sign c Hc).
  cbn [span_digits]. rewrite (space_not_digit c Hc).
  cbn [take_fraction]. now rewrite (space_not_dot c Hc).
Qed.

Lemma scan_integer_space c s :
  isspace c = true -> scan_integer (c :: s) = None.
Proof.
  intros Hc. unfold scan_integer.
  cbn [take_sign]. rewrite (space_not_sign c Hc).
  cbn [span_digits]. now rewrite (space_not_digit c Hc).
Qed.

Lemma skip_space_app w s :
  all_space w = true -> skip_space (w ++ s) = skip_space s.
Proof.
  induction w as [|c w IH]; [reflexivity|].
  cbn [all_space forallb app skip_space].
  intros H. apply andb_prop in H. destruct H as [-> H]. auto.
Qed.

Lemma float_token_scan t :
  float_token t = true ->
  scan_float t = Some (t, []) /\ skip_space t = t.
Proof.
  unfold float_token. intros H.
  destruct (scan_float t) as [[lexeme [|c rest]]|] eqn:Hscan;
    [|discriminate..].
  apply text_eqb_eq in H. subst lexeme. split; [reflexivity|].
  destruct t as [|c t]; [reflexivity|]. cbn [skip_space].
  destruct (isspace c) eqn:Hc; [|reflexivity].
  now rewrite scan_float_space in Hscan.
Qed.

Lemma integer_token_scan t :
  integer_token t = true ->
  (exists neg v, scan_integer t = Some (neg, v, [])) /\ skip_space t = t.
Proof.
  unfold integer_token. intros H.
  destruct (scan_integer t) as [[[neg v] [|c rest]]|] eqn:Hscan;
    [|discriminate..].
  split; [eauto|].
  destruct t as [|c t]; [reflexivity|]. cbn [skip_space].
  destruct (isspace c) eqn:Hc; [|reflexivity].
  now rewrite scan_integer_space in Hscan.
Qed.

Lemma skip_space_token t r :
  skip_space t = t -> t <> [] -> skip_space (t ++ r) = t ++ r.
Proof.
  destruct t as [|c t]; [congruence|]. cbn [app skip_space]. intros H _.
  destruct (isspace c) eqn:Hc; [|reflexivity].
  exfalso. clear r.
  assert (Hlen : (length (skip_space t) <= length t)%nat).
  { clear. induction t as [|a t IH]; cbn [skip_space length]; [lia|].
    destruct (isspace a); cbn [length]; lia. }
  rewrite H in Hlen. cbn [length] in Hlen. lia.
Qed.

Section FieldConversions.
Context `{FM : FloatModel}.

Lemma strtof_field w t r :
  all_space w = true -> float_token t = true -> stops r = true ->
  strtof (w ++ t ++ r) = (float_of_decimal t, r).
Proof.
  intros Hw Ht Hr. destruct (float_token_scan t Ht) as [Hscan Hskip].
  unfold strtof. rewrite skip_space_app by assumption.
  rewrite skip_space_token; [|assumption|].
  - now rewrite scan_float_stops, Hscan by assumption.
  - intros ->. discriminate.
Qed.

Lemma strtoul_field w t r :
  all_space w = true -> integer_token t = true -> stops r = true ->
  strtoul (w ++ t ++ r) = (fst (strtoul t), r).
Proof.
  intros Hw Ht Hr.
  destruct (integer_token_scan t Ht) as [(neg & v & Hscan) Hskip].
  unfold strtoul. rewrite skip_space_app by assumption.
  rewrite skip_space_token; [|assumption|].
  - now rewrite scan_integer_stops, Hskip, Hscan by assumption.
  - intros ->. discriminate.
Qed.

End FieldConversions.

Section PointLines.
Context `{FM : FloatModel}.

Lemma stops_blank_app b s :
  all_blank b = true -> is_nil b = false -> stops (b ++ s) = true.
Proof.
  destruct b as [|c b]; [discriminate|]. cbn [all_blank forallb app stops].
  intros H _. apply andb_prop in H. destruct H as [H _].
  now apply blank_is_space.
Qed.

(** What follows a field inside a line: the next field with the blank
    before it, or what follows the line. *)
Lemma stops_render_fields kinds fs r :
  fields_ok kinds fs = true ->
  forallb (fun f => negb (is_nil (fst f))) fs = true ->
  stops r = true ->
  stops (render_fields fs r) = true.
Proof.
  intros Hok Hsep Hr. destruct fs as [|[b t] fs]; [exact Hr|].
  destruct kinds as [|k ks]; [discriminate|].
  cbn [fields_ok fst snd] in Hok. cbn [forallb fst] in Hsep.
  apply andb_prop in Hok. destruct Hok as [Hok _].
  apply andb_prop in Hok. destruct Hok as [Hb _].
  apply andb_prop in Hsep. destruct Hsep as [Hne _].
  apply negb_true_iff in Hne.
  cbn [render_fields foldr fst snd]. now apply stops_blank_app.
Qed.

Lemma strtof_next_field w b t ks fs r :
  all_space w = true ->
  fields_ok (FloatField :: ks) ((b, t) :: fs) = true ->
  forallb (fun f => negb (is_nil (fst f))) fs = true ->
  stops r = true ->
  strtof (w ++ render_fields ((b, t) :: fs) r)
  = (float_of_decimal t, render_fields fs r) /\
  fields_ok ks fs = true.
Proof.
  intros Hw Hok Hsep Hr. cbn [fields_ok fst snd token_ok] in Hok.
  apply andb_prop in Hok. destruct Hok as [Hok Hfs].
  apply andb_prop in Hok. destruct Hok as [Hb Ht].
  split; [|exact Hfs].
  cbn [render_fields foldr fst snd]. rewrite app_assoc.
  apply strtof_field.
  - apply all_space_app; [assumption|now apply all_blank_all_space].
  - exact Ht.
  - now apply (stops_render_fields ks).
Qed.

Lemma strtoul_next_field w b t ks fs r :
  all_space w = true ->
  fields_ok (IntegerField :: ks) ((b, t) :: fs) = true ->
  forallb (fun f => negb (is_nil (fst f))) fs = true ->
  stops r = true ->
  strtoul (w ++ render_fields ((b, t) :: fs) r)
  = (fst (strtoul t), render_fields fs r) /\
  fields_ok ks fs = true.
Proof.
  intros Hw Hok Hsep Hr. cbn [fields_ok fst snd token_ok] in Hok.
  apply andb_prop in Hok. destruct Hok as [Hok Hfs].
  apply andb_prop in Hok. destruct Hok as [Hb Ht].
  split; [|exact Hfs].
  cbn [render_fields foldr fst snd]. rewrite app_assoc.
  apply strtoul_field.
  - apply all_space_app; [assumption|now apply all_blank_all_space].
  - exact Ht.
  - now apply (stops_render_fields ks).
Qed.


Lemma parse_point_convert readSem readFit data :
  parse_point readSem readFit data
  = (point_of_values readSem readFit
       (fst (convert_fields (field_kinds readSem readFit) data)),
     snd (convert_fields (field_kinds readSem readFit) data)).
Proof.
  unfold parse_point.
  destruct readSem, readFit;
    cbn [field_kinds replicate app andb convert_fields];
    repeat match goal with
      | |- context [strtof ?d] => destruct (strtof d)
      | |- context [strtoul ?d] => destruct (strtoul d)
      end; reflexivity.
Qed.

Lemma convert_fields_separated kinds fs r :
  fields_ok kinds fs = true ->
  forallb (fun f => negb (is_nil (fst f))) fs = true ->
  stops r = true ->
  convert_fields kinds (render_fields fs r) = (values_of kinds fs, r).
Proof.
  revert fs. induction kinds as [|k ks IH]; intros fs Hok Hsep Hr.
  - destruct fs; [reflexivity|discriminate].
  - destruct fs as [|[b t] fs]; [discriminate|].
    cbn [forallb] in Hsep. apply andb_prop in Hsep.
    destruct Hsep as [_ Hsep].
    change (render_fields ((b, t) :: fs) r)
      with ([] ++ render_fields ((b, t) :: fs) r).
    destruct k; cbn [convert_fields values_of snd].
    + destruct (strtof_next_field [] b t ks fs r eq_refl Hok Hsep Hr)
        as [-> Hfs].
      now rewrite IH.
    + destruct (strtoul_next_field [] b t ks fs r eq_refl Hok Hsep Hr)
        as [-> Hfs].
      now rewrite IH.
Qed.

Lemma convert_fields_line k ks fs w r :
  all_space w = true ->
  fields_ok (k :: ks) fs = true ->
  separated fs = true ->
  stops r = true ->
  convert_fields (k :: ks) (w ++ render_fields fs r)
  = (values_of (k :: ks) fs, r).
Proof.
  intros Hw Hok Hsep Hr. unfold separated in Hsep.
  destruct fs as [|[b t] fs]; [discriminate|].
  cbn [tail] in Hsep. destruct k; cbn [convert_fields values_of snd].
  - destruct (strtof_next_field w b t ks fs r Hw Hok Hsep Hr) as [-> Hfs].
    now rewrite convert_fields_separated.
  - destruct (strtoul_next_field w b t ks fs r Hw Hok Hsep Hr) as [-> Hfs].
    now rewrite convert_fields_separated.
Qed.

(** The conversions of a point over a line of the expected fields give
    the point of the line whatever white space comes before the line, and
    stop after its last field. *)
Lemma parse_point_line readSem readFit pl w r :
  fields_ok (field_kinds readSem readFit) (fields pl) = true ->
  separated (fields pl) = true ->
  all_space w = true ->
  stops r = true ->
  parse_point readSem readFit (w ++ render_fields (fields pl) r)
  = (point_of_line readSem readFit pl, r).
Proof.
  intros Hok Hsep Hw Hr. rewrite parse_point_convert.
  unfold field_kinds in *. cbn [replicate app] in *.
  now rewrite convert_fields_line.
Qed.

Lemma render_fields_app fs r s :
  render_fields fs (r ++ s) = render_fields fs r ++ s.
Proof.
  unfold render_fields. induction fs as [|[b t] fs IH]; [reflexivity|].
  cbn [foldr fst snd]. now rewrite IH, <- !app_assoc.
Qed.

Lemma length_render_fields fs r :
  (length r <= length (render_fields fs r))%nat.
Proof.
  unfold render_fields.
  induction fs as [|[b x] fs IH]; cbn [foldr fst snd]; [lia|].
  rewrite !length_app. lia.
Qed.

Lemma all_blank_stops b : all_blank b = true -> stops b = true.
Proof.
  destruct b as [|c b]; [reflexivity|]. cbn [all_blank forallb stops].
  intros H. apply andb_prop in H. destruct H as [H _].
  now apply blank_is_space.
Qed.

Lemma stops_before_newline t s :
  stops t = true -> stops (t ++ nl :: s) = true.
Proof. destruct t; [reflexivity|trivial]. Qed.

Lemma no_newline_trailer fs r :
  no_newline (render_fields fs r) = true -> no_newline r = true.
Proof.
  unfold render_fields, no_newline.
  induction fs as [|[b t] fs IH]; [trivial|].
  cbn [foldr fst snd]. rewrite !forallb_app. intros H.
  apply andb_prop in H. destruct H as [_ H].
  apply andb_prop in H. destruct H as [_ H]. auto.
Qed.

Lemma skip_to_newline_line t s :
  no_newline t = true -> skip_to_newline (t ++ nl :: s) = Return (nl :: s).
Proof.
  induction t as [|c t IH]; [reflexivity|].
  cbn [no_newline forallb app skip_to_newline]. intros H.
  apply andb_prop in H. destruct H as [Hc H].
  apply negb_true_iff in Hc. rewrite Hc. auto.
Qed.

Lemma point_line_ok_inv readSem readFit extraTok pl :
  point_line_ok readSem readFit extraTok pl = true ->
  fields_ok (field_kinds readSem readFit) (fields pl) = true /\
  separated (fields pl) = true /\
  (if readSem && readFit && extraTok then stops (trailer pl) = true
   else all_blank (trailer pl) = true) /\
  no_newline (render_line pl) = true /\
  (length (render_line pl) <= 511)%nat.
Proof.
  unfold point_line_ok. intros H.
  apply andb_prop in H. destruct H as [H Hlen].
  apply andb_prop in H. destruct H as [H Hnl].
  apply andb_prop in H. destruct H as [H Htr].
  apply andb_prop in H. destruct H as [Hok Hsep].
  apply Nat.leb_le in Hlen.
  repeat split; try assumption. now destruct (_ && _).
Qed.

Lemma getline_at_end ins :
  good ins = true -> remaining ins = [] ->
  failbit (snd (getline 512 ins)) = true.
Proof.
  intros Hgood Hrem. unfold getline. rewrite Hgood, Hrem. cbn.
  apply orb_true_r.
Qed.

(** The two loops over a data section given by its lines. *)
Lemma decoder_loops_agree h readSem readFit extraTok fileBytes junk :
  fileBytes < SIZE_MAX ->
  forall lines todo w ins t n d bytesRead,
    Forall (fun pl => point_line_ok readSem readFit extraTok pl = true)
      lines ->
    good ins = true ->
    remaining ins = render_lines lines junk ->
    all_space w = true ->
    size (w ++ render_lines lines junk) <= fileBytes ->
    bytesRead = fileBytes - size (w ++ render_lines lines junk) + 1 ->
    (todo <= length lines)%nat \/
    (junk = [] /\ (length w <= 1)%nat /\
     (readSem && readFit && extraTok = true \/
      Forall (fun pl => trailer pl = []) lines)) ->
    readAngData_loop h readSem readFit todo ins t n d
    = readAngDataMemMap_loop h readSem readFit extraTok fileBytes todo
        (w ++ render_lines lines junk) t n bytesRead d.
Proof.
  intros Hfile lines.
  induction lines as [|pl ls IH];
    intros todo w ins t n d bytesRead Hok Hgood Hrem Hw Hsize Hbytes Hend;
    (destruct todo as [|todo]; [reflexivity|]).
  - destruct Hend as [Hend|(-> & Hlen & _)]; [cbn in Hend; lia|].
    cbn [render_lines foldr] in *. rewrite app_nil_r in *.
    cbn [readAngData_loop readAngDataMemMap_loop].
    pose proof (getline_at_end ins Hgood Hrem) as Hfail.
    destruct (getline 512 ins) as [line is1]. cbn [snd] in Hfail.
    rewrite Hfail.
    destruct (Z.ltb_spec bytesRead fileBytes) as [Hlt|_]; [|reflexivity].
    unfold size in *. lia.
  - apply Forall_cons in Hok. destruct Hok as [Hpl Hok].
    destruct (point_line_ok_inv _ _ _ _ Hpl)
      as (Hfields & Hsep & Htrailer & Hnl & Hlen).
    cbn [render_lines foldr] in *.
    fold (render_lines ls junk) in *.
    destruct (getline_line ins _ _ Hgood Hrem Hnl Hlen)
      as (is1 & Hline & Hgood1 & Hrem1 & Hfail1).
    rewrite (readAngData_loop_turn _ _ _ _ _ _ _ _ _ _ Hline Hfail1).
    assert (Htr : stops (trailer pl) = true).
    { destruct (readSem && readFit && extraTok);
        [assumption|now apply all_blank_stops]. }
    assert (Hstream : parse_point readSem readFit (render_line pl)
                      = (point_of_line readSem readFit pl, trailer pl)).
    { apply (parse_point_line readSem readFit pl []); auto. }
    assert (Hmapped :
              parse_point readSem readFit
                (w ++ render_line pl ++ nl :: render_lines ls junk)
              = (point_of_line readSem readFit pl,
                 trailer pl ++ nl :: render_lines ls junk)).
    { unfold render_line. rewrite <- render_fields_app.
      apply parse_point_line; auto using stops_before_newline. }
    assert (Hcursor :
              1 < size (w ++ render_line pl ++ nl :: render_lines ls junk)).
    { unfold size. rewrite !length_app. cbn [length].
      assert (render_line pl <> []).
      { intros Hnil. rewrite Hnil in Hstream.
        rewrite parse_point_convert in Hstream.
        unfold render_line in Hnil.
        destruct (fields pl) as [|[b x] fs]; [now destruct readSem, readFit|].
        cbn [render_fields foldr fst snd] in Hnil.
        apply app_eq_nil in Hnil. destruct Hnil as [_ Hnil].
        apply app_eq_nil in Hnil. destruct Hnil as [Hx _]. subst x.
        unfold field_kinds in Hfields. cbn in Hfields.
        rewrite andb_false_r in Hfields. discriminate. }
      destruct (render_line pl); [congruence|cbn [length]; lia]. }
    assert (Hlt : bytesRead < fileBytes).
    { clear -Hbytes Hcursor. revert Hbytes Hcursor.
      generalize
        (size (w ++ render_line pl ++ nl :: render_lines ls junk)).
      intros. lia. }
    rewrite (readAngDataMemMap_loop_turn _ _ _ _ _ _ _ _ _ _ _ _ _
               Hlt Hmapped).
    rewrite Hstream. cbn [fst].
    destruct (store_point (point_index t) (point_of_line readSem readFit pl) d)
      as [d1| |]; cbn [bind]; [|reflexivity..].
    assert (Hnlt : no_newline (trailer pl) = true)
      by (eapply no_newline_trailer; exact Hnl).
    pose proof (length_render_fields (fields pl) (trailer pl)) as Hlonger.
    fold (render_line pl) in Hlonger.
    assert (Hnext : forall w',
               all_space w' = true ->
               (1 <= length w' <= S (length (trailer pl)))%nat ->
               (length w' <= 1)%nat
               \/ readSem && readFit && extraTok = false ->
               readAngData_loop h readSem readFit todo is1 (next_point h t)
                 (n + 1) d1
               = readAngDataMemMap_loop h readSem readFit extraTok fileBytes
                   todo (w' ++ render_lines ls junk) (next_point h t) (n + 1)
                   (wrap64
                      (bytesRead
                       + (size (w ++ render_line pl
                                ++ nl :: render_lines ls junk)
                          - size (w' ++ render_lines ls junk)))) d1).
    { intros w' Hw' Hlw' Hshort.
      assert (Hsizes :
                1 <= size (w' ++ render_lines ls junk)
                <= size (w ++ render_line pl ++ nl :: render_lines ls junk)).
      { unfold size. rewrite !length_app. cbn [length]. lia. }
      revert Hsizes Hsize Hbytes.
      generalize (size (w ++ render_line pl ++ nl :: render_lines ls junk)).
      intros total Hsizes Hsize Hbytes.
      apply IH; try assumption.
      - lia.
      - rewrite wrap64_small; [lia|]. unfold SIZE_MAX in Hfile. lia.
      - destruct Hend as [Hend|(Hjunk & Hlw & Htidy)];
          [left; cbn [length] in Hend; lia|right].
        split; [assumption|]. split.
        + destruct Hshort as [Hshort|Hshort]; [assumption|].
          destruct Htidy as [Htidy|Htidy]; [congruence|].
          apply Forall_cons in Htidy. destruct Htidy as [Hempty _].
          rewrite Hempty in Hlw'. cbn [length] in Hlw'. lia.
        + destruct Htidy as [Htidy|Htidy]; [now left|right].
          now apply Forall_cons in Htidy. }
    destruct (readSem && readFit && extraTok) eqn:Hextra.
    + rewrite skip_to_newline_line by assumption. cbn [bind].
      apply (Hnext [nl]); [reflexivity|cbn [length]; lia|left; cbn; lia].
    + cbn [bind].
      replace (trailer pl ++ nl :: render_lines ls junk)
        with ((trailer pl ++ [nl]) ++ render_lines ls junk)
        by now rewrite <- app_assoc.
      apply Hnext; [|rewrite length_app; cbn [length]; lia|now right].
      apply all_space_app; [now apply all_blank_all_space|reflexivity].
Qed.

Context `{OS : SystemError}.

(** C2 (as amended).  Let the data section of a file, after the bytes
    [prefix] of its header, be made of lines ended by newlines, each of at
    most 511 bytes and holding exactly the fields that the token count
    makes the decoders convert, as decimal numbers with blanks between
    them and blanks only, if anything, after the last (anything up to
    the newline when the token count exceeds ten); and let it either hold
    at least as many lines as the arrays have points, or end with its last
    line and, unless the token count exceeds ten, have nothing after the
    last field of a line.  Then the decoder over the stream and the
    decoder over the mapped file, started from the same map, have the same
    outcome: the same number of points and the same arrays. *)
Theorem decoders_agree fs fileName prefix lines junk tokens om :
  let mapped := prefix ++ render_lines lines junk in
  fs fileName = Some mapped ->
  mapped <> [] ->
  size mapped < SIZE_MAX ->
  Forall
    (fun pl =>
       point_line_ok (8 <? tokens) (9 <? tokens) (10 <? tokens) pl = true)
    lines ->
  size (iq (scan om)) <= Z.of_nat (length lines) \/
  (junk = [] /\
   ((10 <? tokens) = true \/ Forall (fun pl => trailer pl = []) lines)) ->
  readAngData (stream_at mapped (length prefix)) tokens om
  = readAngDataMemMap fs fileName (Z.of_nat (length prefix)) tokens om.
Proof.
  intros mapped Hfs Hne Hfile Hlines Hend.
  assert (Hlen : size mapped
                 = Z.of_nat (length prefix) + size (render_lines lines junk)).
  { unfold size, mapped. rewrite length_app. lia. }
  assert (Hdrop : drop (length prefix) mapped
                  = [] ++ render_lines lines junk).
  { unfold mapped. now rewrite drop_app_length. }
  clearbody mapped.
  unfold readAngData, readAngDataMemMap, memorymap_File. rewrite Hfs.
  destruct mapped as [|c bytes]; [congruence|].
  set (mapped := c :: bytes) in *. cbn [bind].
  pose proof (size_nonneg (render_lines lines junk)) as Hdata.
  destruct (Z.leb_spec 0 (Z.of_nat (length prefix))); [|lia].
  destruct (Z.leb_spec (Z.of_nat (length prefix)) (size mapped)); [|lia].
  cbn [andb]. rewrite Nat2Z.id, Hdrop.
  rewrite (decoder_loops_agree (header om) (8 <? tokens) (9 <? tokens)
             (10 <? tokens) (size mapped) junk Hfile lines
             (Z.to_nat (size (iq (scan om)))) []
             (stream_at mapped (length prefix))
             (traversal_start (header om)) 0 (scan om)
             (wrap64 (Z.of_nat (length prefix) + 1)));
    try reflexivity; try assumption.
  - cbn [app]. lia.
  - cbn [app]. rewrite wrap64_small; [lia|]. unfold SIZE_MAX in Hfile. lia.
  - destruct Hend as [Hend|(Hjunk & Htidy)]; [left; lia|right].
    split; [assumption|]. split; [cbn; lia|].
    destruct Htidy as [Hextra|Htidy]; [left|now right].
    destruct (Z.ltb_spec 10 tokens); [|discriminate].
    destruct (Z.ltb_spec 8 tokens); [|lia].
    destruct (Z.ltb_spec 9 tokens); [|lia]. reflexivity.
Qed.

End PointLines.

(** The theorem at the sample header followed by four lines, for a map of
    two rows of two points. *)
Lemma decoders_agree_witness :
  let prefix := unlines (sample_header sample_phase "SqrGrid" "2" "2" "2") in
  let mapped := prefix ++ render_lines sample_point_lines [] in
  let om :=
    allocated (FM := lexeme_floats) 8 (map_of_grid GridType.Square 2 2 2) in
  readAngData (stream_at mapped (length prefix)) 8 om
  = readAngDataMemMap (OS := no_detail) (one_file "scan.ang" mapped)
      "scan.ang" (Z.of_nat (length prefix)) 8 om.
Proof.
  intros prefix mapped om.
  apply (decoders_agree (FM := lexeme_floats) (OS := no_detail)
           (one_file "scan.ang" mapped) "scan.ang" prefix sample_point_lines
           [] 8 om).
  - reflexivity.
  - discriminate.
  - vm_compute. reflexivity.
  - repeat constructor.
  - left. vm_compute. discriminate.
Defined.

(** C2 as stated fails on a data section whose lines do not hold one point
    each.  When the eight fields of the second point are split over two
    lines, the stream decoder takes each line for a point and returns
    three points; the decoder over the mapped file takes the two lines
    for one point and returns two. *)
Lemma decoders_differ_on_split_points :
  let fs := one_file "scan.ang" split_scan in
  exists tokens ins h om a b,
    readAngHeader (FM := lexeme_floats) (open_text split_scan)
      (header empty_map) = Return (tokens, ins, h) /\
    allocate tokens {| header := h; scan := scan empty_map |} = Return om /\
    readAngData ins tokens om = Return (3, a) /\
    readAngDataMemMap (OS := no_detail) fs "scan.ang" (fst (tellg ins))
      tokens om = Return (2, b) /\
    readAngData ins tokens om
    <> readAngDataMemMap (OS := no_detail) fs "scan.ang" (fst (tellg ins))
         tokens om.
Proof.
  intros fs. do 6 eexists.
  split; [vm_compute; reflexivity|].
  split; [vm_compute; reflexivity|].
  split; [vm_compute; reflexivity|].
  split; [vm_compute; reflexivity|].
  vm_compute. discriminate.
Qed.

(** ** The fuel of the header loop *)

Section Fuel.
Context `{FM : FloatModel}.

Lemma getline_scan_count room c s :
  is_newline c = false ->
  (1 <= snd (fst (getline_scan (S room) (c :: s))))%nat.
Proof.
  intros Hc. cbn [getline_scan]. rewrite Hc.
  destruct (getline_scan room s) as [[l k] stop]. cbn. lia.
Qed.

Lemma hash_not_newline c : is_hash c = true -> is_newline c = false.
Proof.
  unfold is_hash, is_newline.
  destruct (Z.eqb_spec (code c) 35), (Z.eqb_spec (code c) 10);
    congruence || lia.
Qed.

Lemma length_remaining_advance k e f ins :
  length (remaining (advance k e f ins)) = (length (remaining ins) - k)%nat.
Proof. rewrite remaining_advance. apply length_drop. Qed.

(** The header loop does not depend on its fuel once that covers the
    characters that remain: the turn that finds no fuel is not reached. *)
Lemma header_loop_fuel fuel1 fuel2 ins st :
  (length (remaining ins) <= fuel1)%nat ->
  (length (remaining ins) <= fuel2)%nat ->
  header_loop fuel1 ins st = header_loop fuel2 ins st.
Proof.
  revert fuel2 ins st.
  induction fuel1 as [|fuel1 IH]; intros fuel2 ins st H1 H2.
  - destruct (remaining ins) as [|c r] eqn:Hrem; [|cbn in H1; lia].
    destruct fuel2; cbn [header_loop]; unfold peek; rewrite Hrem;
      destruct (good ins); reflexivity.
  - destruct fuel2 as [|fuel2].
    + destruct (remaining ins) as [|c r] eqn:Hrem; [|cbn in H2; lia].
      cbn [header_loop]; unfold peek; rewrite Hrem;
        destruct (good ins); reflexivity.
    + cbn [header_loop]. unfold peek.
      destruct (good ins) eqn:Hgood; [|reflexivity].
      destruct (remaining ins) as [|c r] eqn:Hrem; [reflexivity|].
      cbn [from_option]. destruct (is_hash c) eqn:Hc; [|reflexivity].
      unfold getline. rewrite Hgood, Hrem.
      change (512 - 1)%nat with (S 510).
      pose proof (getline_scan_count 510 c r (hash_not_newline c Hc)) as Hk.
      destruct (getline_scan (S 510) (c :: r)) as [[l k] stop].
      cbn [fst snd] in Hk.
      destruct (parse_header_line l st); cbn [bind]; [|reflexivity..].
      apply IH; rewrite length_remaining_advance, Hrem; cbn [length] in *; lia.
Qed.

End Fuel.

(** * The reader at large *)

(** ** Streams at a position *)

Lemma good_stream_at bytes pos : good (stream_at bytes pos) = true.
Proof. reflexivity. Qed.

Lemma remaining_stream_at bytes pos :
  remaining (stream_at bytes pos) = drop pos bytes.
Proof. reflexivity. Qed.

Lemma getline_stream_at bytes pos l tail :
  drop pos bytes = l ++ nl :: tail ->
  no_newline l = true ->
  (length l <= 511)%nat ->
  getline 512 (stream_at bytes pos)
  = (l, stream_at bytes (pos + S (length l))).
Proof.
  intros Hrem Hl Hlen. unfold getline.
  rewrite good_stream_at, remaining_stream_at, Hrem.
  change (512 - 1)%nat with 511%nat.
  now rewrite getline_scan_line by assumption.
Qed.

Lemma drop_header_text_cons bytes pos l rest :
  drop pos bytes = l ++ nl :: rest ->
  drop (pos + S (length l)) bytes = rest.
Proof.
  intros H. rewrite <- drop_drop, H.
  change (l ++ nl :: rest) with (l ++ [nl] ++ rest).
  rewrite app_assoc.
  replace (S (length l)) with (length (l ++ [nl]))
    by (rewrite length_app; cbn; lia).
  apply drop_app_length.
Qed.

Lemma length_header_text_nil l ls :
  length (header_text (l :: ls) [])
  = (S (length l) + length (header_text ls []))%nat.
Proof. rewrite header_text_cons, length_app. cbn [length]. lia. Qed.

Section HeaderAt.
Context `{FM : FloatModel}.

(** The header loop over a header given by its lines: the lines are parsed
    in turn, and the stream is left where the data starts, having been
    peeked at. *)
Lemma header_loop_at lines rest bytes :
  Forall (fun l => is_header_line l = true) lines ->
  is_data_start rest = true ->
  forall pos fuel st,
    drop pos bytes = header_text lines rest ->
    (length lines <= fuel)%nat ->
    header_loop fuel (stream_at bytes pos) st
    = (st' <- parse_header_lines lines st ;;
       Return (snd (peek (stream_at bytes
                            (pos + length (header_text lines [])))), st'))%outcome.
Proof.
  intros Hlines Hrest.
  induction Hlines as [|l ls Hl Hls IH]; intros pos fuel st Hrem Hfuel.
  - cbn [parse_header_lines bind]. unfold header_text at 1. cbn [map concat length app].
    rewrite Nat.add_0_r.
    assert (Hpeek : from_option is_hash false
                      (fst (peek (stream_at bytes pos))) = false).
    { unfold peek. rewrite good_stream_at, remaining_stream_at, Hrem.
      unfold header_text. cbn [map concat app].
      destruct rest as [|c rest]; [reflexivity|].
      cbn [fst from_option]. cbn [is_data_start] in Hrest.
      now apply negb_true_iff. }
    destruct fuel; cbn [header_loop];
      destruct (peek (stream_at bytes pos)) as [c is1];
      cbn [fst snd] in *; now rewrite Hpeek.
  - rewrite header_text_cons in Hrem.
    destruct (is_header_line_inv l Hl) as ((c & l' & -> & Hc) & Hnl & Hlen).
    destruct fuel as [|fuel]; [cbn in Hfuel; lia|].
    cbn [header_loop parse_header_lines].
    unfold peek at 1.
    rewrite good_stream_at, remaining_stream_at, Hrem.
    cbn [from_option app]. rewrite Hc.
    rewrite (getline_stream_at bytes pos (c :: l') _ Hrem Hnl Hlen).
    destruct (parse_header_line (c :: l') st) as [st1| |]; cbn [bind];
      [|reflexivity..].
    rewrite IH.
    + rewrite length_header_text_nil.
      now replace (pos + S (length (c :: l')) + length (header_text ls []))%nat
        with (pos + (S (length (c :: l')) + length (header_text ls [])))%nat
        by lia.
    + eapply drop_header_text_cons. exact Hrem.
    + cbn [length] in Hfuel. lia.
Qed.

(** The header loop over the first lines of a header: they are parsed in
    turn and the loop goes on after them. *)
Lemma header_loop_prefix lines rest bytes :
  Forall (fun l => is_header_line l = true) lines ->
  forall pos fuel st,
    drop pos bytes = header_text lines rest ->
    (length lines <= fuel)%nat ->
    header_loop fuel (stream_at bytes pos) st
    = (st' <- parse_header_lines lines st ;;
       header_loop (fuel - length lines)
         (stream_at bytes (pos + length (header_text lines []))) st')%outcome.
Proof.
  intros Hlines.
  induction Hlines as [|l ls Hl Hls IH]; intros pos fuel st Hrem Hfuel.
  - cbn [parse_header_lines bind length]. unfold header_text.
    cbn [map concat length app]. now rewrite Nat.add_0_r, Nat.sub_0_r.
  - rewrite header_text_cons in Hrem.
    destruct (is_header_line_inv l Hl) as ((c & l' & -> & Hc) & Hnl & Hlen).
    destruct fuel as [|fuel]; [cbn in Hfuel; lia|].
    cbn [header_loop parse_header_lines].
    unfold peek at 1.
    rewrite good_stream_at, remaining_stream_at, Hrem.
    cbn [from_option app]. rewrite Hc.
    rewrite (getline_stream_at bytes pos (c :: l') _ Hrem Hnl Hlen).
    destruct (parse_header_line (c :: l') st) as [st1| |]; cbn [bind];
      [|reflexivity..].
    rewrite IH.
    + rewrite length_header_text_nil.
      replace (pos + S (length (c :: l')) + length (header_text ls []))%nat
        with (pos + (S (length (c :: l')) + length (header_text ls [])))%nat
        by lia.
      reflexivity.
    + eapply drop_header_text_cons. exact Hrem.
    + cbn [length] in Hfuel. lia.
Qed.

End HeaderAt.

(** ** Counting the columns *)

Lemma count_words_skip_space s : count_words (skip_space s) = count_words s.
Proof.
  unfold count_words. induction s as [|c s IH]; [reflexivity|].
  cbn [skip_space count_words_from].
  destruct (isspace c) eqn:Hc; [assumption|].
  cbn [count_words_from]. now rewrite Hc.
Qed.

Lemma count_words_from_stop r :
  stops r = true -> count_words_from true r = count_words_from false r.
Proof. destruct r as [|c r]; [reflexivity|]. cbn. now intros ->. Qed.

Lemma span_word_spec s :
  s = fst (span_word s) ++ snd (span_word s) /\
  stops (snd (span_word s)) = true /\
  count_words_from true s = count_words (snd (span_word s)).
Proof.
  induction s as [|c s (IH1 & IH2 & IH3)]; [now repeat split|].
  cbn [span_word]. destruct (isspace c) eqn:Hc.
  - cbn [fst snd app stops]. repeat split; [assumption|].
    unfold count_words. cbn [count_words_from]. now rewrite Hc.
  - destruct (span_word s) as [w r]. cbn [fst snd app] in *.
    repeat split; [congruence|assumption|].
    cbn [count_words_from]. rewrite Hc. lia.
Qed.

Lemma length_skip_space s : (length (skip_space s) <= length s)%nat.
Proof.
  induction s as [|c s IH]; cbn [skip_space length]; [lia|].
  destruct (isspace c); cbn [length]; lia.
Qed.

Lemma skip_space_head c r s : skip_space s = c :: r -> isspace c = false.
Proof.
  induction s as [|a s IH]; [discriminate|]. cbn [skip_space].
  destruct (isspace a) eqn:Ha; [assumption|]. now intros [= -> _].
Qed.

Lemma skip_space_suffix s :
  s = take (length s - length (skip_space s)) s ++ skip_space s.
Proof.
  induction s as [|c s IH]; [reflexivity|]. cbn [skip_space].
  destruct (isspace c).
  - pose proof (length_skip_space s).
    replace (length (c :: s) - length (skip_space s))%nat
      with (S (length s - length (skip_space s))) by (cbn [length]; lia).
    cbn [take app]. now rewrite <- IH.
  - now rewrite Nat.sub_diag.
Qed.

Lemma drop_skip_space s :
  drop (length s - length (skip_space s)) s = skip_space s.
Proof.
  pose proof (length_skip_space s) as Hlen.
  rewrite (skip_space_suffix s) at 3.
  rewrite drop_app_length'; [reflexivity|].
  rewrite length_take. lia.
Qed.

(** [while(iss >> token) tokenCount++;] counts the words that remain. *)
Lemma count_tokens_words fuel ins n :
  good ins = true ->
  (length (remaining ins) < fuel)%nat ->
  count_tokens fuel ins n = n + count_words (remaining ins).
Proof.
  revert ins n. induction fuel as [|fuel IH]; intros ins n Hgood Hfuel;
    [lia|].
  cbn [count_tokens]. unfold extract_word, sentry. rewrite Hgood.
  rewrite <- (count_words_skip_space (remaining ins)).
  pose proof (length_skip_space (remaining ins)) as Hskip.
  pose proof (drop_skip_space (remaining ins)) as Hdrop.
  destruct (skip_space (remaining ins)) as [|c r] eqn:Hr.
  - cbn [is_nil]. unfold count_words. cbn. lia.
  - cbn [is_nil].
    set (is1 := advance _ false false ins).
    assert (Hrem1 : remaining is1 = c :: r).
    { unfold is1. now rewrite remaining_advance. }
    rewrite Hrem1.
    pose proof (span_word_spec (c :: r)) as (Hsplit & Hstop & Hcount).
    pose proof (skip_space_head _ _ _ Hr) as Hc.
    destruct (span_word (c :: r)) as [w r'] eqn:Hspan.
    cbn [fst snd] in *.
    set (is2 := advance (length w) (is_nil r') false is1).
    assert (Hrem2 : remaining is2 = r').
    { unfold is2. rewrite remaining_advance, Hrem1, Hsplit.
      apply drop_app_length. }
    assert (Hwords : count_words (c :: r) = 1 + count_words r').
    { unfold count_words at 1. cbn [count_words_from]. rewrite Hc.
      cbn [span_word] in Hspan. rewrite Hc in Hspan.
      destruct (span_word r) as [w0 r0] eqn:Hspan0.
      injection Hspan as <- <-.
      pose proof (span_word_spec r) as (_ & _ & Hcount0).
      rewrite Hspan0 in Hcount0. cbn [snd] in Hcount0. lia. }
    rewrite Hwords.
    destruct r' as [|c' r''] eqn:Hr'.
    + (* the word ends the text: the stream is at its end *)
      destruct fuel as [|fuel']; [cbn in *; lia|].
      cbn [count_tokens]. unfold extract_word, sentry.
      assert (Hbad : good is2 = false).
      { unfold is2, good, advance. cbn. now rewrite orb_true_r. }
      rewrite Hbad. unfold count_words. cbn. lia.
    + rewrite IH.
      * rewrite Hrem2. lia.
      * unfold is2, is1, good, advance. cbn.
        unfold good in Hgood. now rewrite !orb_false_r.
      * rewrite Hrem2.
        assert (length (c :: r) = length w + length (c' :: r''))%nat
          by (rewrite Hsplit at 1; apply length_app).
        assert (1 <= length w)%nat.
        { cbn [span_word] in Hspan. rewrite Hc in Hspan.
          destruct (span_word r); injection Hspan as <- _. cbn; lia. }
        cbn [length] in *. lia.
Qed.

Lemma length_c_str s : (length (c_str s) <= length s)%nat.
Proof.
  induction s as [|c s IH]; cbn [c_str length]; [lia|].
  destruct (code c =? 0); cbn [length]; lia.
Qed.

(** The end of [readAngHeader] at a first line of data that fits the
    buffer: its words are counted and the stream is back at its start. *)
Lemma count_columns_at bytes pos line more :
  drop pos bytes = line ++ nl :: more ->
  no_newline line = true ->
  (length line <= 511)%nat ->
  count_columns (stream_at bytes pos)
  = (_ <- require (negb (count_words (c_str line) <? 8))
            (too_few_columns (count_words (c_str line))) ;;
     Return (count_words (c_str line), stream_at bytes pos))%outcome.
Proof.
  intros Hrem Hnl Hlen. unfold count_columns, tellg.
  rewrite good_stream_at. cbn [gpos stream_at fst snd].
  fold (stream_at bytes pos).
  rewrite (getline_stream_at bytes pos line more Hrem Hnl Hlen).
  rewrite count_tokens_words;
    [|reflexivity
     |pose proof (length_c_str line);
      change (remaining (open_text (c_str line))) with (c_str line); lia].
  change (remaining (open_text (c_str line))) with (c_str line).
  rewrite Z.add_0_l.
  assert (Hpos : (pos <= length bytes)%nat).
  { destruct (Nat.le_gt_cases pos (length bytes)) as [|Hgt]; [assumption|].
    rewrite drop_ge in Hrem by lia. now destruct line. }
  unfold seekg, stream_at. cbn [failbit content].
  destruct (Z.leb_spec 0 (Z.of_nat pos)); [|lia].
  destruct (Z.leb_spec (Z.of_nat pos) (Z.of_nat (length bytes))); [|lia].
  cbn [andb]. now rewrite Nat2Z.id.
Qed.

(** ** The end of the header *)

Lemma peek_stream_at bytes pos c r :
  drop pos bytes = c :: r ->
  peek (stream_at bytes pos) = (Some c, stream_at bytes pos).
Proof.
  intros Hrem. unfold peek. rewrite good_stream_at, remaining_stream_at, Hrem.
  reflexivity.
Qed.

Lemma drop_header_text lines rest :
  drop (length (header_text lines [])) (header_text lines rest) = rest.
Proof.
  unfold header_text. rewrite app_nil_r. apply drop_app_length.
Qed.

Lemma parse_header_lines_app `{FM : FloatModel} a b st :
  parse_header_lines (a ++ b) st
  = (st1 <- parse_header_lines a st ;; parse_header_lines b st1)%outcome.
Proof.
  revert st. induction a as [|l a IH]; intros st; [reflexivity|].
  cbn [app parse_header_lines].
  destruct (parse_header_line l st); cbn [bind]; [apply IH|reflexivity..].
Qed.

Section HeaderEnd.
Context `{FM : FloatModel}.

(** [readAngHeader] on a header given by its lines, followed by a first
    line of data that fits the buffer. *)
Lemma readAngHeader_data_line lines line more h :
  Forall (fun l => is_header_line l = true) lines ->
  is_data_start (line ++ nl :: more) = true ->
  no_newline line = true ->
  (length line <= 511)%nat ->
  readAngHeader (open_text (header_text lines (line ++ nl :: more))) h
  = (st <- parse_header_lines lines (header_start h) ;;
     _ <- check_final_phase st ;;
     _ <- check_header_values (seen st) ;;
     _ <- require (negb (count_words (c_str line) <? 8))
            (too_few_columns (count_words (c_str line))) ;;
     Return (count_words (c_str line),
             stream_at (header_text lines (line ++ nl :: more))
               (length (header_text lines [])),
             parsed st))%outcome.
Proof.
  intros Hlines Hrest Hnl Hlen.
  set (bytes := header_text lines (line ++ nl :: more)).
  assert (Hdrop : drop (length (header_text lines [])) bytes
                  = line ++ nl :: more) by apply drop_header_text.
  unfold readAngHeader.
  change (open_text bytes) with (stream_at bytes 0).
  fold (header_start h).
  rewrite (header_loop_at lines (line ++ nl :: more) bytes Hlines Hrest);
    [|reflexivity|apply length_header_text].
  cbn [Nat.add].
  destruct (parse_header_lines lines (header_start h)) as [st| |];
    cbn [bind]; [|reflexivity..].
  assert (Hpeek : snd (peek (stream_at bytes (length (header_text lines []))))
                  = stream_at bytes (length (header_text lines []))).
  { destruct (line ++ nl :: more) as [|c r] eqn:Hdata;
      [now destruct line|].
    now rewrite (peek_stream_at _ _ c r Hdrop). }
  rewrite Hpeek.
  destruct (check_final_phase st); cbn [bind]; [|reflexivity..].
  destruct (check_header_values (seen st)); cbn [bind]; [|reflexivity..].
  rewrite (count_columns_at _ _ line more Hdrop Hnl Hlen).
  destruct (require _ _); reflexivity.
Qed.

End HeaderEnd.

Section HeaderEndTheorems.
Context `{FM : FloatModel}.

(** X1.  When [readAngHeader] returns on a header given by its lines that
    is followed by a first line of data of at most 511 bytes, the number
    it returns is the number of words of that line, which is at least
    eight, and the stream is left at the first byte of the data: its
    position, which [readAng] passes on as the offset of the data, is the
    length of the header in bytes. *)
Theorem readAngHeader_leaves_data_start lines line more h n ins h' :
  Forall (fun l => is_header_line l = true) lines ->
  is_data_start (line ++ nl :: more) = true ->
  no_newline line = true ->
  (length line <= 511)%nat ->
  readAngHeader (open_text (header_text lines (line ++ nl :: more))) h
  = Return (n, ins, h') ->
  n = count_words (c_str line) /\
  8 <= n /\
  tellg ins = (Z.of_nat (length (header_text lines [])), ins) /\
  remaining ins = line ++ nl :: more.
Proof.
  intros Hlines Hrest Hnl Hlen Hread.
  rewrite readAngHeader_data_line in Hread by assumption.
  bind_inv Hread. bind_inv Hread. bind_inv Hread. bind_inv Hread.
  injection Hread as <- <- <-.
  apply require_Return in Ha2. apply negb_true_iff in Ha2.
  split; [reflexivity|]. split; [lia|]. split; [reflexivity|].
  rewrite remaining_stream_at. apply drop_header_text.
Qed.

(** X2.  A header given by its lines that [readAngHeader] accepts before
    some data is rejected before a first line of data with fewer than
    eight words, with the message that gives their number. *)
Theorem too_few_columns_rejected lines rest line more h r :
  Forall (fun l => is_header_line l = true) lines ->
  is_data_start rest = true ->
  readAngHeader (open_text (header_text lines rest)) h = Return r ->
  is_data_start (line ++ nl :: more) = true ->
  no_newline line = true ->
  (length line <= 511)%nat ->
  count_words (c_str line) < 8 ->
  readAngHeader (open_text (header_text lines (line ++ nl :: more))) h
  = Throw (too_few_columns (count_words (c_str line))).
Proof.
  intros Hlines Hrest Hread Hdata Hnl Hlen Hfew.
  destruct (readAngHeader_lines lines rest h Hlines Hrest) as (is1 & Heq).
  rewrite Heq in Hread. clear Heq.
  bind_inv Hread. bind_inv Hread. bind_inv Hread.
  rewrite readAngHeader_data_line by assumption.
  rewrite Ha. cbn [bind]. destruct a0, a1. rewrite Ha0, Ha1. cbn [bind].
  destruct (Z.ltb_spec (count_words (c_str line)) 8); [reflexivity|lia].
Qed.

(** X3.  A header given by its lines that [readAngHeader] accepts before
    some data is rejected when the file ends with it: no column is
    counted. *)
Theorem header_without_data_rejected lines rest h r :
  Forall (fun l => is_header_line l = true) lines ->
  is_data_start rest = true ->
  readAngHeader (open_text (header_text lines rest)) h = Return r ->
  readAngHeader (open_text (header_text lines [])) h
  = Throw (too_few_columns 0).
Proof.
  intros Hlines Hrest Hread.
  destruct (readAngHeader_lines lines rest h Hlines Hrest) as (is1 & Heq).
  rewrite Heq in Hread. clear Heq.
  bind_inv Hread. bind_inv Hread. bind_inv Hread. destruct a0, a1.
  unfold readAngHeader.
  set (bytes := header_text lines []).
  change (open_text bytes) with (stream_at bytes 0).
  fold (header_start h).
  rewrite (header_loop_at lines [] bytes Hlines eq_refl);
    [|reflexivity|apply length_header_text].
  rewrite Ha. cbn [bind Nat.add]. rewrite Ha0, Ha1. cbn [bind].
  unfold peek. rewrite good_stream_at, remaining_stream_at.
  fold bytes. rewrite drop_all. reflexivity.
Qed.

End HeaderEndTheorems.

Lemma readAngHeader_leaves_data_start_witness :
  let line := txt "  1.0 2.0 3.0 0.0 0.0 10.5 0.9 1" in
  let more := unlines (tail sample_points) in
  exists n ins h',
    readAngHeader (FM := lexeme_floats)
      (open_text (header_text sample_lines (line ++ nl :: more)))
      (header empty_map) = Return (n, ins, h') /\
    n = count_words (c_str line) /\
    8 <= n /\
    tellg ins = (Z.of_nat (length (header_text sample_lines [])), ins) /\
    remaining ins = line ++ nl :: more.
Proof.
  intros line more.
  do 3 eexists. split; [vm_compute; reflexivity|].
  eapply (readAngHeader_leaves_data_start (FM := lexeme_floats)
            sample_lines line more (header empty_map));
    [repeat constructor|reflexivity|reflexivity|vm_compute; lia
    |vm_compute; reflexivity].
Defined.

Lemma too_few_columns_rejected_witness :
  readAngHeader (FM := lexeme_floats)
    (open_text (header_text sample_lines (seven_columns ++ nl :: [])))
    (header empty_map)
  = Throw
      "unexpected number of ang values per point (got 7, expected at least 8)".
Proof.
  eapply (too_few_columns_rejected (FM := lexeme_floats) sample_lines
            (unlines sample_points) seven_columns [] (header empty_map)).
  - repeat constructor.
  - reflexivity.
  - vm_compute. reflexivity.
  - reflexivity.
  - reflexivity.
  - vm_compute. lia.
  - vm_compute. reflexivity.
Defined.

Lemma header_without_data_rejected_witness :
  readAngHeader (FM := lexeme_floats)
    (open_text (header_text sample_lines [])) (header empty_map)
  = Throw
      "unexpected number of ang values per point (got 0, expected at least 8)".
Proof.
  eapply (header_without_data_rejected (FM := lexeme_floats) sample_lines
            (unlines sample_points) (header empty_map)).
  - repeat constructor.
  - reflexivity.
  - vm_compute. reflexivity.
Defined.

(** ** Lines that do not fit the buffer *)

Lemma getline_scan_full room s :
  no_newline (take (S room) s) = true ->
  (room < length s)%nat ->
  getline_scan room s = (take room s, room, HitFull).
Proof.
  revert s. induction room as [|room IH]; intros [|c s] Hnl Hlen;
    try (cbn in Hlen; lia).
  - cbn [take no_newline forallb] in Hnl. apply andb_prop in Hnl.
    destruct Hnl as [Hc _]. apply negb_true_iff in Hc.
    cbn [getline_scan take]. now rewrite Hc.
  - change (take (S (S room)) (c :: s)) with (c :: take (S room) s) in Hnl.
    cbn [no_newline forallb] in Hnl. apply andb_prop in Hnl.
    destruct Hnl as [Hc Hnl]. apply negb_true_iff in Hc.
    cbn [getline_scan take]. rewrite Hc.
    rewrite IH; [reflexivity|exact Hnl|cbn in Hlen; lia].
Qed.

Lemma no_newline_take n s : no_newline s = true -> no_newline (take n s) = true.
Proof.
  revert n. induction s as [|c s IH]; intros [|n]; try reflexivity.
  cbn [take no_newline forallb]. intros H. apply andb_prop in H.
  destruct H as [-> H]. cbn [andb]. now apply IH.
Qed.

Lemma length_header_text_app lines rest :
  length (header_text lines rest)
  = (length (header_text lines []) + length rest)%nat.
Proof. unfold header_text. now rewrite app_nil_r, length_app. Qed.

Section HeaderErrors.
Context `{FM : FloatModel}.

(** X4.  A header line of 512 bytes or more is never accepted.  Its first
    511 bytes are parsed as a line and the stream fails, which ends the
    header; when the checks at the end of the header pass, the column
    count that follows finds no column. *)
Theorem long_header_line_rejected before l rest h :
  Forall (fun l => is_header_line l = true) before ->
  from_option is_hash false (head l) = true ->
  no_newline l = true ->
  (512 <= length l)%nat ->
  readAngHeader (open_text (header_text before (l ++ rest))) h
  = (st <- parse_header_lines (before ++ [take 511 l]) (header_start h) ;;
     _ <- check_final_phase st ;;
     _ <- check_header_values (seen st) ;;
     Throw (too_few_columns 0))%outcome /\
  returns (readAngHeader (open_text (header_text before (l ++ rest))) h)
  = false.
Proof.
  intros Hlines Hhash Hnl Hlen.
  assert (Heq : readAngHeader (open_text (header_text before (l ++ rest))) h
                = (st <- parse_header_lines (before ++ [take 511 l])
                           (header_start h) ;;
                   _ <- check_final_phase st ;;
                   _ <- check_header_values (seen st) ;;
                   Throw (too_few_columns 0))%outcome).
  { set (bytes := header_text before (l ++ rest)).
    assert (Hdrop : drop (length (header_text before [])) bytes = l ++ rest)
      by apply drop_header_text.
    unfold readAngHeader.
    change (open_text bytes) with (stream_at bytes 0).
    fold (header_start h).
    change (remaining (stream_at bytes 0)) with bytes.
    pose proof (length_header_text before []) as Hshort.
    assert (Hbytes : (length before + 512 <= length bytes)%nat).
    { unfold bytes. rewrite length_header_text_app, length_app. lia. }
    rewrite (header_loop_prefix before (l ++ rest) bytes Hlines);
      [|reflexivity|lia].
    cbn [Nat.add]. rewrite parse_header_lines_app.
    destruct (parse_header_lines before (header_start h)) as [st| |];
      cbn [bind]; [|reflexivity..].
    destruct (length bytes - length before)%nat as [|fuel] eqn:Hfuel; [lia|].
    destruct l as [|c l']; [discriminate|]. cbn [head from_option] in Hhash.
    cbn [header_loop parse_header_lines]. unfold peek at 1.
    rewrite good_stream_at, remaining_stream_at, Hdrop.
    cbn [app from_option]. rewrite Hhash.
    unfold getline. rewrite good_stream_at, remaining_stream_at, Hdrop.
    change (512 - 1)%nat with 511%nat.
    rewrite getline_scan_full;
      [|rewrite take_app_le by lia; now apply no_newline_take
       |rewrite length_app; lia].
    rewrite take_app_le by lia.
    destruct (parse_header_line (take 511 (c :: l')) st) as [st1| |];
      cbn [bind]; [|reflexivity..].
    assert (Hend : forall f ins,
               good ins = false ->
               header_loop f ins st1 = Return (setstate_fail ins, st1)).
    { intros f ins Hbad. destruct f; cbn [header_loop]; unfold peek;
        now rewrite Hbad. }
    rewrite Hend by reflexivity. cbn [bind].
    destruct (check_final_phase st1); cbn [bind]; [|reflexivity..].
    destruct (check_header_values (seen st1)); cbn [bind]; reflexivity. }
  split; [exact Heq|]. rewrite Heq.
  destruct (parse_header_lines _ _) as [st| |]; cbn [bind]; [|reflexivity..].
  destruct (check_final_phase st); cbn [bind]; [|reflexivity..].
  destruct (check_header_values (seen st)); reflexivity.
Qed.

Lemma unknown_key_line l st token :
  first_word l = Some token ->
  known_key token = false ->
  parse_header_line l st
  = Throw ("unknown ang header keyword '" ++ str token ++ "'").
Proof.
  unfold first_word, parse_header_line, known_key, header_keys.
  destruct (extract_word (open_text (c_str (drop 1 l)))) as [w iss].
  cbn [fst]. intros -> H. cbn [existsb] in H.
  repeat (apply orb_false_elim in H;
          let E := fresh "E" in destruct H as [H E]).
  repeat match goal with
         | E : _ || _ = false |- _ =>
             apply orb_false_elim in E;
             let E' := fresh "E" in destruct E as [E E']
         end.
  repeat match goal with
         | E : is_key token _ = false |- _ => rewrite E; clear E
         end.
  match goal with
  | E : text_eqb _ _ = false |- _ => now rewrite E
  end.
Qed.

(** X5.  A header line whose first word is none of the keywords of the
    header, and does not start with [Categories], makes [readAngHeader]
    throw the message that quotes the word, whatever follows the line,
    when the lines before it are parsed without error. *)
Theorem unknown_keyword_rejected before l after rest h st token :
  Forall (fun l => is_header_line l = true) (before ++ l :: after) ->
  is_data_start rest = true ->
  parse_header_lines before (header_start h) = Return st ->
  first_word l = Some token ->
  known_key token = false ->
  readAngHeader (open_text (header_text (before ++ l :: after) rest)) h
  = Throw ("unknown ang header keyword '" ++ str token ++ "'").
Proof.
  intros Hlines Hrest Hbefore Hword Hkey.
  destruct (readAngHeader_lines _ rest h Hlines Hrest) as (is1 & ->).
  rewrite parse_header_lines_app, Hbefore. cbn [bind parse_header_lines].
  now rewrite (unknown_key_line l st token).
Qed.

Context `{OS : SystemError}.

(** X6.  An ang file that does not start with [#] has no header: [read]
    into a map without phases throws the message for the first of the
    mandatory keys. *)
Theorem headerless_file_rejected fs fileName om bytes :
  getFileType fileName = FileType.Ang ->
  fs fileName = Some bytes ->
  is_data_start bytes = true ->
  phaseList (header om) = [] ->
  read fs fileName om = Throw "missing ang header value TEM_PIXperUM".
Proof.
  intros Htype Hfs Hdata Hphases.
  unfold read, readAng. rewrite Htype, Hfs.
  destruct (readAngHeader_lines [] bytes (header om) ltac:(constructor) Hdata)
    as (is1 & Heq).
  change (header_text [] bytes) with bytes in Heq. rewrite Heq.
  cbn [parse_header_lines bind].
  unfold check_final_phase, families_exceed, header_start.
  cbn [current parsed]. rewrite Hphases. reflexivity.
Qed.

End HeaderErrors.

Lemma long_header_line_rejected_witness :
  returns
    (readAngHeader (FM := lexeme_floats)
       (open_text (header_text (take 5 sample_lines)
                     (long_line ++ nl :: unlines sample_points)))
       (header empty_map))
  = false.
Proof.
  eapply proj2.
  eapply (long_header_line_rejected (FM := lexeme_floats)
            (take 5 sample_lines) long_line).
  - repeat constructor.
  - reflexivity.
  - reflexivity.
  - vm_compute. lia.
Defined.

Lemma unknown_keyword_rejected_witness :
  readAngHeader (FM := lexeme_floats)
    (open_text
       (header_text (take 5 sample_lines ++ txt "# NOTES: none"
                     :: drop 5 sample_lines) (unlines sample_points)))
    (header empty_map)
  = Throw "unknown ang header keyword 'NOTES:'".
Proof.
  eapply (unknown_keyword_rejected (FM := lexeme_floats)
            (take 5 sample_lines) (txt "# NOTES: none")
            (drop 5 sample_lines) (unlines sample_points)
            (header empty_map) _ (txt "NOTES:")).
  - repeat constructor.
  - reflexivity.
  - vm_compute. reflexivity.
  - reflexivity.
  - reflexivity.
Defined.

Lemma headerless_file_rejected_witness :
  read (FM := lexeme_floats) (OS := no_detail)
    (one_file "scan.ang" (unlines sample_points)) "scan.ang" empty_map
  = Throw "missing ang header value TEM_PIXperUM".
Proof.
  apply (headerless_file_rejected (FM := lexeme_floats) (OS := no_detail)
           (one_file "scan.ang" (unlines sample_points)) "scan.ang"
           empty_map (unlines sample_points));
    reflexivity.
Defined.

Ltac key_cases :=
  repeat match goal with
    | |- context [if is_key ?t ?s then _ else _] =>
        let E := fresh "E" in
        destruct (is_key t s) eqn:E; [try congruence; try reflexivity|]
    end.

Section HeaderInvariants.
Context `{FM : FloatModel}.

Lemma parse_header_line_sets_flag k line st st' :
  has_key k line = true ->
  parse_header_line line st = Return st' ->
  seen_flag k (seen st') = true.
Proof.
  unfold has_key, parse_header_line.
  destruct (extract_word (open_text (c_str (drop 1 line)))) as [[token|] iss];
    [|discriminate].
  intros Hk. apply text_eqb_eq in Hk. subst token.
  destruct k; cbn [key_text]; now intros [= <-].
Qed.

Lemma parse_header_lines_flag k lines st st' :
  parse_header_lines lines st = Return st' ->
  seen_flag k (seen st') = seen_flag k (seen st) || existsb (has_key k) lines.
Proof.
  revert st. induction lines as [|l ls IH]; intros st;
    cbn [parse_header_lines existsb].
  - intros [= <-]. now rewrite orb_false_r.
  - intros H. bind_inv H. rewrite (IH _ H).
    destruct (has_key k l) eqn:Hk.
    + rewrite (parse_header_line_sets_flag k l st a Hk Ha).
      now rewrite orb_true_r.
    + now rewrite (parse_header_line_flag k l st a Hk Ha).
Qed.

(** X7.  A header given by its lines is accepted only if each of the
    fourteen mandatory keys is the first word of one of its lines. *)
Theorem accepted_header_has_every_key lines rest h r k :
  Forall (fun l => is_header_line l = true) lines ->
  is_data_start rest = true ->
  readAngHeader (open_text (header_text lines rest)) h = Return r ->
  existsb (has_key k) lines = true.
Proof.
  intros Hlines Hrest Hread.
  destruct (readAngHeader_lines lines rest h Hlines Hrest) as (is1 & Heq).
  rewrite Heq in Hread. clear Heq.
  bind_inv Hread. bind_inv Hread. bind_inv Hread. destruct a0, a1.
  pose proof (check_header_values_Return _ Ha1 k) as Hflag.
  rewrite (parse_header_lines_flag k lines _ _ Ha) in Hflag.
  destruct k; exact Hflag.
Qed.

(** The phases and their numbers *)

Lemma last_removelast {A : Type} (l : list A) p :
  last l = Some p -> l = removelast l ++ [p].
Proof.
  intros H. apply last_Some in H. destruct H as (l' & ->).
  now rewrite removelast_last.
Qed.

Lemma with_back_nums f st st' :
  (forall p, num (f p) = num p) ->
  with_back f st = Return st' ->
  map num (phaseList (parsed st')) = map num (phaseList (parsed st)).
Proof.
  intros Hf. unfold with_back, update_back.
  destruct (last (phaseList (parsed st))) as [p|] eqn:Hlast; [|discriminate].
  cbn [bind]. intros [= <-]. cbn [parsed].
  rewrite (last_removelast _ _ Hlast) at 2.
  change (phaseList (set_phaseList ?l _)) with l.
  rewrite !map_app. cbn [map]. now rewrite Hf.
Qed.

Lemma parse_header_line_nums l st st' :
  parse_header_line l st = Return st' ->
  map num (phaseList (parsed st'))
  = map num (phaseList (parsed st)) ++ from_option (fun n => [n]) [] (phase_number l).
Proof.
  unfold parse_header_line, phase_number.
  destruct (extract_word (open_text (c_str (drop 1 l)))) as [[token|] iss];
    [|intros [= <-]; now rewrite app_nil_r].
  destruct (is_key token "Phase") eqn:Ephase.
  { apply text_eqb_eq in Ephase. subst token.
    change (is_key (txt "Phase") "Phase") with true. cbv iota.
    intros H. bind_inv H. injection H as <-. cbn [parsed from_option].
    change (phaseList (set_phaseList ?l _)) with l.
    now rewrite map_app. }
  cbn [from_option]. rewrite app_nil_r.
  key_cases;
    try (intros [= <-]; reflexivity);
    repeat match goal with
      | |- context [if ?b then _ else _] => destruct b
      end;
    try discriminate;
    intros H;
    first [ apply with_back_nums in H; [exact H|]
          | bind_inv H; injection H as <-;
            match goal with
            | Hb : with_back _ _ = Return _ |- _ =>
                apply with_back_nums in Hb; [exact Hb|]
            end ];
    intros p; try reflexivity;
    unfold extract_categories; destruct (tellg iss); reflexivity.
Qed.

Lemma parse_header_lines_nums lines st st' :
  parse_header_lines lines st = Return st' ->
  map num (phaseList (parsed st'))
  = map num (phaseList (parsed st)) ++ omap phase_number lines.
Proof.
  revert st. induction lines as [|l ls IH]; intros st;
    cbn [parse_header_lines omap].
  - intros [= <-]. now rewrite app_nil_r.
  - intros H. bind_inv H.
    rewrite (IH _ H), (parse_header_line_nums _ _ _ Ha), <- app_assoc.
    f_equal. unfold omap, list_omap. cbn. now destruct (phase_number l).
Qed.

Lemma with_back_take f st st' m :
  with_back f st = Return st' ->
  (m < length (phaseList (parsed st)))%nat ->
  take m (phaseList (parsed st')) = take m (phaseList (parsed st)).
Proof.
  unfold with_back, update_back.
  destruct (last (phaseList (parsed st))) as [p|] eqn:Hlast; [|discriminate].
  cbn [bind]. intros [= <-] Hm. cbn [parsed].
  change (phaseList (set_phaseList ?l _)) with l.
  rewrite (last_removelast _ _ Hlast) in Hm |- * at 2.
  rewrite length_app in Hm. cbn [length] in Hm.
  now rewrite !take_app_le by lia.
Qed.

Lemma parse_header_line_take l st st' m :
  parse_header_line l st = Return st' ->
  (m < length (phaseList (parsed st)))%nat ->
  take m (phaseList (parsed st')) = take m (phaseList (parsed st)).
Proof.
  unfold parse_header_line.
  destruct (extract_word (open_text (c_str (drop 1 l)))) as [[token|] iss];
    [|now intros [= <-]].
  destruct (is_key token "Phase") eqn:Ephase.
  { apply text_eqb_eq in Ephase. subst token.
    change (is_key (txt "Phase") "Phase") with true. cbv iota.
    intros H Hm. bind_inv H. injection H as <-. cbn [parsed].
    change (phaseList (set_phaseList ?l _)) with l.
    apply take_app_le. lia. }
  key_cases;
    try (intros [= <-]; reflexivity);
    repeat match goal with
      | |- context [if ?b then _ else _] => destruct b
      end;
    try discriminate;
    intros H Hm;
    first [ now apply (with_back_take _ _ _ _ H)
          | bind_inv H; injection H as <-;
            match goal with
            | Hb : with_back _ _ = Return _ |- _ =>
                now apply (with_back_take _ _ _ _ Hb)
            end ].
Qed.

Lemma parse_header_lines_take lines st st' m :
  parse_header_lines lines st = Return st' ->
  (m < length (phaseList (parsed st)))%nat ->
  take m (phaseList (parsed st')) = take m (phaseList (parsed st)).
Proof.
  revert st. induction lines as [|l ls IH]; intros st;
    cbn [parse_header_lines].
  - now intros [= <-].
  - intros H Hm. bind_inv H.
    rewrite <- (parse_header_line_take l st a m Ha Hm).
    apply (IH a H).
    pose proof (parse_header_line_nums _ _ _ Ha) as Hnums.
    apply (f_equal (@length Z)) in Hnums.
    rewrite length_app, !length_map in Hnums. lia.
Qed.

(** X8.  The header that [readAngHeader] returns has the phases that the
    map had before, followed by one phase for each [Phase] line: the
    numbers of its phases are those of the earlier phases followed by the
    numbers that the [Phase] lines give, in the order of the lines, and
    every earlier phase but the last is as it was.  The last of the
    earlier phases keeps its number, while its other members are
    overwritten by the keys of a phase that come before the first [Phase]
    line. *)
Theorem phases_in_file_order lines rest h n ins h' :
  Forall (fun l => is_header_line l = true) lines ->
  is_data_start rest = true ->
  readAngHeader (open_text (header_text lines rest)) h = Return (n, ins, h') ->
  map num (phaseList h') = map num (phaseList h) ++ omap phase_number lines /\
  take (length (phaseList h) - 1) (phaseList h')
  = take (length (phaseList h) - 1) (phaseList h).
Proof.
  intros Hlines Hrest Hread.
  destruct (readAngHeader_lines lines rest h Hlines Hrest) as (is1 & Heq).
  rewrite Heq in Hread. clear Heq.
  bind_inv Hread. bind_inv Hread. bind_inv Hread. bind_inv Hread.
  injection Hread as _ _ <-.
  split; [apply (parse_header_lines_nums _ _ _ Ha)|].
  destruct (phaseList h) as [|p ps] eqn:Hold; [reflexivity|].
  rewrite <- Hold.
  apply (parse_header_lines_take lines (header_start h) a _ Ha).
  cbn [header_start parsed]. rewrite Hold. cbn [length]. lia.
Qed.

End HeaderInvariants.

Lemma accepted_header_has_every_key_witness :
  existsb (has_key NROWS) sample_lines = true.
Proof.
  eapply (accepted_header_has_every_key (FM := lexeme_floats) sample_lines
            (unlines sample_points) (header empty_map)).
  - repeat constructor.
  - reflexivity.
  - vm_compute. reflexivity.
Defined.

Lemma phases_in_file_order_witness :
  exists n ins h',
    readAngHeader (FM := lexeme_floats)
      (open_text (header_text two_phase_lines (unlines sample_points)))
      (header empty_map) = Return (n, ins, h') /\
    map num (phaseList h') = [1; 2].
Proof.
  do 3 eexists. split; [vm_compute; reflexivity|].
  eapply proj1.
  eapply (phases_in_file_order (FM := lexeme_floats) two_phase_lines
            (unlines sample_points) (header empty_map)).
  - repeat constructor.
  - reflexivity.
  - vm_compute. reflexivity.
Defined.

Section PhaseKeys.
Context `{FM : FloatModel}.

Lemma with_back_no_phase f st :
  phaseList (parsed st) = [] -> with_back f st = Undefined.
Proof. unfold with_back, update_back. now intros ->. Qed.

Lemma phase_key_line l st token :
  first_word l = Some token ->
  phase_key token = true ->
  phaseList (parsed st) = [] ->
  parse_header_line l st = Undefined.
Proof.
  unfold first_word, parse_header_line.
  destruct (extract_word (open_text (c_str (drop 1 l)))) as [w iss].
  cbn [fst]. intros -> Hkey Hempty.
  key_cases;
    try (match goal with
         | Et : is_key token _ = true |- _ =>
             apply text_eqb_eq in Et; subst token; vm_compute in Hkey;
             discriminate Hkey
         end);
    rewrite ?with_back_no_phase by assumption; try reflexivity.
  - now destruct (_ <? 6).
  - unfold phase_key, phase_keys in Hkey. cbn [existsb] in Hkey.
    repeat match goal with
           | E : is_key token _ = false |- _ => rewrite E in Hkey; clear E
           end.
    cbn [orb] in Hkey. now rewrite Hkey.
Qed.

(** X9.  The keys of a phase update the last phase of the list.  In a
    header read into a map without phases, such a key on a line that no
    [Phase] line precedes refers to the last element of an empty vector:
    the behaviour of [readAngHeader] is undefined, whatever follows. *)
Theorem phase_key_before_phase_undefined before l after rest h st token :
  Forall (fun l => is_header_line l = true) (before ++ l :: after) ->
  is_data_start rest = true ->
  phaseList h = [] ->
  parse_header_lines before (header_start h) = Return st ->
  omap phase_number before = [] ->
  first_word l = Some token ->
  phase_key token = true ->
  readAngHeader (open_text (header_text (before ++ l :: after) rest)) h
  = Undefined.
Proof.
  intros Hlines Hrest Hempty Hbefore Hnone Hword Hkey.
  destruct (readAngHeader_lines _ rest h Hlines Hrest) as (is1 & ->).
  rewrite parse_header_lines_app, Hbefore. cbn [bind parse_header_lines].
  rewrite (phase_key_line l st token); [reflexivity|assumption..|].
  pose proof (parse_header_lines_nums _ _ _ Hbefore) as Hnums.
  rewrite Hnone in Hnums. cbn [header_start parsed] in Hnums.
  rewrite Hempty in Hnums. cbn in Hnums.
  now destruct (phaseList (parsed st)).
Qed.

End PhaseKeys.

Lemma phase_key_before_phase_undefined_witness :
  readAngHeader (FM := lexeme_floats)
    (open_text
       (header_text (take 6 sample_lines ++ drop 7 sample_lines)
          (unlines sample_points)))
    (header empty_map)
  = Undefined.
Proof.
  eapply (phase_key_before_phase_undefined (FM := lexeme_floats)
            (take 6 sample_lines) (txt "# MaterialName  	Nickel")
            (drop 8 sample_lines) (unlines sample_points)
            (header empty_map) _ (txt "MaterialName")).
  - repeat constructor.
  - reflexivity.
  - reflexivity.
  - vm_compute. reflexivity.
  - reflexivity.
  - reflexivity.
  - reflexivity.
Defined.

(** ** Blank lines *)

Lemma skip_space_all_space s : all_space s = true -> skip_space s = [].
Proof.
  induction s as [|c s IH]; [reflexivity|]. cbn [all_space forallb skip_space].
  intros H. apply andb_prop in H. destruct H as [-> H]. now apply IH.
Qed.

Lemma extract_word_all_space s :
  all_space s = true -> fst (extract_word (open_text s)) = None.
Proof.
  intros H. unfold extract_word, sentry.
  change (good (open_text s)) with true.
  change (remaining (open_text s)) with s.
  now rewrite (skip_space_all_space s H).
Qed.

Section BlankLines.
Context `{FM : FloatModel}.

Lemma blank_line_skipped l st :
  blank_line l = true -> parse_header_line l st = Return st.
Proof.
  intros H. unfold parse_header_line.
  pose proof (extract_word_all_space _ H) as Hword.
  destruct (extract_word (open_text (c_str (drop 1 l)))) as [w iss].
  cbn [fst] in Hword. now subst w.
Qed.

Lemma parse_header_lines_blank lines st :
  parse_header_lines (filter (fun l => blank_line l = false) lines) st
  = parse_header_lines lines st.
Proof.
  revert st. induction lines as [|l ls IH]; intros st; [reflexivity|].
  rewrite filter_cons. cbn [parse_header_lines].
  destruct (blank_line l) eqn:Hl.
  - rewrite decide_False by discriminate.
    rewrite (blank_line_skipped l st Hl). cbn [bind]. apply IH.
  - rewrite decide_True by reflexivity. cbn [parse_header_lines].
    destruct (parse_header_line l st); cbn [bind]; [apply IH|reflexivity..].
Qed.

(** X10.  Header lines that hold nothing but white space after the [#]
    have no effect: before a first line of data that fits the buffer,
    [readAngHeader] gives the same number of columns and the same header,
    or the same failure, with and without them. *)
Theorem blank_lines_ignored lines line more h :
  Forall (fun l => is_header_line l = true) lines ->
  is_data_start (line ++ nl :: more) = true ->
  no_newline line = true ->
  (length line <= 511)%nat ->
  outcome_map (fun r => (fst (fst r), snd r))
    (readAngHeader
       (open_text (header_text (filter (fun l => blank_line l = false) lines)
                     (line ++ nl :: more))) h)
  = outcome_map (fun r => (fst (fst r), snd r))
      (readAngHeader (open_text (header_text lines (line ++ nl :: more))) h).
Proof.
  intros Hlines Hrest Hnl Hlen.
  assert (Hlines' : Forall (fun l => is_header_line l = true)
                      (filter (fun l => blank_line l = false) lines)).
  { apply Forall_forall. intros l Hin.
    apply list_elem_of_filter in Hin. destruct Hin as [_ Hin].
    rewrite Forall_forall in Hlines. auto. }
  rewrite !readAngHeader_data_line by assumption.
  rewrite parse_header_lines_blank.
  destruct (parse_header_lines lines (header_start h)) as [st| |];
    cbn [bind outcome_map]; [|reflexivity..].
  destruct (check_final_phase st); cbn [bind outcome_map]; [|reflexivity..].
  destruct (check_header_values (seen st)); cbn [bind outcome_map];
    [|reflexivity..].
  destruct (require _ _); reflexivity.
Qed.

End BlankLines.

Lemma blank_lines_ignored_witness :
  let line := txt "  1.0 2.0 3.0 0.0 0.0 10.5 0.9 1" in
  let more := unlines (tail sample_points) in
  outcome_map (fun r => (fst (fst r), snd r))
    (readAngHeader (FM := lexeme_floats)
       (open_text
          (header_text (filter (fun l => blank_line l = false) sample_lines)
             (line ++ nl :: more))) (header empty_map))
  = outcome_map (fun r => (fst (fst r), snd r))
      (readAngHeader (FM := lexeme_floats)
         (open_text (header_text sample_lines (line ++ nl :: more)))
         (header empty_map)).
Proof.
  intros line more.
  apply (blank_lines_ignored (FM := lexeme_floats) sample_lines line more
           (header empty_map)).
  - repeat constructor.
  - reflexivity.
  - reflexivity.
  - vm_compute. lia.
Defined.

(** ** The rows of elastic constants *)

Section ElasticRows.
Context `{FM : FloatModel}.

Lemma with_back_current f st st' :
  with_back f st = Return st' -> current st' = current st.
Proof.
  unfold with_back. intros H. apply bind_Return in H.
  destruct H as (h & _ & [= <-]). reflexivity.
Qed.

Lemma phase_line_resets l st st' :
  has_word "Phase" l = true ->
  parse_header_line l st = Return st' ->
  phaseElasticCount (current st') = 0.
Proof.
  unfold has_word, first_word, parse_header_line.
  destruct (extract_word (open_text (c_str (drop 1 l)))) as [[token|] iss];
    cbn [fst]; [|discriminate].
  intros Hk. apply text_eqb_eq in Hk. subst token.
  change (is_key (txt "Phase") "Phase") with true. cbv iota.
  intros H. bind_inv H. now injection H as <-.
Qed.

Lemma elastic_line_counts l st st' :
  has_word "ElasticConstants" l = true ->
  parse_header_line l st = Return st' ->
  phaseElasticCount (current st) < 6 /\
  phaseElasticCount (current st')
  = wrap64 (phaseElasticCount (current st) + 1).
Proof.
  unfold has_word, first_word, parse_header_line.
  destruct (extract_word (open_text (c_str (drop 1 l)))) as [[token|] iss];
    cbn [fst]; [|discriminate].
  intros Hk. apply text_eqb_eq in Hk. subst token.
  change (is_key (txt "ElasticConstants") "ElasticConstants") with true.
  cbv iota.
  destruct (Z.ltb_spec (phaseElasticCount (current st)) 6) as [Hlt|Hge];
    [|discriminate].
  intros H. bind_inv H. injection H as <-.
  cbn. now split.
Qed.

Lemma other_line_keeps_count l st st' :
  has_word "Phase" l = false ->
  has_word "ElasticConstants" l = false ->
  parse_header_line l st = Return st' ->
  phaseElasticCount (current st') = phaseElasticCount (current st).
Proof.
  unfold has_word, first_word, parse_header_line.
  destruct (extract_word (open_text (c_str (drop 1 l)))) as [[token|] iss];
    cbn [fst]; [|now intros _ _ [= <-]].
  intros Hphase Helastic. rewrite Hphase, Helastic.
  key_cases;
    try (intros [= <-]; reflexivity);
    repeat match goal with
      | |- context [if ?b then _ else _] => destruct b
      end;
    try discriminate;
    intros H;
    first [ apply with_back_current in H; now rewrite H
          | bind_inv H; injection H as <-;
            match goal with
            | Hb : with_back _ _ = Return _ |- _ =>
                apply with_back_current in Hb; cbn; now rewrite Hb
            end ].
Qed.

Lemma count_key_cons key l ls :
  count_key key (l :: ls)
  = ((if has_word key l then 1 else 0) + count_key key ls)%nat.
Proof.
  unfold count_key. rewrite filter_cons.
  destruct (has_word key l).
  - now rewrite decide_True by reflexivity.
  - now rewrite decide_False by discriminate.
Qed.

Lemma elastic_rows_counted seg st st' :
  parse_header_lines seg st = Return st' ->
  count_key "Phase" seg = 0%nat ->
  0 <= phaseElasticCount (current st) <= 6 ->
  phaseElasticCount (current st')
  = phaseElasticCount (current st)
    + Z.of_nat (count_key "ElasticConstants" seg) /\
  phaseElasticCount (current st') <= 6.
Proof.
  revert st. induction seg as [|l ls IH]; intros st;
    cbn [parse_header_lines].
  - intros [= <-] _ Hc. cbn. lia.
  - intros H Hphase Hc. bind_inv H.
    rewrite count_key_cons in Hphase. rewrite count_key_cons.
    destruct (has_word "Phase" l) eqn:Hp; [lia|].
    destruct (has_word "ElasticConstants" l) eqn:He.
    + destruct (elastic_line_counts l st a He Ha) as [Hlt Hnext].
      rewrite wrap64_small in Hnext by lia.
      destruct (IH a H ltac:(lia) ltac:(lia)) as [Hcount Hle].
      lia.
    + pose proof (other_line_keeps_count l st a Hp He Ha) as Hsame.
      destruct (IH a H ltac:(lia) ltac:(lia)) as [Hcount Hle].
      lia.
Qed.

Lemma elastic_line_past_array l st :
  has_word "ElasticConstants" l = true ->
  phaseElasticCount (current st) = 6 ->
  parse_header_line l st = Undefined.
Proof.
  unfold has_word, first_word, parse_header_line.
  destruct (extract_word (open_text (c_str (drop 1 l)))) as [[token|] iss];
    cbn [fst]; [|discriminate].
  intros Hk Hsix. apply text_eqb_eq in Hk. subst token.
  change (is_key (txt "ElasticConstants") "ElasticConstants") with true.
  cbv iota. now rewrite Hsix.
Qed.

(** X11.  The elastic constants of a phase are an array of six rows, and
    each [ElasticConstants] line fills the next row.  When six such lines
    have followed a [Phase] line, with no other [Phase] line among them,
    and the header has been parsed without error so far, a seventh
    [ElasticConstants] line is read into elements 36 to 41 of the array of
    36: the behaviour of [readAngHeader] is undefined, whatever follows
    the line. *)
Theorem seventh_elastic_row_undefined before p seg l after rest h st :
  Forall (fun l => is_header_line l = true)
    (before ++ p :: seg ++ l :: after) ->
  is_data_start rest = true ->
  has_word "Phase" p = true ->
  count_key "Phase" seg = 0%nat ->
  count_key "ElasticConstants" seg = 6%nat ->
  has_word "ElasticConstants" l = true ->
  parse_header_lines (before ++ p :: seg) (header_start h) = Return st ->
  readAngHeader
    (open_text (header_text (before ++ p :: seg ++ l :: after) rest)) h
  = Undefined.
Proof.
  intros Hlines Hrest Hp Hnone Hsix Hl Hparse.
  destruct (readAngHeader_lines _ rest h Hlines Hrest) as (is1 & ->).
  replace (before ++ p :: seg ++ l :: after)
    with ((before ++ p :: seg) ++ l :: after)
    by (now rewrite <- app_assoc).
  rewrite parse_header_lines_app, Hparse. cbn [bind parse_header_lines].
  rewrite (elastic_line_past_array l st Hl); [reflexivity|].
  rewrite parse_header_lines_app in Hparse. bind_inv Hparse.
  cbn [parse_header_lines] in Hparse. bind_inv Hparse.
  pose proof (phase_line_resets p a a0 Hp Ha0) as Hzero.
  destruct (elastic_rows_counted seg a0 st Hparse Hnone ltac:(lia))
    as [Hc _].
  lia.
Qed.

End ElasticRows.

Lemma seventh_elastic_row_undefined_witness :
  readAngHeader (FM := lexeme_floats)
    (open_text
       (header_text
          (take 6 sample_lines ++ txt "# Phase 1"
           :: seven_rows ++ drop 21 sample_lines)
          (unlines sample_points)))
    (header empty_map)
  = Undefined.
Proof.
  eapply (seventh_elastic_row_undefined (FM := lexeme_floats)
            (take 6 sample_lines) (txt "# Phase 1") (take 14 seven_rows)
            (txt "# ElasticConstants 	0.0 0.0 0.0 0.0 0.0 0.0")
            (drop 21 sample_lines) (unlines sample_points)
            (header empty_map)).
  - repeat constructor.
  - reflexivity.
  - reflexivity.
  - reflexivity.
  - reflexivity.
  - reflexivity.
  - vm_compute. reflexivity.
Defined.

(** ** File types *)

Lemma find_last_of_None c s : find_last_of c s = None <-> ~ In c s.
Proof.
  induction s as [|a s IH]; cbn [find_last_of In]; [tauto|].
  destruct (find_last_of c s) as [p|].
  - split; [discriminate|]. intros H. exfalso. apply H. right.
    destruct (in_dec ascii_dec c s) as [Hin|Hout]; [assumption|].
    apply IH in Hout. discriminate.
  - destruct (Ascii.eqb_spec a c) as [->|Hne].
    + split; [discriminate|]. intros H. exfalso. apply H. now left.
    + split; [|reflexivity]. intros _ [Heq|Hin]; [congruence|].
      now apply (proj1 IH).
Qed.

Lemma find_last_of_app c base ext :
  ~ In c ext -> find_last_of c (base ++ c :: ext) = Some (length base).
Proof.
  intros Hext. apply find_last_of_None in Hext.
  induction base as [|a base IH]; cbn [app find_last_of length].
  - now rewrite Hext, Ascii.eqb_refl.
  - now rewrite IH.
Qed.

Lemma find_last_of_Some c s p :
  find_last_of c s = Some p ->
  s = take p s ++ c :: drop (S p) s /\ ~ In c (drop (S p) s).
Proof.
  revert p. induction s as [|a s IH]; intros p; cbn [find_last_of];
    [discriminate|].
  destruct (find_last_of c s) as [q|] eqn:Hq.
  - intros [= <-]. destruct (IH q eq_refl) as [Hs Hout].
    cbn [take drop app]. split; [now rewrite <- Hs|exact Hout].
  - destruct (Ascii.eqb_spec a c) as [->|Hne]; [|discriminate].
    intros [= <-]. cbn [take drop app]. split; [reflexivity|].
    now apply find_last_of_None.
Qed.

Lemma tolower_idem c : tolower (tolower c) = tolower c.
Proof. destruct c as [[] [] [] [] [] [] [] []]; reflexivity. Qed.

Lemma tolower_dot c : tolower c = "."%char -> c = "."%char.
Proof. destruct c as [[] [] [] [] [] [] [] []]; cbv; congruence. Qed.

Lemma getFileType_split name base ext :
  txt name = base ++ "."%char :: ext ->
  ~ In "."%char ext ->
  getFileType name
  = (let e := map tolower ext in
     if text_eqb e (txt "ang") then FileType.Ang
     else if text_eqb e (txt "osc") then FileType.Osc
     else if text_eqb e (txt "hdf") then FileType.Hdf
     else if text_eqb e (txt "hdf5") then FileType.Hdf
     else if text_eqb e (txt "h5") then FileType.Hdf
     else FileType.Unknown).
Proof.
  intros Hname Hext. unfold getFileType.
  rewrite Hname, (find_last_of_app _ base ext Hext).
  change (base ++ "."%char :: ext) with (base ++ ["."%char] ++ ext).
  rewrite app_assoc.
  replace (S (length base)) with (length (base ++ ["."%char]))
    by (rewrite length_app; cbn; lia).
  now rewrite drop_app_length.
Qed.

(** X12.  [CanRead] accepts exactly the names whose part after the last
    dot is [ang] in any mix of upper and lower case; a name without a dot
    is not accepted. *)
Theorem CanRead_iff_ang_extension name :
  CanRead name = true <->
  exists base ext,
    txt name = base ++ "."%char :: ext /\
    ~ In "."%char ext /\
    map tolower ext = txt "ang".
Proof.
  split.
  - unfold CanRead, getFileType.
    destruct (find_last_of "." (txt name)) as [pos|] eqn:Hpos;
      [|discriminate].
    destruct (find_last_of_Some _ _ _ Hpos) as [Hsplit Hext].
    intros H. exists (take pos (txt name)), (drop (S pos) (txt name)).
    split; [exact Hsplit|]. split; [exact Hext|].
    apply text_eqb_eq.
    destruct (text_eqb (map tolower (drop (S pos) (txt name))) (txt "ang"));
      [reflexivity|].
    repeat match type of H with
           | (match (if ?b then _ else _) with _ => _ end) = _ =>
               destruct b; try discriminate H
           end.
  - intros (base & ext & Hname & Hext & Hang).
    unfold CanRead. rewrite (getFileType_split name base ext Hname Hext).
    cbv zeta. rewrite Hang. reflexivity.
Qed.

(** X13.  The type of a file depends on the part of its name after the
    last dot only, and not on the case of its letters. *)
Theorem getFileType_of_extension name base ext :
  txt name = base ++ "."%char :: ext ->
  ~ In "."%char ext ->
  getFileType name = getFileType (str ("."%char :: map tolower ext)).
Proof.
  intros Hname Hext.
  rewrite (getFileType_split name base ext Hname Hext).
  rewrite (getFileType_split (str ("."%char :: map tolower ext)) []
             (map tolower ext)).
  - cbv zeta. rewrite map_map.
    now rewrite (map_ext _ tolower (fun c => tolower_idem c)).
  - unfold txt, str. now rewrite list_ascii_of_string_of_list_ascii.
  - intros Hin. apply in_map_iff in Hin. destruct Hin as (c & Hc & Hin).
    apply tolower_dot in Hc. now subst c.
Qed.

Section Files.
Context `{FM : FloatModel} `{OS : SystemError}.

(** X14.  [read] of a name that [CanRead] accepts and that names no file
    throws the message that gives the name. *)
Theorem read_missing_file fs fileName om :
  CanRead fileName = true ->
  fs fileName = None ->
  read fs fileName om = Throw ("ang file " ++ fileName ++ " doesn't exist").
Proof.
  unfold CanRead, read, readAng. intros Htype Hfs.
  destruct (getFileType fileName); try discriminate.
  now rewrite Hfs.
Qed.

(** X15.  For a name that [CanRead] does not accept, [read] opens no file.
    It returns the map as it is when the map holds no point, and otherwise
    throws the message for a file that ended before any of the points the
    map holds. *)
Theorem read_refused_name fs fileName om :
  CanRead fileName = false ->
  read fs fileName om
  = (if 0 <? size (iq (scan om))
     then Throw (file_ended 0 (size (iq (scan om))))
     else Return om).
Proof.
  unfold CanRead. intros Htype. apply read_not_ang.
  destruct (getFileType fileName); congruence.
Qed.

End Files.

Lemma CanRead_iff_ang_extension_witness :
  CanRead "maps/scan.v2.Ang" = true.
Proof.
  apply (proj2 (CanRead_iff_ang_extension "maps/scan.v2.Ang")).
  exists (txt "maps/scan.v2"), (txt "Ang").
  split; [reflexivity|]. split; [|reflexivity].
  cbn. intros [H|[H|[H|[]]]]; discriminate H.
Defined.

Lemma getFileType_of_extension_witness :
  getFileType "maps/scan.v2.HDF5" = getFileType ".hdf5".
Proof.
  apply (getFileType_of_extension "maps/scan.v2.HDF5" (txt "maps/scan.v2")
           (txt "HDF5")).
  - reflexivity.
  - cbn. intros [H|[H|[H|[H|[]]]]]; discriminate H.
Defined.

Lemma read_missing_file_witness :
  read (FM := lexeme_floats) (OS := no_detail) (fun _ => None) "scan.ang"
    empty_map
  = Throw "ang file scan.ang doesn't exist".
Proof.
  apply (read_missing_file (FM := lexeme_floats) (OS := no_detail));
    reflexivity.
Defined.

Lemma read_refused_name_witness :
  read (FM := lexeme_floats) (OS := no_detail) (fun _ => None) "scan.osc"
    (allocated 8 (map_of_grid GridType.Square 2 2 2))
  = Throw "file ended after reading 0 of 4 data points".
Proof.
  apply (read_refused_name (FM := lexeme_floats) (OS := no_detail)
           (fun _ => None) "scan.osc"
           (allocated 8 (map_of_grid GridType.Square 2 2 2))).
  reflexivity.
Defined.

(** ** Grid types *)

Lemma span_word_app w rest :
  forallb (fun c => negb (isspace c)) w = true ->
  stops rest = true ->
  span_word (w ++ rest) = (w, rest).
Proof.
  intros Hw Hrest. induction w as [|c w IH]; cbn [app].
  - destruct rest as [|c rest]; [reflexivity|].
    cbn [stops] in Hrest. cbn [span_word]. now rewrite Hrest.
  - cbn [forallb] in Hw. apply andb_prop in Hw. destruct Hw as [Hc Hw].
    apply negb_true_iff in Hc. cbn [span_word]. rewrite Hc.
    now rewrite (IH Hw).
Qed.

Lemma extract_word_padded ws w rest :
  all_space ws = true ->
  forallb (fun c => negb (isspace c)) w = true ->
  w <> [] ->
  stops rest = true ->
  fst (extract_word (open_text (ws ++ w ++ rest))) = Some w.
Proof.
  intros Hws Hw Hne Hrest. unfold extract_word, sentry.
  change (good (open_text ?s)) with true. cbv iota.
  change (remaining (open_text ?s)) with s.
  rewrite (skip_space_app ws _ Hws).
  assert (Hskip : skip_space (w ++ rest) = w ++ rest).
  { destruct w as [|c w]; [congruence|]. cbn [forallb] in Hw.
    apply andb_prop in Hw. destruct Hw as [Hc _].
    apply negb_true_iff in Hc. cbn [app skip_space]. now rewrite Hc. }
  rewrite Hskip. cbv zeta.
  destruct (w ++ rest) as [|c r] eqn:Hwr; [now destruct w|]. cbn [is_nil].
  rewrite remaining_advance.
  change (remaining (open_text ?s)) with s.
  rewrite length_app.
  replace (length ws + length (c :: r) - length (c :: r))%nat
    with (length ws) by lia.
  rewrite drop_app_length, <- Hwr, (span_word_app w rest Hw Hrest).
  reflexivity.
Qed.

(** X16.  Writing a grid type and reading it back gives the grid type: for
    [Square] and [Hexagonal] the insertion appends a word that the
    extraction, after any white space and up to the next white space or
    the end, turns into the same grid type.  The insertion of [Unknown]
    throws. *)
Theorem grid_type_round_trip grid os ws rest :
  all_space ws = true ->
  stops rest = true ->
  match insert_GridType os grid with
  | Return os' =>
      exists word,
        os' = os ++ word /\
        fst (extract_GridType (open_text (ws ++ word ++ rest))) = grid
  | Throw what => grid = GridType.Unknown /\ what = "unknown grid type"%string
  | Undefined => False
  end.
Proof.
  intros Hws Hrest.
  destruct grid; cbn [insert_GridType]; [now split| |].
  - exists (txt "SqrGrid"). split; [reflexivity|].
    unfold extract_GridType, extract_string.
    pose proof (extract_word_padded ws (txt "SqrGrid") rest Hws eq_refl
                  ltac:(discriminate) Hrest) as Hword.
    destruct (extract_word _) as [w is1]. cbn [fst] in Hword. now subst w.
  - exists (txt "HexGrid"). split; [reflexivity|].
    unfold extract_GridType, extract_string.
    pose proof (extract_word_padded ws (txt "HexGrid") rest Hws eq_refl
                  ltac:(discriminate) Hrest) as Hword.
    destruct (extract_word _) as [w is1]. cbn [fst] in Hword. now subst w.
Qed.

Lemma grid_type_round_trip_witness :
  exists word,
    txt "# GRID: HexGrid" = txt "# GRID: " ++ word /\
    fst (extract_GridType (open_text (txt "  " ++ word ++ [nl])))
    = GridType.Hexagonal.
Proof.
  apply (grid_type_round_trip GridType.Hexagonal (txt "# GRID: ") (txt "  ")
           [nl]); reflexivity.
Defined.

(** ** Columns that are not read *)

Section UnusedColumns.
Context `{FM : FloatModel}.

Lemma parse_point_signal readSem readFit data :
  readSem = false ->
  signal (fst (parse_point readSem readFit data)) = None.
Proof. intros ->. now rewrite parse_point_convert. Qed.

Lemma parse_point_fitness readSem readFit data :
  readSem && readFit = false ->
  fitness (fst (parse_point readSem readFit data)) = None.
Proof. rewrite parse_point_convert. cbn. now intros ->. Qed.

Lemma store_point_sem i p d d' :
  signal p = None -> store_point i p d = Return d' -> sem d' = sem d.
Proof.
  unfold store_point. destruct (euler p) as [[e0 e1] e2]. intros Hp H.
  rewrite Hp in H. repeat bind_inv H. injection H as <-. cbn in *.
  congruence.
Qed.

Lemma store_point_fit i p d d' :
  fitness p = None -> store_point i p d = Return d' -> fit d' = fit d.
Proof.
  unfold store_point. destruct (euler p) as [[e0 e1] e2]. intros Hp H.
  rewrite Hp in H. repeat bind_inv H. injection H as <-. cbn in *.
  congruence.
Qed.

Lemma readAngDataMemMap_loop_unused h readSem readFit extraTok fileBytes
    todo data t pointsRead bytesRead d n d' :
  readAngDataMemMap_loop h readSem readFit extraTok fileBytes todo data t
    pointsRead bytesRead d = Return (n, d') ->
  (readSem = false -> sem d' = sem d) /\
  (readSem && readFit = false -> fit d' = fit d).
Proof.
  revert data t pointsRead bytesRead d.
  induction todo as [|todo IH]; intros data t pointsRead bytesRead d;
    cbn [readAngDataMemMap_loop].
  - now intros [= _ <-].
  - destruct (bytesRead <? fileBytes); [|now intros [= _ <-]].
    pose proof (parse_point_signal readSem readFit data) as Hsignal.
    pose proof (parse_point_fitness readSem readFit data) as Hfitness.
    destruct (parse_point readSem readFit data) as [p data1].
    cbn [fst] in *. intros H.
    bind_inv H. bind_inv H. apply IH in H. destruct H as [Hsem Hfit].
    split.
    + intros Hoff. rewrite Hsem by assumption.
      eapply store_point_sem; [|exact Ha]. now apply Hsignal.
    + intros Hoff. rewrite Hfit by assumption.
      eapply store_point_fit; [|exact Ha]. now apply Hfitness.
Qed.

Lemma readAngData_loop_unused h readSem readFit todo ins t pointsRead d n d' :
  readAngData_loop h readSem readFit todo ins t pointsRead d
  = Return (n, d') ->
  (readSem = false -> sem d' = sem d) /\
  (readSem && readFit = false -> fit d' = fit d).
Proof.
  revert ins t pointsRead d.
  induction todo as [|todo IH]; intros ins t pointsRead d;
    cbn [readAngData_loop].
  - now intros [= _ <-].
  - destruct (getline 512 ins) as [line is1].
    destruct (failbit is1); [now intros [= _ <-]|].
    intros H. bind_inv H. apply IH in H. destruct H as [Hsem Hfit].
    split.
    + intros Hoff. rewrite Hsem by assumption.
      eapply store_point_sem; [|exact Ha]. now apply parse_point_signal.
    + intros Hoff. rewrite Hfit by assumption.
      eapply store_point_fit; [|exact Ha]. now apply parse_point_fitness.
Qed.

Context `{OS : SystemError}.

(** X17.  A file whose header gives a grid type that is neither [SqrGrid]
    nor [HexGrid] is rejected by [read] once its header has been accepted:
    [allocate] throws and no data is decoded. *)
Theorem read_unknown_grid fs fileName om bytes n ins h :
  CanRead fileName = true ->
  fs fileName = Some bytes ->
  readAngHeader (open_text bytes) (header om) = Return (n, ins, h) ->
  gridType h = GridType.Unknown ->
  read fs fileName om
  = Throw "only Square and Hexagonal grid types are supported".
Proof.
  unfold CanRead, read, readAng. intros Htype Hfs Hhead Hgrid.
  destruct (getFileType fileName); try discriminate.
  rewrite Hfs, Hhead. cbn [bind]. unfold allocate. cbn [header].
  now rewrite Hgrid.
Qed.

(** X18.  [read] does not clear the arrays of the optional columns.  When
    the file has eight columns, the signal and the fit that the map held
    before are still in it after [read] returns; when the file has nine,
    the fit is. *)
Theorem read_keeps_unused_columns fs fileName om om' bytes n ins h :
  CanRead fileName = true ->
  fs fileName = Some bytes ->
  readAngHeader (open_text bytes) (header om) = Return (n, ins, h) ->
  read fs fileName om = Return om' ->
  (n <= 8 -> sem (scan om') = sem (scan om)) /\
  (n <= 9 -> fit (scan om') = fit (scan om)).
Proof.
  unfold CanRead, read, readAng. intros Htype Hfs Hhead.
  destruct (getFileType fileName); try discriminate.
  rewrite Hfs, Hhead. cbn [bind]. intros H.
  apply bind_Return in H. destruct H as ([pointsRead om1] & Hang & H).
  destruct (pointsRead <? size (iq (scan om1))); [discriminate|].
  injection H as <-.
  apply bind_Return in Hang. destruct Hang as (om0 & Halloc & Hdata).
  unfold allocate in Halloc.
  apply bind_Return in Halloc. destruct Halloc as (total & _ & Halloc).
  injection Halloc as <-.
  unfold UseMemMap, readAngDataMemMap in Hdata.
  apply bind_Return in Hdata. destruct Hdata as (mapped & _ & Hdata).
  apply bind_Return in Hdata. destruct Hdata as ([k d'] & Hloop & Hdata).
  injection Hdata as _ <-. cbn [scan header fst snd] in *.
  assert (Hkeep :
            ((8 <? n) = false ->
             sem d' = (if 8 <? n then resize total float_zero (sem (scan om))
                       else sem (scan om))) /\
            ((8 <? n) && (9 <? n) = false ->
             fit d' = (if 9 <? n then resize total float_zero (fit (scan om))
                       else fit (scan om)))).
  { destruct (_ && _) in Hloop.
    - apply readAngDataMemMap_loop_unused in Hloop. exact Hloop.
    - destruct (_ && _) in Hloop; [discriminate|].
      injection Hloop as _ <-. now split. }
  destruct Hkeep as [Hsem Hfit]. split; intros Hn.
  - rewrite Hsem; destruct (Z.ltb_spec 8 n); (reflexivity || lia).
  - rewrite Hfit; [|destruct (Z.ltb_spec 9 n); [lia|apply andb_false_r]].
    destruct (Z.ltb_spec 9 n); (reflexivity || lia).
Qed.

End UnusedColumns.

Lemma read_unknown_grid_witness :
  read (FM := lexeme_floats) (OS := no_detail)
    (one_file "scan.ang" unknown_grid_scan) "scan.ang" empty_map
  = Throw "only Square and Hexagonal grid types are supported".
Proof.
  eapply (read_unknown_grid (FM := lexeme_floats) (OS := no_detail)
            (one_file "scan.ang" unknown_grid_scan) "scan.ang" empty_map
            unknown_grid_scan).
  - reflexivity.
  - reflexivity.
  - vm_compute. reflexivity.
  - reflexivity.
Defined.

Lemma read_keeps_unused_columns_witness :
  exists om',
    read (FM := lexeme_floats) (OS := no_detail)
      (one_file "scan.ang" sample_scan) "scan.ang" map_with_signal
    = Return om' /\
    sem (scan om') = [txt "7"] /\
    fit (scan om') = [txt "8"].
Proof.
  eexists. split; [vm_compute; reflexivity|].
  edestruct (read_keeps_unused_columns (FM := lexeme_floats)
               (OS := no_detail) (one_file "scan.ang" sample_scan)
               "scan.ang" map_with_signal) as [Hsem Hfit].
  - reflexivity.
  - reflexivity.
  - vm_compute. reflexivity.
  - vm_compute. reflexivity.
  - split; [apply Hsem|apply Hfit]; lia.
Defined.

Section LongDataLine.
Context `{FM : FloatModel}.

(** The end of [readAngHeader] at a first line of data that does not fit
    the buffer: the words of its first 511 bytes are counted and the
    stream is left failed. *)
Lemma count_columns_long bytes pos line rest :
  drop pos bytes = line ++ rest ->
  no_newline line = true ->
  (512 <= length line)%nat ->
  count_columns (stream_at bytes pos)
  = (_ <- require (negb (count_words (c_str (take 511 line)) <? 8))
            (too_few_columns (count_words (c_str (take 511 line)))) ;;
     Return (count_words (c_str (take 511 line)),
             {| content := bytes; gpos := pos + 511; eofbit := false;
                failbit := true |}))%outcome.
Proof.
  intros Hrem Hnl Hlen. unfold count_columns, tellg.
  rewrite good_stream_at. cbn [gpos stream_at fst snd].
  fold (stream_at bytes pos).
  unfold getline. rewrite good_stream_at, remaining_stream_at, Hrem.
  change (512 - 1)%nat with 511%nat.
  rewrite getline_scan_full;
    [|rewrite take_app_le by lia; now apply no_newline_take
     |rewrite length_app; lia].
  rewrite take_app_le by lia.
  rewrite count_tokens_words;
    [|reflexivity
     |pose proof (length_c_str (take 511 line));
      change (remaining (open_text ?s)) with s; lia].
  change (remaining (open_text ?s)) with s.
  rewrite Z.add_0_l. reflexivity.
Qed.

Context `{OS : SystemError}.


End LongDataLine.


(** ** Indices inside the arrays *)

Section GridSlots.
Context `{FM : FloatModel} (h : ScanHeader).
Hypothesis even_width : 1 <= nColsEven h < 2 ^ 64.
Hypothesis odd_width : 1 <= nColsOdd h < 2 ^ 64.

Lemma row_start_mono r R : (r <= R)%nat -> row_start h r <= row_start h R.
Proof using even_width odd_width.
  induction 1 as [|m Hle IH]; [lia|]. cbn [row_start].
  pose proof (row_width_range h even_width odd_width (Nat.even m)). lia.
Qed.

Lemma row_decompose R k :
  0 <= k < row_start h R ->
  exists r n,
    (r < R)%nat /\ 0 <= n < row_width h (Nat.even r) /\
    k = row_start h r + n.
Proof.
  induction R as [|R IH]; cbn [row_start]; intros Hk; [lia|].
  destruct (Z.lt_ge_cases k (row_start h R)) as [Hlt|Hge].
  - destruct (IH ltac:(lia)) as (r & n & Hr & Hn & Heq).
    exists r, n. repeat split; try lia.
  - exists R, (k - row_start h R). repeat split; lia.
Qed.

Lemma point_slot_at r n :
  0 <= n < row_width h (Nat.even r) ->
  row_start h (S r) <= 2 ^ 64 ->
  point_slot h (Z.to_nat (row_start h r + n))
  = row_start h r + (row_width h (Nat.even r) - 1 - n).
Proof using even_width odd_width.
  intros Hn Hfit. cbn [row_start] in Hfit.
  pose proof (row_start_nonneg h even_width odd_width r) as Hs.
  unfold point_slot.
  replace (Z.to_nat (row_start h r + n))
    with (Z.to_nat n + Z.to_nat (row_start h r))%nat by lia.
  rewrite Nat.iter_add, (traversal_at_row h even_width odd_width).
  rewrite traversal_in_row by lia.
  unfold point_index, traversal_at.
  cbn [completeRowPoints currentCol].
  rewrite Z2Nat.id by lia.
  rewrite (wrap64_small (row_start h r)) by lia.
  apply wrap64_small. lia.
Qed.

Lemma point_slot_row R k :
  row_start h R <= 2 ^ 64 ->
  Z.of_nat k < row_start h R ->
  exists r,
    (r < R)%nat /\
    row_start h r <= Z.of_nat k < row_start h (S r) /\
    row_start h r <= point_slot h k < row_start h (S r) /\
    point_slot h k = row_start h r + (row_start h (S r) - 1 - Z.of_nat k).
Proof using even_width odd_width.
  intros Hfit Hk.
  destruct (row_decompose R (Z.of_nat k) ltac:(lia)) as (r & n & Hr & Hn & Heq).
  pose proof (row_start_mono (S r) R ltac:(lia)) as Hmono.
  exists r. split; [exact Hr|].
  assert (Hslot : point_slot h k
                  = row_start h r + (row_width h (Nat.even r) - 1 - n)).
  { rewrite <- (point_slot_at r n Hn ltac:(lia)). f_equal. lia. }
  cbn [row_start] in *. lia.
Qed.

Lemma point_slot_bounds R k :
  row_start h R <= 2 ^ 64 ->
  Z.of_nat k < row_start h R ->
  0 <= point_slot h k < row_start h R.
Proof using even_width odd_width.
  intros Hfit Hk.
  destruct (point_slot_row R k Hfit Hk) as (r & Hr & _ & Hslot & _).
  pose proof (row_start_mono (S r) R ltac:(lia)).
  pose proof (row_start_nonneg h even_width odd_width r). lia.
Qed.

Lemma point_slot_inj R k1 k2 :
  row_start h R <= 2 ^ 64 ->
  Z.of_nat k1 < row_start h R ->
  Z.of_nat k2 < row_start h R ->
  point_slot h k1 = point_slot h k2 ->
  k1 = k2.
Proof using even_width odd_width.
  intros Hfit Hk1 Hk2 Heq.
  destruct (point_slot_row R k1 Hfit Hk1) as (r1 & _ & Hin1 & Hs1 & He1).
  destruct (point_slot_row R k2 Hfit Hk2) as (r2 & _ & Hin2 & Hs2 & He2).
  assert (Hr : r1 = r2).
  { destruct (Nat.lt_trichotomy r1 r2) as [Hlt|[Heq'|Hgt]];
      [|exact Heq'|].
    - pose proof (row_start_mono (S r1) r2 ltac:(lia)). lia.
    - pose proof (row_start_mono (S r2) r1 ltac:(lia)). lia. }
  subst r2. lia.
Qed.

(** The points that [allocate] counts for a grid with rows that fit. *)

Lemma even_double q : Nat.even (q + q) = true.
Proof. rewrite Nat.even_add. now destruct (Nat.even q). Qed.

Lemma row_start_double q :
  row_start h (q + q) = Z.of_nat q * (nColsEven h + nColsOdd h).
Proof.
  induction q as [|q IH]; [reflexivity|].
  replace (S q + S q)%nat with (S (S (q + q))) by lia.
  cbn [row_start]. rewrite IH, Nat.even_succ, <- Nat.negb_even, even_double.
  cbn [negb row_width]. lia.
Qed.

Lemma grid_points_rows :
  0 <= nRows h ->
  grid_points h
  = nRows h / 2 * (nColsEven h + nColsOdd h)
    + (if nRows h mod 2 =? 1 then nColsEven h else 0).
Proof using even_width odd_width.
  intros Hrows. unfold grid_points.
  pose proof (Z.div_mod (nRows h) 2 ltac:(lia)) as Hdiv.
  pose proof (Z.mod_pos_bound (nRows h) 2 ltac:(lia)) as Hmod.
  assert (Hq : 0 <= nRows h / 2) by (apply Z.div_pos; lia).
  destruct (Z.eqb_spec (nRows h mod 2) 1) as [Hodd|Heven].
  - replace (Z.to_nat (nRows h))
      with (S (Z.to_nat (nRows h / 2) + Z.to_nat (nRows h / 2))) by lia.
    cbn [row_start]. rewrite row_start_double, even_double. cbn [row_width].
    lia.
  - replace (Z.to_nat (nRows h))
      with (Z.to_nat (nRows h / 2) + Z.to_nat (nRows h / 2))%nat by lia.
    rewrite row_start_double. lia.
Qed.

Lemma rows_fit_total :
  rows_fit h = true ->
  0 <= nRows h ->
  grid_points h < 2 ^ 64 ->
  totalPoints (gridType h) (nColsOdd h) (nColsEven h) (nRows h)
  = Return (grid_points h).
Proof using even_width odd_width.
  intros Hfit Hrows Hsmall.
  pose proof (row_start_nonneg h even_width odd_width (Z.to_nat (nRows h)))
    as Hpos.
  fold (grid_points h) in Hpos.
  rewrite grid_points_rows in * by assumption.
  pose proof (Z.div_mod (nRows h) 2 ltac:(lia)) as Hdiv.
  pose proof (Z.mod_pos_bound (nRows h) 2 ltac:(lia)) as Hmod.
  unfold rows_fit in Hfit. unfold totalPoints.
  destruct (gridType h); [discriminate| |].
  - apply Z.eqb_eq in Hfit. rewrite Hfit, Z.max_id. f_equal.
    rewrite wrap64_small; [|split].
    + destruct (Z.eqb_spec (nRows h mod 2) 1); nia.
    + nia.
    + destruct (Z.eqb_spec (nRows h mod 2) 1); nia.
  - f_equal.
    assert (Hwrap : wrap64 (nRows h / 2 * wrap64 (nColsOdd h + nColsEven h))
                    = wrap64 (nRows h / 2 * (nColsOdd h + nColsEven h))).
    { unfold wrap64. now rewrite Z.mul_mod_idemp_r by lia. }
    rewrite Hwrap.
    destruct (Z.eqb_spec (nRows h mod 2) 1) as [Hodd|Heven].
    + destruct (Z.eqb_spec (nRows h mod 2) 0) as [|_]; [lia|].
      cbn [orb] in Hfit. apply Z.eqb_eq in Hfit.
      unfold wrap64. rewrite Zplus_mod_idemp_l.
      rewrite Z.mod_small; lia.
    + rewrite wrap64_small; lia.
Qed.

(** X20.  For a grid whose rows fit, with column counts of at least one
    and a number of points within [size_t], [allocate] counts the points
    of the rows as the decoders traverse them, and the decoders give each
    of these points an index of its own inside the arrays. *)
Theorem fitting_grid_slots k1 k2 :
  rows_fit h = true ->
  0 <= nRows h ->
  grid_points h < 2 ^ 64 ->
  Z.of_nat k1 < grid_points h ->
  Z.of_nat k2 < grid_points h ->
  totalPoints (gridType h) (nColsOdd h) (nColsEven h) (nRows h)
  = Return (grid_points h) /\
  0 <= point_slot h k1 < grid_points h /\
  (point_slot h k1 = point_slot h k2 -> k1 = k2).
Proof using even_width odd_width.
  intros Hfit Hrows Hsmall Hk1 Hk2.
  split; [now apply rows_fit_total|]. split.
  - apply point_slot_bounds; [unfold grid_points in Hsmall; lia|assumption].
  - apply (point_slot_inj (Z.to_nat (nRows h)));
      [unfold grid_points in Hsmall; lia|assumption..].
Qed.

End GridSlots.

Lemma fitting_grid_slots_witness :
  let h := header (map_of_grid (FM := lexeme_floats) GridType.Hexagonal 3 2 4)
  in
  totalPoints (gridType h) (nColsOdd h) (nColsEven h) (nRows h) = Return 10 /\
  0 <= point_slot h 3 < 10 /\
  (point_slot h 3 = point_slot h 4 -> 3%nat = 4%nat).
Proof.
  intros h.
  apply (fitting_grid_slots (FM := lexeme_floats) h
           ltac:(vm_compute; split; congruence)
           ltac:(vm_compute; split; congruence) 3 4);
    try reflexivity; vm_compute; congruence.
Defined.

(** ** Assignments inside the arrays *)

Lemma store_Return_inv {A : Type} (v v' : list A) i a :
  store v i a = Return v' ->
  0 <= i < size v /\ v' = <[Z.to_nat i := a]> v.
Proof.
  unfold store.
  destruct (Z.leb_spec 0 i); [|discriminate].
  destruct (Z.ltb_spec i (size v)); [|discriminate].
  cbn [andb]. intros [= <-]. split; [lia|reflexivity].
Qed.

Lemma store_in_bounds {A : Type} (v : list A) i a :
  0 <= i < size v -> store v i a = Return (<[Z.to_nat i := a]> v).
Proof.
  intros Hi. unfold store.
  destruct (Z.leb_spec 0 i); [|lia].
  destruct (Z.ltb_spec i (size v)); [|lia]. reflexivity.
Qed.

Lemma size_insert {A : Type} (v : list A) i a : size (<[i := a]> v) = size v.
Proof. unfold size. now rewrite length_insert. Qed.

Section Assignments.
Context `{FM : FloatModel}.

Lemma store_point_returns readSem readFit total i p d :
  arrays_hold readSem readFit total d ->
  0 <= i < total ->
  3 * total < 2 ^ 64 ->
  (readSem = false -> signal p = None) ->
  (readSem && readFit = false -> fitness p = None) ->
  exists d1,
    store_point i p d = Return d1 /\ arrays_hold readSem readFit total d1.
Proof.
  intros (Heu & Hx & Hy & Hiq & Hci & Hphase & Hsem & Hfit) Hi Hsmall
    Hsignal Hfitness.
  unfold store_point. destruct (euler p) as [[e0 e1] e2].
  rewrite !wrap64_small by lia.
  rewrite (store_in_bounds (eu d)) by lia. cbn [bind].
  rewrite store_in_bounds by (rewrite size_insert; lia). cbn [bind].
  rewrite store_in_bounds by (rewrite !size_insert; lia). cbn [bind].
  rewrite !store_in_bounds by lia. cbn [bind].
  assert (Hs : exists s, store_optional (sem d) i (signal p) = Return s
                         /\ size s = size (sem d)).
  { destruct (signal p) as [v|] eqn:Hv; cbn [store_optional]; [|eauto].
    destruct readSem; [|now discriminate Hsignal].
    rewrite store_in_bounds by (rewrite Hsem by reflexivity; lia).
    eexists. split; [reflexivity|apply size_insert]. }
  assert (Hf : exists f, store_optional (fit d) i (fitness p) = Return f
                         /\ size f = size (fit d)).
  { destruct (fitness p) as [v|] eqn:Hv; cbn [store_optional]; [|eauto].
    destruct (readSem && readFit); [|now discriminate Hfitness].
    rewrite store_in_bounds by (rewrite Hfit by reflexivity; lia).
    eexists. split; [reflexivity|apply size_insert]. }
  destruct Hs as (s & -> & Hs). destruct Hf as (f & -> & Hf). cbn [bind].
  eexists. split; [reflexivity|].
  unfold arrays_hold. cbn [eu x y iq ci phase sem fit].
  rewrite !size_insert, Hs, Hf. repeat split; assumption.
Qed.

Lemma store_point_holds i p d d1 :
  0 <= i ->
  3 * i + 2 < 2 ^ 64 ->
  store_point i p d = Return d1 ->
  holds d1 i p.
Proof.
  intros Hi Hsmall. unfold store_point.
  destruct (euler p) as [[e0 e1] e2] eqn:He.
  rewrite !wrap64_small by lia. intros H.
  repeat (let a := fresh "a" in let Ha := fresh "Ha" in
          apply bind_Return in H; destruct H as (a & Ha & H)).
  injection H as <-.
  repeat match goal with
         | Hs : store _ _ _ = Return _ |- _ =>
             apply store_Return_inv in Hs; destruct Hs as [? ->]
         end.
  rewrite !size_insert in *.
  unfold holds. rewrite He. cbn [eu x y iq ci phase sem fit fst snd].
  repeat split.
  - rewrite !list_lookup_insert_ne by lia.
    apply list_lookup_insert_eq. unfold size in *. lia.
  - rewrite list_lookup_insert_ne by lia.
    apply list_lookup_insert_eq. rewrite length_insert. unfold size in *. lia.
  - apply list_lookup_insert_eq. rewrite !length_insert. unfold size in *. lia.
  - apply list_lookup_insert_eq. unfold size in *. lia.
  - apply list_lookup_insert_eq. unfold size in *. lia.
  - apply list_lookup_insert_eq. unfold size in *. lia.
  - apply list_lookup_insert_eq. unfold size in *. lia.
  - apply list_lookup_insert_eq. unfold size in *. lia.
  - intros v Hv. rewrite Hv in *. cbn [store_optional] in *.
    match goal with
    | Hs : store (sem d) _ _ = Return _ |- _ =>
        apply store_Return_inv in Hs; destruct Hs as [? ->]
    end.
    apply list_lookup_insert_eq. unfold size in *. lia.
  - intros v Hv. rewrite Hv in *. cbn [store_optional] in *.
    match goal with
    | Hs : store (fit d) _ _ = Return _ |- _ =>
        apply store_Return_inv in Hs; destruct Hs as [? ->]
    end.
    apply list_lookup_insert_eq. unfold size in *. lia.
Qed.

Lemma store_optional_frame (v v' : list float) i a j :
  0 <= i -> 0 <= j -> j <> i ->
  store_optional v i a = Return v' ->
  v' !! Z.to_nat j = v !! Z.to_nat j.
Proof.
  intros Hi Hj Hne. destruct a as [f|]; cbn [store_optional];
    [|now intros [= <-]].
  intros H. apply store_Return_inv in H. destruct H as [_ ->].
  apply list_lookup_insert_ne. lia.
Qed.

Lemma store_point_frame i p d d1 j q :
  0 <= i ->
  3 * i + 2 < 2 ^ 64 ->
  0 <= j ->
  j <> i ->
  store_point i p d = Return d1 ->
  holds d j q ->
  holds d1 j q.
Proof.
  intros Hi Hsmall Hj Hne. unfold store_point.
  destruct (euler p) as [[e0 e1] e2] eqn:He.
  rewrite !wrap64_small by lia. intros H.
  repeat (let a := fresh "a" in let Ha := fresh "Ha" in
          apply bind_Return in H; destruct H as (a & Ha & H)).
  injection H as <-.
  repeat match goal with
         | Hs : store_optional _ _ _ = Return _ |- _ =>
             apply (store_optional_frame _ _ _ _ j Hi Hj Hne) in Hs
         end.
  repeat match goal with
         | Hs : store _ _ _ = Return _ |- _ =>
             apply store_Return_inv in Hs; destruct Hs as [? ->]
         end.
  unfold holds. cbn [eu x y iq ci phase sem fit].
  intros (Ge0 & Ge1 & Ge2 & Gx & Gy & Gq & Gc & Gp & Gs & Gf).
  rewrite !list_lookup_insert_ne by lia.
  repeat split; try assumption.
  - intros v Hv. rewrite <- (Gs v Hv). assumption.
  - intros v Hv. rewrite <- (Gf v Hv). assumption.
Qed.

End Assignments.

(** ** The decoders on a grid whose rows fit *)

Section Allocated.
Context `{FM : FloatModel}.

Lemma allocate_arrays tokens om0 om total :
  allocate tokens om0 = Return om ->
  totalPoints (gridType (header om0)) (nColsOdd (header om0))
    (nColsEven (header om0)) (nRows (header om0)) = Return total ->
  3 * total < 2 ^ 64 ->
  header om = header om0 /\
  arrays_hold (8 <? tokens) (9 <? tokens) total (scan om).
Proof.
  intros Halloc Htotal Hsmall.
  pose proof (totalPoints_nonneg _ _ _ _ _ Htotal) as Hpos.
  unfold allocate in Halloc. rewrite Htotal in Halloc. cbn [bind] in Halloc.
  injection Halloc as <-. split; [reflexivity|].
  unfold arrays_hold. cbn [scan eu x y iq ci phase sem fit].
  rewrite wrap64_small by lia.
  rewrite !size_resize by lia.
  repeat split; try reflexivity.
  - intros ->. now rewrite size_resize by lia.
  - intros H. apply andb_prop in H. destruct H as [_ ->].
    now rewrite size_resize by lia.
Qed.

End Allocated.

Section DecoderBounds.
Context `{FM : FloatModel} (h : ScanHeader) (readSem readFit : bool).
Hypothesis even_width : 1 <= nColsEven h < 2 ^ 64.
Hypothesis odd_width : 1 <= nColsOdd h < 2 ^ 64.
Variable R : nat.
Hypothesis small : 3 * row_start h R < 2 ^ 64.

Lemma slot_in_arrays k :
  (k < Z.to_nat (row_start h R))%nat ->
  0 <= point_slot h k < row_start h R.
Proof using even_width odd_width small.
  intros Hk.
  pose proof (row_start_nonneg h even_width odd_width R).
  apply (point_slot_bounds h even_width odd_width R); lia.
Qed.

Lemma readAngData_loop_returns todo :
  forall k ins n d,
    (k + todo <= Z.to_nat (row_start h R))%nat ->
    arrays_hold readSem readFit (row_start h R) d ->
    exists n' d',
      readAngData_loop h readSem readFit todo ins
        (Nat.iter k (next_point h) (traversal_start h)) n d
      = Return (n', d') /\
      arrays_hold readSem readFit (row_start h R) d' /\
      n <= n' <= n + Z.of_nat todo.
Proof using even_width odd_width small.
  induction todo as [|todo IH]; intros k ins n d Hk Hd.
  - exists n, d. cbn [readAngData_loop].
    split; [reflexivity|]. split; [assumption|lia].
  - cbn [readAngData_loop]. destruct (getline 512 ins) as [line is1].
    destruct (failbit is1).
    { exists n, d. split; [reflexivity|]. split; [assumption|lia]. }
    destruct (store_point_returns readSem readFit (row_start h R)
                (point_index (Nat.iter k (next_point h) (traversal_start h)))
                (fst (parse_point readSem readFit line)) d Hd)
      as (d1 & -> & Hd1).
    + apply slot_in_arrays. lia.
    + lia.
    + apply parse_point_signal.
    + apply parse_point_fitness.
    + cbn [bind].
      change (next_point h (Nat.iter k (next_point h) (traversal_start h)))
        with (Nat.iter (S k) (next_point h) (traversal_start h)).
      destruct (IH (S k) is1 (n + 1) d1 ltac:(lia) Hd1)
        as (n' & d' & Hloop & Hd' & Hn').
      exists n', d'. split; [assumption|]. split; [assumption|lia].
Qed.

Variables (extraTok : bool) (junk : text).

Lemma readAngData_loop_lines plines :
  forall todo k ins n d,
    Forall (fun pl => point_line_ok readSem readFit extraTok pl = true)
      plines ->
    good ins = true ->
    remaining ins = render_lines plines junk ->
    (todo <= length plines)%nat ->
    (k + todo <= Z.to_nat (row_start h R))%nat ->
    arrays_hold readSem readFit (row_start h R) d ->
    exists d',
      readAngData_loop h readSem readFit todo ins
        (Nat.iter k (next_point h) (traversal_start h)) n d
      = Return (n + Z.of_nat todo, d') /\
      arrays_hold readSem readFit (row_start h R) d' /\
      (forall j pl,
         (j < todo)%nat -> plines !! j = Some pl ->
         holds d' (point_slot h (k + j)) (point_of_line readSem readFit pl)) /\
      (forall i q,
         0 <= i ->
         (forall j, (j < todo)%nat -> point_slot h (k + j) <> i) ->
         holds d i q -> holds d' i q).
Proof using even_width odd_width small.
  induction plines as [|pl pls IH];
    intros todo k ins n d Hok Hgood Hrem Htodo Hk Hd;
    (destruct todo as [|todo];
     [exists d; cbn [readAngData_loop]; rewrite Z.add_0_r;
      split; [reflexivity|]; split; [assumption|];
      split; [intros; lia|intros; assumption]|]).
  - cbn [length] in Htodo. lia.
  - apply Forall_cons in Hok. destruct Hok as [Hpl Hok].
    destruct (point_line_ok_inv _ _ _ _ Hpl)
      as (Hfields & Hsep & Htrailer & Hnl & Hlen).
    cbn [render_lines foldr] in Hrem. fold (render_lines pls junk) in Hrem.
    destruct (getline_line ins _ _ Hgood Hrem Hnl Hlen)
      as (is1 & Hline & Hgood1 & Hrem1 & Hfail1).
    rewrite (readAngData_loop_turn _ _ _ _ _ _ _ _ _ _ Hline Hfail1).
    assert (Htr : stops (trailer pl) = true).
    { destruct (readSem && readFit && extraTok);
        [assumption|now apply all_blank_stops]. }
    assert (Hpoint : parse_point readSem readFit (render_line pl)
                     = (point_of_line readSem readFit pl, trailer pl)).
    { apply (parse_point_line readSem readFit pl []); auto. }
    rewrite Hpoint. cbn [fst].
    pose proof (slot_in_arrays k ltac:(lia)) as Hslot.
    fold (point_slot h k).
    destruct (store_point_returns readSem readFit (row_start h R)
                (point_slot h k) (point_of_line readSem readFit pl) d Hd
                Hslot ltac:(lia))
      as (d1 & Hstore & Hd1).
    { intros Hoff.
      pose proof (parse_point_signal readSem readFit (render_line pl) Hoff)
        as Hnone.
      now rewrite Hpoint in Hnone. }
    { intros Hoff.
      pose proof (parse_point_fitness readSem readFit (render_line pl) Hoff)
        as Hnone.
      now rewrite Hpoint in Hnone. }
    rewrite Hstore. cbn [bind].
    change (next_point h (Nat.iter k (next_point h) (traversal_start h)))
      with (Nat.iter (S k) (next_point h) (traversal_start h)).
    destruct (IH todo (S k) is1 (n + 1) d1 Hok Hgood1 Hrem1
                ltac:(cbn [length] in Htodo; lia) ltac:(lia) Hd1)
      as (d' & Hloop & Hd' & Hpoints & Hframe).
    exists d'. split; [rewrite Hloop; do 2 f_equal; lia|].
    split; [exact Hd'|]. split.
    + intros [|j] pl' Hj Hlook.
      * injection Hlook as <-. rewrite Nat.add_0_r.
        apply Hframe; [lia| |].
        -- intros j Hj' Heq.
           pose proof (row_start_nonneg h even_width odd_width R).
           apply (point_slot_inj h even_width odd_width R) in Heq; lia.
        -- eapply store_point_holds; [| |exact Hstore]; lia.
      * replace (k + S j)%nat with (S k + j)%nat by lia.
        apply Hpoints; [lia|exact Hlook].
    + intros i q Hi Hfree Hq.
      apply Hframe; [exact Hi| |].
      * intros j Hj. replace (S k + j)%nat with (k + S j)%nat by lia.
        apply Hfree. lia.
      * eapply (store_point_frame (point_slot h k));
          [| | |  |exact Hstore|exact Hq]; try lia.
        intros ->. apply (Hfree 0%nat); [lia|]. now rewrite Nat.add_0_r.
Qed.

End DecoderBounds.

Lemma header_text_split lines rest :
  header_text lines rest = header_text lines [] ++ rest.
Proof. unfold header_text. now rewrite app_nil_r. Qed.

Section DecoderTheorems.
Context `{FM : FloatModel}.

Lemma allocate_header tokens om0 om :
  allocate tokens om0 = Return om -> header om = header om0.
Proof.
  unfold allocate. intros H. apply bind_Return in H.
  destruct H as (total & _ & H). now injection H as <-.
Qed.

(** X21.  On a map that [allocate] has sized for a grid whose rows fit,
    with column counts of at least one and three times the number of
    points within [size_t], the decoder over a stream assigns inside the
    arrays only, whatever the stream holds: it returns, with a number of
    points that is at most that of the grid, and leaves the header and
    the sizes of the arrays as they were. *)
Theorem stream_decoder_in_bounds ins tokens om0 om :
  allocate tokens om0 = Return om ->
  rows_fit (header om) = true ->
  1 <= nColsEven (header om) < 2 ^ 64 ->
  1 <= nColsOdd (header om) < 2 ^ 64 ->
  0 <= nRows (header om) ->
  3 * grid_points (header om) < 2 ^ 64 ->
  exists n om',
    readAngData ins tokens om = Return (n, om') /\
    0 <= n <= grid_points (header om) /\
    header om' = header om /\
    arrays_hold (8 <? tokens) (9 <? tokens) (grid_points (header om))
      (scan om').
Proof.
  intros Halloc Hfit Heven Hodd Hrows Hsmall.
  pose proof (allocate_header _ _ _ Halloc) as Hheader.
  pose proof (row_start_nonneg (header om) Heven Hodd
                (Z.to_nat (nRows (header om)))) as Hpos.
  change (0 <= grid_points (header om)) in Hpos.
  assert (Hless : grid_points (header om) < 2 ^ 64) by lia.
  pose proof (rows_fit_total (header om) Heven Hodd Hfit Hrows Hless)
    as Htotal.
  rewrite Hheader in Htotal at 1 2 3 4.
  destruct (allocate_arrays _ _ _ _ Halloc Htotal ltac:(lia)) as [_ Hd].
  unfold readAngData.
  assert (Hiq : size (iq (scan om)) = grid_points (header om))
    by apply Hd.
  rewrite Hiq.
  destruct (readAngData_loop_returns (header om) (8 <? tokens) (9 <? tokens)
              Heven Hodd (Z.to_nat (nRows (header om))) Hsmall
              (Z.to_nat (grid_points (header om))) 0%nat ins 0 (scan om)
              ltac:(unfold grid_points; lia) Hd)
    as (n & d' & Hloop & Hd' & Hn).
  cbn [Nat.iter nat_rect] in Hloop. rewrite Hloop. cbn [bind fst snd].
  exists n, {| header := header om; scan := d' |}.
  split; [reflexivity|]. split; [lia|]. split; [reflexivity|exact Hd'].
Qed.

Lemma readAngHeader_at_end lines h :
  Forall (fun l => is_header_line l = true) lines ->
  returns (readAngHeader (open_text (header_text lines [])) h) = false.
Proof.
  intros Hlines. unfold readAngHeader.
  set (bytes := header_text lines []).
  change (open_text bytes) with (stream_at bytes 0).
  fold (header_start h).
  rewrite (header_loop_at lines [] bytes Hlines eq_refl);
    [|reflexivity|apply length_header_text].
  destruct (parse_header_lines lines (header_start h)) as [st| |];
    cbn [bind]; [|reflexivity..].
  destruct (check_final_phase st); cbn [bind]; [|reflexivity..].
  destruct (check_header_values (seen st)); cbn [bind]; [|reflexivity..].
  unfold peek. rewrite good_stream_at, remaining_stream_at.
  cbn [Nat.add]. fold bytes. rewrite drop_all. reflexivity.
Qed.

Context `{OS : SystemError}.

(** The decoder over the mapped file as the decoder over a stream, on a
    data section given by its lines. *)
Lemma mapped_decoder_as_stream fs fileName prefix lines junk tokens om :
  fs fileName = Some (prefix ++ render_lines lines junk) ->
  prefix ++ render_lines lines junk <> [] ->
  size (prefix ++ render_lines lines junk) < SIZE_MAX ->
  Forall
    (fun pl =>
       point_line_ok (8 <? tokens) (9 <? tokens) (10 <? tokens) pl = true)
    lines ->
  size (iq (scan om)) <= Z.of_nat (length lines) ->
  readAngDataMemMap fs fileName (Z.of_nat (length prefix)) tokens om
  = readAngData (stream_at (prefix ++ render_lines lines junk)
                   (length prefix)) tokens om.
Proof.
  set (mapped := prefix ++ render_lines lines junk).
  intros Hfs Hne Hfile Hlines Hend.
  assert (Hlen : size mapped
                 = Z.of_nat (length prefix) + size (render_lines lines junk)).
  { unfold size, mapped. rewrite length_app. lia. }
  assert (Hdrop : drop (length prefix) mapped
                  = [] ++ render_lines lines junk).
  { unfold mapped. now rewrite drop_app_length. }
  clearbody mapped.
  unfold readAngData, readAngDataMemMap, memorymap_File. rewrite Hfs.
  destruct mapped as [|c bytes]; [congruence|].
  set (mapped := c :: bytes) in *. cbn [bind].
  pose proof (size_nonneg (render_lines lines junk)) as Hdata.
  destruct (Z.leb_spec 0 (Z.of_nat (length prefix))); [|lia].
  destruct (Z.leb_spec (Z.of_nat (length prefix)) (size mapped)); [|lia].
  cbn [andb]. rewrite Nat2Z.id, Hdrop.
  rewrite (decoder_loops_agree (header om) (8 <? tokens) (9 <? tokens)
             (10 <? tokens) (size mapped) junk Hfile lines
             (Z.to_nat (size (iq (scan om)))) []
             (stream_at mapped (length prefix))
             (traversal_start (header om)) 0 (scan om)
             (wrap64 (Z.of_nat (length prefix) + 1)));
    try reflexivity; try assumption.
  - cbn [app]. lia.
  - cbn [app]. rewrite wrap64_small; [lia|]. unfold SIZE_MAX in Hfile. lia.
  - left. lia.
Qed.

(** X22.  Take an ang file made of a header, given by its lines, and of
    lines of data that each hold the fields of one point for the number
    of columns of the first line, as decimal numbers separated by blanks.
    When the header is accepted, its grid has rows that fit, column counts
    of at least one and no more points than there are lines, [read]
    returns a map with the header as parsed, arrays sized for the points
    of the grid, and the values of line [k] of the data, counting from
    zero, at the index that the traversal gives point [k]. *)
Theorem read_well_formed_file fs fileName om hlines plines n ins h :
  CanRead fileName = true ->
  fs fileName = Some (header_text hlines (render_lines plines [])) ->
  size (header_text hlines (render_lines plines [])) < SIZE_MAX ->
  Forall (fun l => is_header_line l = true) hlines ->
  is_data_start (render_lines plines []) = true ->
  readAngHeader (open_text (header_text hlines (render_lines plines [])))
    (header om) = Return (n, ins, h) ->
  Forall
    (fun pl => point_line_ok (8 <? n) (9 <? n) (10 <? n) pl = true) plines ->
  rows_fit h = true ->
  1 <= nColsEven h < 2 ^ 64 ->
  1 <= nColsOdd h < 2 ^ 64 ->
  0 <= nRows h ->
  3 * grid_points h < 2 ^ 64 ->
  grid_points h <= Z.of_nat (length plines) ->
  exists om',
    read fs fileName om = Return om' /\
    header om' = h /\
    arrays_hold (8 <? n) (9 <? n) (grid_points h) (scan om') /\
    forall k pl,
      Z.of_nat k < grid_points h ->
      plines !! k = Some pl ->
      holds (scan om') (point_slot h k) (point_of_line (8 <? n) (9 <? n) pl).
Proof.
  intros Htype Hfs Hfile Hlines Hstart Hhead Hok Hfit Heven Hodd Hrows Hsmall
    Hmany.
  destruct plines as [|pl pls].
  { exfalso. cbn [render_lines foldr] in Hhead.
    pose proof (readAngHeader_at_end hlines (header om) Hlines) as Hend.
    rewrite Hhead in Hend. discriminate. }
  set (plines := pl :: pls) in *.
  set (bytes := header_text hlines (render_lines plines [])) in *.
  assert (Hins : ins = stream_at bytes (length (header_text hlines []))).
  { pose proof Hhead as Hcopy. unfold bytes, plines in Hcopy.
    cbn [render_lines foldr] in Hcopy, Hstart.
    fold (render_lines pls []) in Hcopy, Hstart.
    apply Forall_cons in Hok. destruct Hok as [Hpl _].
    destruct (point_line_ok_inv _ _ _ _ Hpl) as (_ & _ & _ & Hnl & Hlen).
    rewrite readAngHeader_data_line in Hcopy by assumption.
    do 4 (let a := fresh "a" in let Ha := fresh "Ha" in
          apply bind_Return in Hcopy; destruct Hcopy as (a & Ha & Hcopy)).
    injection Hcopy as _ Hstream _. now rewrite <- Hstream. }
  pose proof (row_start_nonneg h Heven Hodd (Z.to_nat (nRows h))) as Hpos.
  change (0 <= grid_points h) in Hpos.
  assert (Hless : grid_points h < 2 ^ 64) by lia.
  pose proof (rows_fit_total h Heven Hodd Hfit Hrows Hless) as Htotal.
  unfold CanRead in Htype. unfold read, readAng.
  destruct (getFileType fileName); try discriminate.
  rewrite Hfs. fold bytes. rewrite Hhead. cbn [bind].
  destruct (allocate n {| header := h; scan := scan om |}) as [om1| |]
    eqn:Halloc;
    [|unfold allocate in Halloc; cbn [header] in Halloc;
      rewrite Htotal in Halloc; discriminate..].
  destruct (allocate_arrays _ _ _ _ Halloc Htotal ltac:(lia))
    as [Hheader Hd].
  cbn [header] in Hheader.
  assert (Hiq : size (iq (scan om1)) = grid_points h) by apply Hd.
  cbn [bind]. unfold UseMemMap.
  rewrite Hins. cbn [tellg good stream_at eofbit failbit negb andb fst gpos].
  assert (Hbytes : bytes = header_text hlines [] ++ render_lines plines [])
    by apply header_text_split.
  rewrite Hbytes in Hfs, Hfile.
  rewrite (mapped_decoder_as_stream fs fileName (header_text hlines [])
             plines [] n om1 Hfs);
    [|intros Hnil; apply app_eq_nil in Hnil; destruct Hnil as [_ Hnil];
      unfold plines in Hnil; cbn [render_lines foldr] in Hnil;
      destruct (render_line pl); discriminate
     |exact Hfile|exact Hok|lia].
  rewrite <- Hbytes. unfold readAngData. rewrite Hiq, Hheader.
  destruct (readAngData_loop_lines h (8 <? n) (9 <? n) Heven Hodd
              (Z.to_nat (nRows h)) Hsmall (10 <? n) [] plines
              (Z.to_nat (grid_points h)) 0%nat
              (stream_at bytes (length (header_text hlines []))) 0
              (scan om1) Hok eq_refl)
    as (d' & Hloop & Hd' & Hpoints & _).
  - rewrite remaining_stream_at. unfold bytes. apply drop_header_text.
  - lia.
  - unfold grid_points. lia.
  - exact Hd.
  - cbn [Nat.iter nat_rect] in Hloop. rewrite Hloop. cbn [bind fst snd scan].
    assert (Hiq' : size (iq d') = grid_points h) by apply Hd'.
    rewrite Hiq'.
    destruct (Z.ltb_spec (0 + Z.of_nat (Z.to_nat (grid_points h)))
                (grid_points h)); [lia|].
    eexists. split; [reflexivity|]. cbn [header scan].
    split; [reflexivity|]. split; [exact Hd'|].
    intros k pl' Hk Hlook. apply (Hpoints k pl'); [lia|exact Hlook].
Qed.

End DecoderTheorems.

Lemma stream_decoder_in_bounds_witness :
  let om :=
    allocated (FM := lexeme_floats) 8 (map_of_grid GridType.Hexagonal 3 2 4)
  in
  exists n om',
    readAngData (open_text (txt "no numbers here")) 8 om = Return (n, om') /\
    0 <= n <= grid_points (header om) /\
    header om' = header om /\
    arrays_hold false false (grid_points (header om)) (scan om').
Proof.
  intros om.
  apply (stream_decoder_in_bounds (FM := lexeme_floats)
           (open_text (txt "no numbers here")) 8
           (map_of_grid GridType.Hexagonal 3 2 4) om).
  - reflexivity.
  - reflexivity.
  - vm_compute. split; congruence.
  - vm_compute. split; congruence.
  - vm_compute. congruence.
  - vm_compute. reflexivity.
Defined.

Lemma read_well_formed_file_witness :
  exists om',
    read (FM := lexeme_floats) (OS := no_detail)
      (one_file "scan.ang" sample_file) "scan.ang" empty_map = Return om' /\
    x (scan om') = [txt "0.5"; txt "0.0"; txt "0.5"; txt "0."] /\
    holds (scan om') 1
      (point_of_line false false
         (spaced_line
            [ "1.0"; "2.0"; "3.0"; "0.0"; "0.0"; "10.5"; "0.9"; "1" ]%string
            EmptyString)).
Proof.
  edestruct (read_well_formed_file (FM := lexeme_floats) (OS := no_detail)
               (one_file "scan.ang" sample_file) "scan.ang" empty_map
               sample_lines sample_point_lines)
    as (om' & Hread & _ & _ & Hpoints).
  - reflexivity.
  - reflexivity.
  - vm_compute. reflexivity.
  - repeat constructor.
  - reflexivity.
  - vm_compute. reflexivity.
  - repeat constructor.
  - reflexivity.
  - vm_compute. split; congruence.
  - vm_compute. split; congruence.
  - vm_compute. congruence.
  - vm_compute. reflexivity.
  - vm_compute. congruence.
  - exists om'. split; [exact Hread|]. split.
    + vm_compute in Hread. injection Hread as <-. reflexivity.
    + apply (Hpoints 0%nat); [vm_compute; reflexivity|reflexivity].
Defined.

(** ** The shape of the map after decoding *)

Section DecoderShape.
Context `{FM : FloatModel}.

Lemma store_optional_size (v v' : list float) i a :
  store_optional v i a = Return v' -> size v' = size v.
Proof.
  destruct a; cbn [store_optional]; [apply size_store|now intros [= <-]].
Qed.

Lemma store_point_sizes i p d d' :
  store_point i p d = Return d' -> array_sizes d' = array_sizes d.
Proof.
  unfold store_point. destruct (euler p) as [[e0 e1] e2]. intros H.
  repeat (let a := fresh "a" in let Ha := fresh "Ha" in
          apply bind_Return in H; destruct H as (a & Ha & H)).
  injection H as <-.
  repeat match goal with
         | Hs : store _ _ _ = Return _ |- _ => apply size_store in Hs
         | Hs : store_optional _ _ _ = Return _ |- _ =>
             apply store_optional_size in Hs
         end.
  unfold array_sizes. cbn [eu x y iq ci sem fit phase]. congruence.
Qed.

Lemma readAngDataMemMap_loop_shape h readSem readFit extraTok fileBytes
    todo :
  forall data t pointsRead bytesRead d n d',
    readAngDataMemMap_loop h readSem readFit extraTok fileBytes todo data t
      pointsRead bytesRead d = Return (n, d') ->
    array_sizes d' = array_sizes d /\
    pointsRead <= n <= pointsRead + Z.of_nat todo.
Proof.
  induction todo as [|todo IH]; intros data t pointsRead bytesRead d n d';
    cbn [readAngDataMemMap_loop].
  - intros [= <- <-]. split; [reflexivity|lia].
  - destruct (bytesRead <? fileBytes);
      [|intros [= <- <-]; split; [reflexivity|lia]].
    destruct (parse_point readSem readFit data) as [p data1]. intros H.
    apply bind_Return in H. destruct H as (d1 & Hstore & H).
    apply bind_Return in H. destruct H as (data2 & _ & H).
    apply IH in H. destruct H as [Hsizes Hn].
    rewrite Hsizes. split; [now apply store_point_sizes in Hstore|lia].
Qed.

Context `{OS : SystemError}.

(** X23.  When the decoder over the mapped file returns, the header of the
    map and the sizes of its eight arrays are as before, and the number of
    points it reports lies between zero and the number of elements of
    [iq], with which [read] compares it. *)
Theorem mapped_decoder_keeps_shape fs fileName offset tokens om n om' :
  readAngDataMemMap fs fileName offset tokens om = Return (n, om') ->
  header om' = header om /\
  array_sizes (scan om') = array_sizes (scan om) /\
  0 <= n <= size (iq (scan om)).
Proof.
  unfold readAngDataMemMap. intros H.
  apply bind_Return in H. destruct H as (mapped & _ & H).
  apply bind_Return in H. destruct H as ([k d'] & Hloop & H).
  injection H as <- <-. cbn [fst snd header scan].
  split; [reflexivity|].
  pose proof (size_nonneg (iq (scan om))) as Hpos.
  destruct (_ && _) in Hloop.
  - apply readAngDataMemMap_loop_shape in Hloop. destruct Hloop as [Hs Hk].
    split; [exact Hs|]. lia.
  - destruct (_ && _) in Hloop; [discriminate|].
    injection Hloop as <- <-. split; [reflexivity|lia].
Qed.

End DecoderShape.

Lemma mapped_decoder_keeps_shape_witness :
  exists n om',
    readAngDataMemMap (OS := no_detail) (one_file "scan.ang" sample_file)
      "scan.ang" (Z.of_nat (length (header_text sample_lines []))) 8
      sample_map
    = Return (n, om') /\
    header om' = header sample_map /\
    array_sizes (scan om') = array_sizes (scan sample_map) /\
    0 <= n <= size (iq (scan sample_map)).
Proof.
  destruct (readAngDataMemMap (OS := no_detail)
              (one_file "scan.ang" sample_file) "scan.ang"
              (Z.of_nat (length (header_text sample_lines []))) 8 sample_map)
    as [[n om']| |] eqn:Hrun;
    [|vm_compute in Hrun; discriminate Hrun..].
  exists n, om'. split; [reflexivity|].
  exact (mapped_decoder_keeps_shape (FM := lexeme_floats) (OS := no_detail)
           _ _ _ _ _ _ _ Hrun).
Defined.

(** ** Data that holds no numbers *)

Section NoNumbers.
Context `{FM : FloatModel}.

Lemma starts_no_number_inv c :
  starts_no_number c = true ->
  isspace c = false /\ isdigit c = false /\ is_sign c = false /\
  is_dot c = false.
Proof.
  unfold starts_no_number. intros H. apply negb_true_iff in H.
  do 5 (apply orb_false_elim in H; destruct H as [H ?]).
  repeat split; assumption.
Qed.

Lemma strtof_no_number c r :
  starts_no_number c = true -> strtof (c :: r) = (float_zero, c :: r).
Proof.
  intros H. apply starts_no_number_inv in H.
  destruct H as (Hs & Hd & Hg & Hp).
  unfold strtof, scan_float. cbn [skip_space]. rewrite Hs.
  cbn [take_sign]. rewrite Hg. cbn [span_digits]. rewrite Hd.
  cbn [take_fraction]. rewrite Hp. reflexivity.
Qed.

Lemma strtoul_no_number c r :
  starts_no_number c = true -> strtoul (c :: r) = (0, c :: r).
Proof.
  intros H. apply starts_no_number_inv in H.
  destruct H as (Hs & Hd & Hg & Hp).
  unfold strtoul, scan_integer. cbn [skip_space]. rewrite Hs.
  cbn [take_sign]. rewrite Hg. cbn [span_digits]. rewrite Hd.
  reflexivity.
Qed.

Lemma parse_point_no_number readSem readFit c r :
  starts_no_number c = true ->
  parse_point readSem readFit (c :: r) = (zero_point readSem readFit, c :: r).
Proof.
  intros H. unfold parse_point.
  rewrite !(strtof_no_number c r H), (strtoul_no_number c r H).
  destruct readSem, readFit; cbn [andb];
    rewrite ?(strtof_no_number c r H); reflexivity.
Qed.

Section Loop.
Context (h : ScanHeader) (readSem readFit : bool).
Hypothesis even_width : 1 <= nColsEven h < 2 ^ 64.
Hypothesis odd_width : 1 <= nColsOdd h < 2 ^ 64.
Variable R : nat.
Hypothesis small : 3 * row_start h R < 2 ^ 64.
Variables (fileBytes bytesRead : Z) (c : ascii) (r : text).
Hypothesis no_number : starts_no_number c = true.
Hypothesis inside : 0 <= bytesRead < fileBytes.
Hypothesis file_size : fileBytes < 2 ^ 64.

Lemma readAngDataMemMap_loop_no_number todo :
  forall k n d,
    (k + todo <= Z.to_nat (row_start h R))%nat ->
    arrays_hold readSem readFit (row_start h R) d ->
    exists d',
      readAngDataMemMap_loop h readSem readFit false fileBytes todo (c :: r)
        (Nat.iter k (next_point h) (traversal_start h)) n bytesRead d
      = Return (n + Z.of_nat todo, d') /\
      arrays_hold readSem readFit (row_start h R) d' /\
      (forall j,
         (j < todo)%nat ->
         holds d' (point_slot h (k + j)) (zero_point readSem readFit)) /\
      (forall i q,
         0 <= i ->
         (forall j, (j < todo)%nat -> point_slot h (k + j) <> i) ->
         holds d i q -> holds d' i q).
Proof using even_width odd_width small no_number inside file_size.
  induction todo as [|todo IH]; intros k n d Hk Hd.
  - exists d. cbn [readAngDataMemMap_loop]. rewrite Z.add_0_r.
    split; [reflexivity|]. split; [assumption|].
    split; [intros; lia|intros; assumption].
  - rewrite (readAngDataMemMap_loop_turn h readSem readFit false fileBytes
               todo (c :: r) _ n bytesRead d (zero_point readSem readFit)
               (c :: r) ltac:(lia)
               (parse_point_no_number readSem readFit c r no_number)).
    pose proof (slot_in_arrays h even_width odd_width R small k ltac:(lia))
      as Hslot.
    fold (point_slot h k).
    destruct (store_point_returns readSem readFit (row_start h R)
                (point_slot h k) (zero_point readSem readFit) d Hd
                Hslot ltac:(lia))
      as (d1 & Hstore & Hd1).
    { now intros ->. }
    { cbn [zero_point fitness]. now intros ->. }
    rewrite Hstore. cbn [bind]. rewrite andb_false_r. cbn [bind].
    rewrite Z.sub_diag, Z.add_0_r, wrap64_small by lia.
    change (next_point h (Nat.iter k (next_point h) (traversal_start h)))
      with (Nat.iter (S k) (next_point h) (traversal_start h)).
    destruct (IH (S k) (n + 1) d1 ltac:(lia) Hd1)
      as (d' & Hloop & Hd' & Hpoints & Hframe).
    exists d'. split; [rewrite Hloop; do 2 f_equal; lia|].
    split; [exact Hd'|]. split.
    + intros [|j] Hj.
      * rewrite Nat.add_0_r. apply Hframe; [lia| |].
        -- intros j Hj' Heq.
           pose proof (row_start_nonneg h even_width odd_width R).
           apply (point_slot_inj h even_width odd_width R) in Heq; lia.
        -- eapply store_point_holds; [| |exact Hstore]; lia.
      * replace (k + S j)%nat with (S k + j)%nat by lia.
        apply Hpoints. lia.
    + intros i q Hi Hfree Hq.
      apply Hframe; [exact Hi| |].
      * intros j Hj. replace (S k + j)%nat with (k + S j)%nat by lia.
        apply Hfree. lia.
      * eapply (store_point_frame (point_slot h k));
          [| | |  |exact Hstore|exact Hq]; try lia.
        intros ->. apply (Hfree 0%nat); [lia|]. now rewrite Nat.add_0_r.
Qed.

End Loop.

Context `{OS : SystemError}.


End NoNumbers.


(** ** The decoders along the traversal *)

Section DecodersAlongRows.
Context `{FM : FloatModel} `{OS : SystemError}.

(** C9 (as amended).  Let the column counts be at least one, let the
    arrays of the map hold the points of [R] rows as the traversal takes
    them, the first with the even width and the widths alternating, with
    three times that number within [size_t], and let the data of the file
    be lines that each hold the fields of one point, at least as many as
    there are points.  Then the decoder over the stream and the decoder
    over the mapped file both return that number of points and the same
    map, and for every row [r] below [R] and every [n] below the width of
    the row: before the point that follows the points of the rows before
    [r] and [n] points of row [r], both carry the accumulator at the
    number of points of the rows before [r] and the column counter at the
    width of the row less one, less [n]; the step to the next point moves
    the accumulator, by the width of the row, exactly when the counter is
    at zero; and the map returned holds the fields of that point's line at
    the sum of the accumulator and the counter, which is the number of
    points of the rows before [r] plus the width of the row less one,
    less [n]. *)
Theorem decoders_follow_traversal fs fileName prefix plines junk tokens om R :
  let h := header om in
  1 <= nColsEven h < 2 ^ 64 ->
  1 <= nColsOdd h < 2 ^ 64 ->
  3 * row_start h R < 2 ^ 64 ->
  arrays_hold (8 <? tokens) (9 <? tokens) (row_start h R) (scan om) ->
  fs fileName = Some (prefix ++ render_lines plines junk) ->
  prefix ++ render_lines plines junk <> [] ->
  size (prefix ++ render_lines plines junk) < SIZE_MAX ->
  Forall
    (fun pl =>
       point_line_ok (8 <? tokens) (9 <? tokens) (10 <? tokens) pl = true)
    plines ->
  row_start h R <= Z.of_nat (length plines) ->
  exists om',
    readAngData (stream_at (prefix ++ render_lines plines junk)
                   (length prefix)) tokens om
    = Return (row_start h R, om') /\
    readAngDataMemMap fs fileName (Z.of_nat (length prefix)) tokens om
    = Return (row_start h R, om') /\
    forall r n,
      (r < R)%nat ->
      0 <= n < row_width h (Nat.even r) ->
      let k := Z.to_nat (row_start h r + n) in
      let t := Nat.iter k (next_point h) (traversal_start h) in
      t = traversal_at h r n /\
      point_index t = row_start h r + (row_width h (Nat.even r) - 1 - n) /\
      next_point h t
      = (if n =? row_width h (Nat.even r) - 1
         then traversal_at h (S r) 0 else traversal_at h r (n + 1)) /\
      exists pl,
        plines !! k = Some pl /\
        holds (scan om') (point_index t)
          (point_of_line (8 <? tokens) (9 <? tokens) pl).
Proof.
  intros h Heven Hodd Hsmall Hd Hfs Hne Hfile Hok Hmany.
  pose proof (row_start_nonneg h Heven Hodd R) as Hpos.
  assert (Hiq : size (iq (scan om)) = row_start h R) by apply Hd.
  destruct (readAngData_loop_lines h (8 <? tokens) (9 <? tokens) Heven Hodd
              R Hsmall (10 <? tokens) junk plines
              (Z.to_nat (row_start h R)) 0%nat
              (stream_at (prefix ++ render_lines plines junk)
                 (length prefix)) 0 (scan om) Hok eq_refl)
    as (d' & Hloop & Hd' & Hpoints & _).
  { rewrite remaining_stream_at. apply drop_app_length. }
  { lia. }
  { lia. }
  { exact Hd. }
  cbn [Nat.iter nat_rect] in Hloop.
  rewrite Z.add_0_l, Z2Nat.id in Hloop by lia.
  assert (Hstream :
            readAngData (stream_at (prefix ++ render_lines plines junk)
                           (length prefix)) tokens om
            = Return (row_start h R, {| header := h; scan := d' |})).
  { unfold readAngData. fold h. rewrite Hiq, Hloop. reflexivity. }
  exists {| header := h; scan := d' |}.
  split; [exact Hstream|]. split.
  { rewrite (mapped_decoder_as_stream fs fileName prefix plines junk tokens
               om Hfs Hne Hfile Hok); [exact Hstream|lia]. }
  intros r n Hr Hn k t.
  pose proof (row_start_mono h Heven Hodd (S r) R ltac:(lia)) as Hmono.
  pose proof (row_start_nonneg h Heven Hodd r) as Hrow.
  cbn [row_start] in Hmono.
  destruct (traversal_state_at h Heven Hodd r n Hn) as (Ht & _ & Hnext & _).
  split; [exact Ht|]. split.
  { apply (point_slot_at h Heven Hodd r n Hn). cbn [row_start]. lia. }
  split; [exact Hnext|].
  assert (Hk : (k < length plines)%nat) by (unfold k; lia).
  destruct (lookup_lt_is_Some_2 plines k Hk) as [pl Hpl].
  exists pl. split; [exact Hpl|]. cbn [scan].
  apply (Hpoints k pl); [unfold k; lia|exact Hpl].
Qed.

End DecodersAlongRows.

(** The theorem at the sample scan: the first point of the second row is
    the third line of the data, and it is stored at index 3. *)
Lemma decoders_follow_traversal_witness :
  let mapped := header_text sample_lines [] ++ render_lines sample_point_lines []
  in
  exists om',
    readAngData (stream_at mapped (length (header_text sample_lines []))) 8
      sample_map
    = Return (4, om') /\
    readAngDataMemMap (OS := no_detail) (one_file "scan.ang" mapped)
      "scan.ang" (Z.of_nat (length (header_text sample_lines []))) 8
      sample_map
    = Return (4, om') /\
    Nat.iter 2 (next_point (header sample_map))
      (traversal_start (header sample_map))
    = traversal_at (header sample_map) 1 0 /\
    holds (scan om') 3
      (point_of_line false false
         (spaced_line
            [ "-1.2"; "2.2e0"; ".32E1"; "0."; "0.5"; "+12.5"; "0.7"; "2" ]%string
            EmptyString)).
Proof.
  intros mapped.
  edestruct (decoders_follow_traversal (FM := lexeme_floats)
               (OS := no_detail) (one_file "scan.ang" mapped) "scan.ang"
               (header_text sample_lines []) sample_point_lines [] 8
               sample_map 2)
    as (om' & Hstream & Hmapped & Hrows).
  - vm_compute. split; congruence.
  - vm_compute. split; congruence.
  - vm_compute. reflexivity.
  - vm_compute. repeat split; discriminate.
  - reflexivity.
  - discriminate.
  - vm_compute. reflexivity.
  - repeat constructor.
  - vm_compute. congruence.
  - exists om'. split; [exact Hstream|]. split; [exact Hmapped|].
    destruct (Hrows 1%nat 0 ltac:(lia) ltac:(vm_compute; split; congruence))
      as (Hstate & _ & _ & pl & Hpl & Hholds).
    split; [exact Hstate|].
    vm_compute in Hpl. injection Hpl as <-. exact Hholds.
Defined.

(** C9 as stated fails for a column count of zero.  For a hexagonal grid
    of one row with two columns in odd rows and none in even rows,
    [allocate] makes arrays of two elements; the traversal starts in a row
    of no column, whose column counter is [2^64 - 1] rather than the width
    less one, and the first point is given that index: the assignment of
    either decoder is outside the arrays. *)
Lemma zero_width_row_wraps :
  let h := header zero_width_map in
  size (iq (scan zero_width_map)) = 2 /\
  row_width h true = 0 /\
  currentCol (traversal_start h) = 2 ^ 64 - 1 /\
  point_index (traversal_start h) = 2 ^ 64 - 1 /\
  readAngData (open_text (unlines sample_points)) 8 zero_width_map
  = Undefined /\
  readAngDataMemMap (OS := no_detail)
    (one_file "scan.ang" (unlines sample_points)) "scan.ang" 0 8
    zero_width_map
  = Undefined.
Proof. cbv zeta. repeat split; vm_compute; reflexivity. Qed.
